(** * Yot-Presentation v5.3.1: the command recognition and dispatch pipeline

    A shallow embedding of [src/v5.3.1/yot_presentation_v5.3.1.py]:
    the input buffer ([OptimizedInputBuffer]), the decision logger
    ([AdvancedTrainingDataLogger]), the language detector
    ([MultiLanguageDetector]) and the command matcher
    ([PowerPointControllerV53.match_command]) over the catalog
    [MULTILANG_COMMANDS]; then the records ([AudioTextRecord]), the
    executor ([OptimizedPyAutoGUIExecutor]), the running of a command
    ([PowerPointControllerV53.execute]) and the speech engine
    ([MultiLanguageSpeechEngine.recognize]).

    Conventions.
    - A Python [str] is a sequence of Unicode code points ([str], below);
      tuples of Python compare lexicographically, strings by code point.
    - [time.time()] is read by the caller and passed in: every operation
      of the buffer that reads the clock takes the reading(s) as
      arguments.  A reading is a binary64 number of seconds ([reading]),
      and the debounce test is computed on binary64 as the source does.
    - The executor and the controller read [time.perf_counter()]
      themselves: there the clock is a function of the number of
      readings taken so far, and the calls of [pyautogui] made are kept
      in a list ([World]).
    - Libraries of Python that the source calls ([queue.PriorityQueue],
      [re], [sqlite3], [thefuzz], [langdetect], [json]) are modelled by
      the part of their contract the source relies on, or taken as
      parameters of a Section. *)

From stdpp Require Import gmap strings list fin_maps sorting.
From Stdlib Require Import ZArith Lia PrimFloat FloatOps FloatAxioms SpecFloat.

Set Warnings "-inexact-float".

Local Open Scope Z_scope.

(* ===================================================================== *)
(** * Python strings *)
(* ===================================================================== *)

(** A [str] of Python: its code points. *)
Record str : Set := Str { cps : list N }.

(** String literals of this file are written in UTF-8 and read as code
    points. *)
Fixpoint utf8_decode (bs : list N) : list N :=
  match bs with
  | [] => []
  | b0 :: r0 =>
    if (b0 <? 128)%N then b0 :: utf8_decode r0 else
    match r0 with
    | [] => [b0]
    | b1 :: r1 =>
      if (b0 <? 224)%N
      then ((b0 - 192) * 64 + (b1 - 128))%N :: utf8_decode r1 else
      match r1 with
      | [] => [b0; b1]
      | b2 :: r2 =>
        if (b0 <? 240)%N
        then ((b0 - 224) * 4096 + (b1 - 128) * 64 + (b2 - 128))%N
             :: utf8_decode r2 else
        match r2 with
        | [] => [b0; b1; b2]
        | b3 :: r3 =>
          ((b0 - 240) * 262144 + (b1 - 128) * 4096
           + (b2 - 128) * 64 + (b3 - 128))%N :: utf8_decode r3
        end
      end
    end
  end.

Definition str_of_bytes (bs : list Byte.byte) : str :=
  Str (utf8_decode (map (fun b => N.of_nat (Byte.to_nat b)) bs)).

Definition bytes_of_str (s : str) : option (list Byte.byte) :=
  if forallb (fun c => (c <? 128)%N) (cps s)
  then Some (map (fun c => match Byte.of_nat (N.to_nat c) with
                           | Some b => b
                           | None => Byte.x00
                           end) (cps s))
  else None.

Declare Scope str_scope.
Delimit Scope str_scope with str.
Bind Scope str_scope with str.
String Notation str str_of_bytes bytes_of_str : str_scope.

Global Instance str_eq_dec : EqDecision str.
Proof. solve_decision. Defined.

Global Instance str_countable : Countable str.
Proof. apply (inj_countable' cps Str). by intros []. Defined.

(** [a < b], [a == b], [a > b] on sequences of code points. *)
Fixpoint cps_compare (a b : list N) : comparison :=
  match a, b with
  | [], [] => Eq
  | [], _ :: _ => Lt
  | _ :: _, [] => Gt
  | x :: a', y :: b' =>
    match (x ?= y)%N with
    | Eq => cps_compare a' b'
    | c => c
    end
  end.

Definition str_compare (a b : str) : comparison := cps_compare (cps a) (cps b).

Definition str_len (s : str) : Z := Z.of_nat (length (cps s)).

(** [a + b] *)
Definition str_app (a b : str) : str := Str (cps a ++ cps b).

(** The line feed, ['\n']. *)
Definition LF : str := Str [10%N].

(* ===================================================================== *)
(** * Clock readings *)
(* ===================================================================== *)

(** A reading of [time.time()]: a binary64 number of seconds.  The clock
    gives no NaN. *)
Record reading : Set := Reading {
  seconds : float;
  seconds_number : PrimFloat.is_nan seconds = false
}.

(** The reading of [s] seconds ([s] a number; a NaN reads as 0). *)
Definition at_seconds (s : float) : reading :=
  match PrimFloat.is_nan s as nan
        return PrimFloat.is_nan s = nan → reading with
  | false => Reading s
  | true => λ _, Reading 0%float eq_refl
  end eq_refl.

(* ===================================================================== *)
(** * [queue.PriorityQueue] *)
(* ===================================================================== *)

(** The standard library's bounded priority queue, by its contract: [put]
    with [block=False] raises [queue.Full] when [maxsize > 0] and
    [maxsize] entries are stored; [get] with [block=False] (and
    [get_nowait]) raises [queue.Empty] on an empty queue and otherwise
    removes and returns the smallest entry.  The entries are kept here in
    the order they were put; which of two equal entries leaves first
    cannot be observed. *)
Module PriorityQueue.

(** The entries the buffer puts: [(priority, time.time(), command)]. *)
Definition item : Type := Z * reading * str.

Definition priority_of (x : item) : Z := x.1.1.
Definition arrival_of (x : item) : reading := x.1.2.
Definition command_of (x : item) : str := x.2.

(** [a < b] on these tuples: the first components that are not [==]
    decide, by [<]. *)
Definition item_lt (a b : item) : bool :=
  if negb (priority_of a =? priority_of b)
  then priority_of a <? priority_of b
  else if negb (seconds (arrival_of a) =? seconds (arrival_of b))%float
  then (seconds (arrival_of a) <? seconds (arrival_of b))%float
  else bool_decide (str_compare (command_of a) (command_of b) = Lt).

(** [b] is not smaller than [a]. *)
Definition item_le (a b : item) : bool := negb (item_lt b a).

Record t : Type := mk { maxsize : Z; items : list item }.

Definition create (maxsize : Z) : t := mk maxsize [].

Definition qsize (q : t) : Z := Z.of_nat (length (items q)).

Definition empty (q : t) : bool :=
  match items q with [] => true | _ :: _ => false end.

(** [0 < self.maxsize <= self._qsize()] *)
Definition full (q : t) : bool := (0 <? maxsize q) && (maxsize q <=? qsize q).

(** [None] stands for [queue.Full]. *)
Definition put_nowait (q : t) (x : item) : option t :=
  if full q then None else Some (mk (maxsize q) (items q ++ [x])).

(** The smallest entry of a list and the list without it. *)
Fixpoint pop_min (l : list item) : option (item * list item) :=
  match l with
  | [] => None
  | x :: l' =>
    match pop_min l' with
    | None => Some (x, [])
    | Some (y, r) => if item_le x y then Some (x, l') else Some (y, x :: r)
    end
  end.

(** [None] stands for [queue.Empty]. *)
Definition get_nowait (q : t) : option (item * t) :=
  match pop_min (items q) with
  | None => None
  | Some (x, r) => Some (x, mk (maxsize q) r)
  end.

End PriorityQueue.

(* ===================================================================== *)
(** * [OptimizedInputBuffer] *)
(* ===================================================================== *)

Module OptimizedInputBuffer.

Record t : Type := mk {
  buffer_size : Z;
  debounce_ms : float;              (* seconds, whatever the name says *)
  queue : PriorityQueue.t;
  last_execution_time : float
}.

(** [__init__(buffer_size=10, debounce_ms=50)].  [debounce_ms] is given
    as the float the division turns it into: [50.0] for [50]. *)
Definition init (buffer_size : Z) (debounce_ms : float) : t :=
  mk buffer_size (debounce_ms / 1000)%float
     (PriorityQueue.create buffer_size) 0%float.

Definition with_queue (b : t) (q : PriorityQueue.t) : t :=
  mk (buffer_size b) (debounce_ms b) q (last_execution_time b).

(** How a call of [add_input] ends: it returns a boolean, or the
    [queue.Full] of the second [put] leaves it uncaught (the inner [try]
    catches [queue.Empty] only). *)
Inductive outcome : Type :=
  | Return (r : bool)
  | Raise_Full.

(** [add_input(command, priority=0)].  [now] and [now'] are the readings
    of [time.time()] at the first and at the second [put]. *)
Definition add_input (b : t) (command : str) (priority : Z)
    (now now' : reading) : outcome * t :=
  match PriorityQueue.put_nowait (queue b) (priority, now, command) with
  | Some q => (Return true, with_queue b q)
  | None =>
    (* Remove lowest priority item and retry *)
    match PriorityQueue.get_nowait (queue b) with
    | Some (_, q1) =>
      match PriorityQueue.put_nowait q1 (priority, now', command) with
      | Some q2 => (Return true, with_queue b q2)
      | None => (Raise_Full, with_queue b q1)
      end
    | None => (Return false, b)
    end
  end.

(** [now - self.last_execution_time < self.debounce_ms], in binary64 as
    the source computes it. *)
Definition gate_closed (b : t) (now : reading) : bool :=
  (seconds now - last_execution_time b <? debounce_ms b)%float.

(** [get_next()], with [now] the reading of [time.time()].  The body
    runs under [self.lock]: one call at a time. *)
Definition get_next (b : t) (now : reading) : option str * t :=
  if gate_closed b now then (None, b)
  else
    match PriorityQueue.get_nowait (queue b) with
    | Some ((_, _, command), q) =>
      (Some command, mk (buffer_size b) (debounce_ms b) q (seconds now))
    | None => (None, b)
    end.

(** [flush()]: [get_nowait] until the queue is empty.  The loop runs once
    per stored entry, which bounds it. *)
Fixpoint flush_loop (fuel : nat) (q : PriorityQueue.t) : PriorityQueue.t :=
  match fuel with
  | O => q
  | S fuel' =>
    if PriorityQueue.empty q then q
    else match PriorityQueue.get_nowait q with
         | Some (_, q') => flush_loop fuel' q'
         | None => q
         end
  end.

Definition flush (b : t) : t :=
  with_queue b (flush_loop (length (PriorityQueue.items (queue b))) (queue b)).

(** The calls a client can make, each with the clock readings it takes. *)
Inductive call : Type :=
  | AddInput (command : str) (priority : Z) (now now' : reading)
  | GetNext (now : reading)
  | Flush.

Definition exec (b : t) (c : call) : t :=
  match c with
  | AddInput command priority now now' => (add_input b command priority now now').2
  | GetNext now => (get_next b now).2
  | Flush => flush b
  end.

(** The states of a buffer built by [init] and used from one thread. *)
Inductive reachable (buffer_size : Z) (debounce_ms : float) : t → Prop :=
  | reach_init : reachable buffer_size debounce_ms (init buffer_size debounce_ms)
  | reach_exec b c :
      reachable buffer_size debounce_ms b →
      reachable buffer_size debounce_ms (exec b c).

(** The debounce gate at [now]. *)
Definition gate_open (b : t) (now : reading) : Prop :=
  gate_closed b now = false.

(** A call that is not [get_next]. *)
Definition not_get_next (c : call) : Prop :=
  match c with GetNext _ => False | _ => True end.

(** What every reachable buffer satisfies: the queue was created with
    [maxsize=buffer_size], and a bounded queue never holds more than
    [maxsize] entries. *)
Definition bounded (b : t) : Prop :=
  PriorityQueue.maxsize (queue b) = buffer_size b ∧
  (0 < buffer_size b → PriorityQueue.qsize (queue b) ≤ buffer_size b).

(** ** Two buffers to run the calls on *)

Local Open Scope str_scope.

(** A buffer of the default size holding a priority-0 and a priority-5
    entry, built by two calls of [add_input]. *)
Definition two_priorities : t :=
  foldl exec (init 10 50)
    [AddInput "low" 0 (at_seconds 1.0) (at_seconds 1.0);
     AddInput "high" 5 (at_seconds 1.001) (at_seconds 1.001)].

(** A buffer with debounce 50 ms that served one entry at 1 s and still
    holds two. *)
Definition served_at_1 : t :=
  foldl exec (init 10 50)
    [AddInput "next" 0 (at_seconds 0.9) (at_seconds 0.9);
     AddInput "back" 0 (at_seconds 0.901) (at_seconds 0.901);
     AddInput "zoom" 0 (at_seconds 0.902) (at_seconds 0.902);
     GetNext (at_seconds 1.0)].

(** The claim on the eviction as it is stated, for whatever readings a
    clock gives three calls in a row: none earlier than the one before. *)
Definition C4_as_stated : Prop :=
  ∀ (c1 c2 c3 : str) (t1 t2 t3 : reading) (debounce : float),
    (seconds t1 <=? seconds t2)%float = true →
    (seconds t2 <=? seconds t3)%float = true →
    let s1 := add_input (init 2 debounce) c1 0 t1 t1 in
    let s2 := add_input s1.2 c2 0 t2 t2 in
    let s3 := add_input s2.2 c3 5 t3 t3 in
    map PriorityQueue.command_of (PriorityQueue.items (queue s3.2)) = [c2; c3].

(** The claim on the debounce gate as it is stated: two calls at least
    [D] milliseconds apart with items queued both return a value. *)
Definition C5_as_stated : Prop :=
  ∀ (b : t) (now1 now2 : reading),
    (debounce_ms b <=? seconds now2 - seconds now1)%float = true →
    PriorityQueue.items (queue b) ≠ [] →
    PriorityQueue.items (queue (get_next b now1).2) ≠ [] →
    is_Some (get_next b now1).1 ∧
    is_Some (get_next (get_next b now1).2 now2).1.

End OptimizedInputBuffer.

(* ===================================================================== *)
(** * Languages *)
(* ===================================================================== *)

(** [class Language(Enum)] *)
Inductive Language : Set :=
  | ENGLISH | SPANISH | FRENCH | GERMAN
  | ITALIAN | PORTUGUESE | CHINESE | JAPANESE.

Global Instance Language_eq_dec : EqDecision Language.
Proof. solve_decision. Defined.

Local Open Scope str_scope.

(** [lang.value] *)
Definition Language_value (lang : Language) : str :=
  match lang with
  | ENGLISH => "en" | SPANISH => "es" | FRENCH => "fr" | GERMAN => "de"
  | ITALIAN => "it" | PORTUGUESE => "pt" | CHINESE => "zh" | JAPANESE => "ja"
  end.

Record LanguageConfig : Set := mkLanguageConfig {
  code : str;
  name : str;
  speech_language : str;
  locale_code : str
}.

Definition LANGUAGE_CONFIGS (lang : Language) : LanguageConfig :=
  match lang with
  | ENGLISH => mkLanguageConfig "en" "English" "en-US" "en_US"
  | SPANISH => mkLanguageConfig "es" "Spanish" "es-ES" "es_ES"
  | FRENCH => mkLanguageConfig "fr" "French" "fr-FR" "fr_FR"
  | GERMAN => mkLanguageConfig "de" "German" "de-DE" "de_DE"
  | ITALIAN => mkLanguageConfig "it" "Italian" "it-IT" "it_IT"
  | PORTUGUESE => mkLanguageConfig "pt" "Portuguese" "pt-BR" "pt_BR"
  | CHINESE => mkLanguageConfig "zh" "Chinese" "zh-CN" "zh_CN"
  | JAPANESE => mkLanguageConfig "ja" "Japanese" "ja-JP" "ja_JP"
  end.

(* ===================================================================== *)
(** * [AudioTextRecord] and [AdvancedTrainingDataLogger] *)
(* ===================================================================== *)

Module AudioTextRecord.

Record t : Set := mk {
  id : str;
  text : str;
  command_matched : str;
  confidence : float;
  timestamp : str;
  source : str;
  language : str;
  user_id : str;
  response_time_ms : float
}.

End AudioTextRecord.

Module AdvancedTrainingDataLogger.

(** The two files of the logger: the table [training_data_v53] of the
    SQLite database, one row per value of its primary key [id], and the
    text of the JSONL file. *)
Record t : Type := mk {
  db : gmap str AudioTextRecord.t;
  jsonl : str
}.

(** [get_statistics()], without the aggregates over floats and the size
    of the database file. *)
Record statistics : Type := mkStatistics {
  total_entries : Z;
  by_language : gmap str Z;
  by_command : gmap str Z
}.

(** [SELECT col, COUNT( * ) ... GROUP BY col] *)
Definition group_count (col : AudioTextRecord.t → str)
    (rows : gmap str AudioTextRecord.t) : gmap str Z :=
  map_fold (λ _ row acc, <[col row := default 0 (acc !! col row) + 1]> acc)
    ∅ rows.

Definition get_statistics (self : t) : statistics :=
  mkStatistics
    (Z.of_nat (size (db self)))
    (group_count AudioTextRecord.language (db self))
    (group_count AudioTextRecord.command_matched (db self)).

(** The lines of a text file: its line feeds. *)
Definition line_count (file : str) : Z :=
  Z.of_nat (length (filter (λ c, c = 10%N) (cps file))).

(** A text that has a UTF-8 encoding: what [sqlite3] asks of a [str] it
    binds.  The surrogates have none. *)
Definition encodable (s : str) : bool :=
  forallb (λ c, ((c <? 55296) || (57343 <? c)) && (c <=? 1114111))%N (cps s).

(** The row of a record is one the table takes: its texts can be bound,
    and its two [REAL NOT NULL] columns are numbers ([sqlite3] binds NaN
    as [NULL]). *)
Definition bindable (record : AudioTextRecord.t) : bool :=
  forallb encodable
    [AudioTextRecord.id record; AudioTextRecord.text record;
     AudioTextRecord.command_matched record; AudioTextRecord.timestamp record;
     AudioTextRecord.source record; AudioTextRecord.language record;
     AudioTextRecord.user_id record].

Definition not_null (record : AudioTextRecord.t) : bool :=
  negb (PrimFloat.is_nan (AudioTextRecord.confidence record)) &&
  negb (PrimFloat.is_nan (AudioTextRecord.response_time_ms record)).

(** The table takes the row. *)
Definition accepted (record : AudioTextRecord.t) : bool :=
  bindable record && not_null record.

(** How a call of [log_text] ends.  The two exceptions are raised by
    [cursor.execute], before the JSONL file is opened.  The database and
    the JSONL file are taken to be there and writable, and the texts
    within the length SQLite takes: a call then fails only by the record
    it is given. *)
Inductive outcome : Type :=
  | Returns (self : t)
  | Raises_UnicodeEncodeError
  | Raises_IntegrityError.

(** The files after a call. *)
Definition after (self : t) (o : outcome) : t :=
  match o with
  | Returns self' => self'
  | Raises_UnicodeEncodeError | Raises_IntegrityError => self
  end.

Section Logger.

(** [record.to_json()], that is [json.dumps(asdict(record))]. *)
Variable to_json : AudioTextRecord.t → str.

(** The files after a [log_text(record)] that returned: [INSERT OR
    REPLACE] of the row, then one [write] at the end of the JSONL file. *)
Definition written (self : t) (record : AudioTextRecord.t) : t :=
  mk (<[AudioTextRecord.id record := record]> (db self))
     (str_app (jsonl self) (str_app (to_json record) LF)).

(** [log_text(record)] *)
Definition log_text (self : t) (record : AudioTextRecord.t) : outcome :=
  if negb (bindable record) then Raises_UnicodeEncodeError
  else if negb (not_null record) then Raises_IntegrityError
  else Returns (written self record).

(** [log_text] on each of [records] in turn, a call that raises being
    caught by the caller. *)
Definition log_each (self : t) (records : list AudioTextRecord.t) : t :=
  foldl (λ self record, after self (log_text self record)) self records.

End Logger.

(** ** A store and three records to run the logger on *)

(** A serialiser to run the logger with: the text of the record, with
    each line feed written as backslash and n. *)
Definition text_field_json (record : AudioTextRecord.t) : str :=
  Str (flat_map (λ c, if (c =? 10)%N then [92%N; 110%N] else [c])
         (cps (AudioTextRecord.text record))).

Definition first_log : AudioTextRecord.t :=
  AudioTextRecord.mk "a1b2c3d4e5f60718" "next slide" "next_slide"
    0.95%float "2024-05-01T10:00:00.000001" "google" "en" "default"
    12.5%float.

Definition second_log : AudioTextRecord.t :=
  AudioTextRecord.mk "a1b2c3d4e5f60718" "go back" "prev_slide"
    0.8%float "2024-05-01T10:00:03.000001" "google" "en" "default"
    9.25%float.

Definition other_log : AudioTextRecord.t :=
  AudioTextRecord.mk "0011223344556677" "zoom in" "zoom_in"
    0.9%float "2024-05-01T10:00:01.000001" "google" "en" "default"
    10%float.

(** A record of the id of [first_log] whose confidence is NaN. *)
Definition nan_log : AudioTextRecord.t :=
  AudioTextRecord.mk "a1b2c3d4e5f60718" "go back" "prev_slide"
    PrimFloat.nan "2024-05-01T10:00:03.000001" "google" "en" "default"
    9.25%float.

Definition empty_store : t := mk ∅ (Str []).

(** C7 as it is stated: a re-log under an id overwrites the entry of
    that id, whatever the record. *)
Definition C7_as_stated : Prop :=
  ∀ (to_json : AudioTextRecord.t → str) (self : t)
    (record record' : AudioTextRecord.t),
    AudioTextRecord.id record' = AudioTextRecord.id record →
    let logged := after self (log_text to_json self record) in
    let relogged := after logged (log_text to_json logged record') in
    is_Some (db logged !! AudioTextRecord.id record) →
    db relogged !! AudioTextRecord.id record = Some record'.

(** C10 as it is stated: every call adds a line to the JSONL file. *)
Definition C10_as_stated : Prop :=
  ∀ (to_json : AudioTextRecord.t → str) (self : t)
    (record : AudioTextRecord.t),
    (∀ record, 10%N ∉ cps (to_json record)) →
    line_count (jsonl (after self (log_text to_json self record)))
    = line_count (jsonl self) + 1.

End AdvancedTrainingDataLogger.

(* ===================================================================== *)
(** * [MultiLanguageDetector] *)
(* ===================================================================== *)

(** [s.startswith(p)] *)
Fixpoint cps_startswith (s p : list N) : bool :=
  match p, s with
  | [], _ => true
  | _ :: _, [] => false
  | y :: p', x :: s' => (x =? y)%N && cps_startswith s' p'
  end.

Definition startswith (s p : str) : bool := cps_startswith (cps s) (cps p).

(** [s[:n]] *)
Definition str_take (n : nat) (s : str) : str := Str (take n (cps s)).

Module MultiLanguageDetector.

(** What [detect] returns: [(Language, confidence_score)]. *)
Definition detection : Set := Language * float.

Record t : Type := mk {
  supported_languages : list Language;
  primary_language : Language;
  parallel : bool;
  max_workers : Z;
  stats : gmap str Z                (* [defaultdict(int)] *)
}.

(** [__init__(supported_languages, primary_language, parallel=True,
    max_workers=4)] *)
Definition init (supported_languages : list Language)
    (primary_language : Language) (parallel : bool) (max_workers : Z) : t :=
  mk supported_languages primary_language parallel max_workers ∅.

Definition with_stats (self : t) (stats : gmap str Z) : t :=
  mk (supported_languages self) (primary_language self) (parallel self)
     (max_workers self) stats.

Definition with_parallel (self : t) (parallel : bool) : t :=
  mk (supported_languages self) (primary_language self) parallel
     (max_workers self) (stats self).

(** How a call of [detect_batch] ends.  [ThreadPoolExecutor] raises
    [ValueError] when [max_workers <= 0]; [list(executor.map(...))]
    waits for every task, and has no value while one has not run. *)
Inductive outcome : Type :=
  | Returns (results : list detection)
  | Raises_ValueError
  | Waits.

(** Two detectors with the same configuration. *)
Definition same_config (a b : t) : Prop :=
  supported_languages a = supported_languages b ∧
  primary_language a = primary_language b.

Section Detector.

(** [langdetect.detect]; [None] stands for [LangDetectException]. *)
Variable langdetect : str → option str.

(** The characters [str.strip()] removes. *)
Variable isspace : N → bool.

Fixpoint lstrip (l : list N) : list N :=
  match l with
  | [] => []
  | c :: l' => if isspace c then lstrip l' else l
  end.

(** [text.strip()] *)
Definition strip (text : str) : str :=
  Str (reverse (lstrip (reverse (lstrip (cps text))))).

(** [detect(text)] *)
Definition detect (self : t) (text : str) : detection * t :=
  if bool_decide (cps text = []) || (str_len (strip text) <? 2)
  then ((primary_language self, 0.0%float), self)
  else
    match langdetect text with
    | Some detected =>
      (* Try to find matching language *)
      match List.find
              (λ lang, bool_decide (code (LANGUAGE_CONFIGS lang) = detected))
              (supported_languages self) with
      | Some lang =>
        let key := Language_value lang in
        ((lang, 0.95%float),
         with_stats self
           (<[key := default 0 (stats self !! key) + 1]> (stats self)))
      | None =>
        (* Fallback: try partial match *)
        match List.find
                (λ lang, startswith (code (LANGUAGE_CONFIGS lang))
                           (str_take 2 detected))
                (supported_languages self) with
        | Some lang => ((lang, 0.85%float), self)
        | None =>
          (* Final fallback *)
          ((primary_language self, 0.50%float), self)
        end
      end
    | None => ((primary_language self, 0.0%float), self)
    end.

End Detector.

Section Batch.

(** [langdetect.detect] at the call made for the i-th text of a batch.
    The library draws at random at each call unless it was seeded, which
    the source does not do: two calls on one text need not agree. *)
Variable langdetect : nat → str → option str.

Variable isspace : N → bool.

(** [[self.detect(t) for t in texts]], [texts] being the texts from the
    i-th on. *)
Fixpoint detect_each (self : t) (i : nat) (texts : list str)
  : list detection * t :=
  match texts with
  | [] => ([], self)
  | text :: texts' =>
    let '(r, self1) := detect (langdetect i) isspace self text in
    let '(rs, self2) := detect_each self1 (S i) texts' in
    (r :: rs, self2)
  end.

(** [executor.map(self.detect, texts)]: one task per text; the pool runs
    the tasks in some order, [schedule], each storing what it returns in
    the place of its text; the results are read in the order of the
    texts.  Whatever the number of workers, the order in which the tasks
    take effect is a permutation of their indices. *)
Definition run_task (texts : list str)
    (state : list (option detection) * t) (i : nat)
  : list (option detection) * t :=
  match texts !! i with
  | Some text =>
    let '(r, self') := detect (langdetect i) isspace state.2 text in
    (<[i := Some r]> state.1, self')
  | None => state
  end.

Definition executor_map (self : t) (texts : list str) (schedule : list nat)
  : list (option detection) * t :=
  foldl (run_task texts) (replicate (length texts) None, self) schedule.

(** [detect_batch(texts)] *)
Definition detect_batch (self : t) (texts : list str) (schedule : list nat)
  : outcome * t :=
  if negb (parallel self) then
    let '(rs, self') := detect_each self 0 texts in (Returns rs, self')
  else if max_workers self <=? 0 then (Raises_ValueError, self)
  else
    let '(futures, self') := executor_map self texts schedule in
    match mapM id futures with
    | Some results => (Returns results, self')
    | None => (Waits, self')
    end.

(** What a batch returns when every call is made: for each text what
    [detect] returns on it with the answer its call got. *)
Definition each_detected (self : t) (texts : list str) : list detection :=
  imap (λ i text, (detect (langdetect i) isspace self text).1) texts.

(** The pool: after the tasks of [schedule] have run, the place of a text
    holds what [detect] returns on it if its task has run, and is empty
    otherwise. *)
Definition pool_state (self0 : t) (texts : list str)
    (ran : list nat) (state : list (option detection) * t)
  : Prop :=
  same_config self0 state.2 ∧
  length state.1 = length texts ∧
  ∀ i text, texts !! i = Some text →
    state.1 !! i
    = Some (if bool_decide (i ∈ ran)
            then Some (detect (langdetect i) isspace self0 text).1
            else None).

End Batch.

(** ** A detector to run *)

(** A classifier and a whitespace table to run the detector with: three
    transcripts it knows, failure on anything else; the whitespace of
    ASCII. *)
Definition sample_langdetect (text : str) : option str :=
  if bool_decide (text = "next slide please") then Some "en"
  else if bool_decide (text = "siguiente diapositiva") then Some "es"
  else if bool_decide (text = "volgende dia") then Some "nl"
  else None.

Definition ascii_isspace (c : N) : bool :=
  bool_decide (c ∈ [9; 10; 11; 12; 13; 28; 29; 30; 31; 32]%N).

Definition sample_detector : t :=
  init [ENGLISH; SPANISH; FRENCH; GERMAN] ENGLISH true 4.

Definition sample_texts : list str :=
  ["siguiente diapositiva"; " x "; "next slide please"; "volgende dia"].

(** A seeded classifier: the same answer at every call. *)
Definition seeded_langdetect (i : nat) (text : str) : option str :=
  sample_langdetect text.

(** Two runs of an unseeded classifier, which take the short text "no"
    for Spanish in one and for English in the other. *)
Definition one_run (i : nat) (text : str) : option str :=
  if bool_decide (text = "no") then Some "es" else sample_langdetect text.

Definition another_run (i : nat) (text : str) : option str :=
  if bool_decide (text = "no") then Some "en" else sample_langdetect text.

(** C8 as it is stated: a sequential run and a pooled run return the
    same list, each with the answers the classifier gives it. *)
Definition C8_as_stated : Prop :=
  ∀ (langdetect langdetect' : nat → str → option str) (isspace : N → bool)
    (self : t) (texts : list str) (schedule : list nat),
    0 < max_workers self →
    schedule ≡ₚ seq 0 (length texts) →
    (detect_batch langdetect isspace (with_parallel self false) texts
       schedule).1
    = (detect_batch langdetect' isspace (with_parallel self true) texts
         schedule).1.

End MultiLanguageDetector.

(* ===================================================================== *)
(** * Regular expressions: the part of [re] the catalog uses *)
(* ===================================================================== *)

(** The patterns of the catalog are built from literal characters,
    [\s], [\d], the repetitions [*] and [+] of a single character or
    class, alternation, non-capturing groups [(?:...)] and capturing
    groups [(...)].  [compile] reads this syntax and refuses any other;
    [search] is the backtracking search of [re]: leftmost start, the
    alternatives in their order, the repetitions greedy.  Every pattern
    of the source is compiled with [re.IGNORECASE]. *)
Module re.

(** The character tables of [re] for [str] patterns: [\s], [\d], and
    which characters of a text a character of a pattern matches under
    [re.IGNORECASE].  They cover Unicode; a table of them is a parameter
    wherever a text is searched. *)
Record tables : Type := mkTables {
  space : N → bool;
  digit : N → bool;
  ignorecase : N → N → bool          (* pattern character, text character *)
}.

Inductive charset : Set :=
  | Lit (c : N)
  | Space
  | Digit.

Inductive regex : Set :=
  | Eps
  | Chr (a : charset)
  | Star (a : charset)
  | Plus (a : charset)
  | Seq (r1 r2 : regex)
  | Alt (r1 r2 : regex)
  | Group (n : nat) (r : regex).

(** ** The syntax *)

Definition chr (s : str) : N := hd 0%N (cps s).

Definition special (c : N) : bool :=
  bool_decide (c ∈ cps ".^$*+?{}[]\|()").

Definition quantifier (c : N) : bool := bool_decide (c ∈ cps "*+?{").

(** A repetition mark after a single character or class. *)
Definition repeat (a : charset) (s : list N) : option (regex * list N) :=
  match s with
  | c :: s' =>
    if (c =? chr "*")%N || (c =? chr "+")%N then
      match s' with
      | c' :: _ => if quantifier c' then None
                   else Some (if (c =? chr "*")%N then Star a else Plus a, s')
      | [] => Some (if (c =? chr "*")%N then Star a else Plus a, s')
      end
    else if quantifier c then None
    else Some (Chr a, s)
  | [] => Some (Chr a, s)
  end.

(** A group is not repeated in the syntax read here. *)
Definition close_group (r : regex) (s : list N) (g : nat)
  : option (regex * list N * nat) :=
  match s with
  | c :: s' =>
    if (c =? chr ")")%N then
      match s' with
      | c' :: _ => if quantifier c' then None else Some (r, s', g)
      | [] => Some (r, s', g)
      end
    else None
  | [] => None
  end.

(** [g] counts the capturing groups opened so far: a group is numbered
    by its opening parenthesis, from 1. *)
Fixpoint parse_alt (fuel : nat) (s : list N) (g : nat) {struct fuel}
  : option (regex * list N * nat) :=
  match fuel with
  | O => None
  | S fuel' =>
    match parse_seq fuel' s g with
    | Some (r1, s1, g1) =>
      match s1 with
      | c :: s2 =>
        if (c =? chr "|")%N then
          match parse_alt fuel' s2 g1 with
          | Some (r2, s3, g2) => Some (Alt r1 r2, s3, g2)
          | None => None
          end
        else Some (r1, s1, g1)
      | [] => Some (r1, s1, g1)
      end
    | None => None
    end
  end
with parse_seq (fuel : nat) (s : list N) (g : nat) {struct fuel}
  : option (regex * list N * nat) :=
  match fuel with
  | O => None
  | S fuel' =>
    match s with
    | [] => Some (Eps, s, g)
    | c :: _ =>
      if (c =? chr "|")%N || (c =? chr ")")%N then Some (Eps, s, g)
      else
        match parse_item fuel' s g with
        | Some (r1, s1, g1) =>
          match parse_seq fuel' s1 g1 with
          | Some (r2, s2, g2) => Some (Seq r1 r2, s2, g2)
          | None => None
          end
        | None => None
        end
    end
  end
with parse_item (fuel : nat) (s : list N) (g : nat) {struct fuel}
  : option (regex * list N * nat) :=
  match fuel with
  | O => None
  | S fuel' =>
    match s with
    | [] => None
    | c :: s1 =>
      if (c =? chr "(")%N then
        match s1 with
        | q :: s2 =>
          if (q =? chr "?")%N then
            match s2 with
            | k :: s3 =>
              if (k =? chr ":")%N then
                match parse_alt fuel' s3 g with
                | Some (r, s4, g1) => close_group r s4 g1
                | None => None
                end
              else None
            | [] => None
            end
          else
            match parse_alt fuel' s1 (S g) with
            | Some (r, s4, g1) => close_group (Group (S g) r) s4 g1
            | None => None
            end
        | [] => None
        end
      else if (c =? chr "\")%N then
        match s1 with
        | e :: s2 =>
          if (e =? chr "s")%N then
            match repeat Space s2 with
            | Some (r, s3) => Some (r, s3, g)
            | None => None
            end
          else if (e =? chr "d")%N then
            match repeat Digit s2 with
            | Some (r, s3) => Some (r, s3, g)
            | None => None
            end
          else None
        | [] => None
        end
      else if special c then None
      else
        match repeat (Lit c) s1 with
        | Some (r, s3) => Some (r, s3, g)
        | None => None
        end
    end
  end.

(** [re.compile(pattern, re.IGNORECASE)]; [None] stands for a pattern
    outside the syntax above. *)
Definition compile (pattern : str) : option regex :=
  match parse_alt (2 * length (cps pattern) + 4) (cps pattern) 0 with
  | Some (r, [], _) => Some r
  | _ => None
  end.

(** ** Matching *)

(** What the groups of a match hold: the number of a group and the text
    it matched, latest first. *)
Definition captures : Set := list (nat * list N).

(** [match.groups()[0]]: the first group, [None] when it took no part. *)
Definition group1 (caps : captures) : option str :=
  match List.find (λ e, Nat.eqb e.1 1) caps with
  | Some (_, matched) => Some (Str matched)
  | None => None
  end.

Section Matching.

Variable T : tables.

Definition test (a : charset) (c : N) : bool :=
  match a with
  | Lit p => ignorecase T p c
  | Space => space T c
  | Digit => digit T c
  end.

(** A greedy repetition: as many characters as the set takes, then
    one fewer each time what follows fails. *)
Fixpoint star {R : Type} (a : charset) (k : list N → option R) (s : list N)
  : option R :=
  match s with
  | c :: s' =>
    if test a c then
      match star a k s' with
      | Some r => Some r
      | None => k s
      end
    else k s
  | [] => k s
  end.

(** [matches r s caps k]: match [r] at the head of [s], then go on with
    [k] on the rest; [None] when no way of matching [r] lets [k]
    succeed. *)
Fixpoint matches (r : regex) (s : list N) (caps : captures)
    (k : list N → captures → option captures) : option captures :=
  match r with
  | Eps => k s caps
  | Chr a =>
    match s with
    | c :: s' => if test a c then k s' caps else None
    | [] => None
    end
  | Star a => star a (λ s', k s' caps) s
  | Plus a =>
    match s with
    | c :: s' => if test a c then star a (λ s', k s' caps) s' else None
    | [] => None
    end
  | Seq r1 r2 => matches r1 s caps (λ s1 caps1, matches r2 s1 caps1 k)
  | Alt r1 r2 =>
    match matches r1 s caps k with
    | Some m => Some m
    | None => matches r2 s caps k
    end
  | Group n r1 =>
    matches r1 s caps
      (λ s1 caps1, k s1 ((n, take (length s - length s1) s) :: caps1))
  end.

Definition match_here (r : regex) (s : list N) : option captures :=
  matches r s [] (λ _ caps, Some caps).

Fixpoint search_from (r : regex) (s : list N) : option captures :=
  match match_here r s with
  | Some m => Some m
  | None =>
    match s with
    | [] => None
    | _ :: s' => search_from r s'
    end
  end.

(** [pattern.search(text)]: the groups of the first match, or [None]. *)
Definition search (r : regex) (text : str) : option captures :=
  search_from r (cps text).

End Matching.

(** ** The tables on ASCII *)

(** On the code points below 128 the tables of [re] are these: the
    whitespace of [str.isspace], the digits 0 to 9, and letters matched
    without regard to case. *)
Definition ascii_lower (c : N) : N :=
  if (65 <=? c)%N && (c <=? 90)%N then (c + 32)%N else c.

Definition ascii_tables : tables :=
  mkTables
    (λ c, bool_decide (c ∈ [9; 10; 11; 12; 13; 28; 29; 30; 31; 32]%N))
    (λ c, (48 <=? c)%N && (c <=? 57)%N)
    (λ p c, (ascii_lower p =? ascii_lower c)%N).

(** Tables that are the tables of ASCII below 128. *)
Definition ascii_faithful (T : tables) : Prop :=
  ∀ c, (c < 128)%N →
    space T c = space ascii_tables c ∧
    digit T c = digit ascii_tables c ∧
    ∀ p, (p < 128)%N → ignorecase T p c = ignorecase ascii_tables p c.

Definition ascii_str (s : str) : bool := forallb (λ c, (c <? 128)%N) (cps s).

Definition ascii_charset (a : charset) : bool :=
  match a with
  | Lit p => (p <? 128)%N
  | _ => true
  end.

Fixpoint ascii_regex (r : regex) : bool :=
  match r with
  | Eps => true
  | Chr a | Star a | Plus a => ascii_charset a
  | Seq r1 r2 | Alt r1 r2 => ascii_regex r1 && ascii_regex r2
  | Group _ r1 => ascii_regex r1
  end.

(** ** The characters and classes of a pattern *)

Fixpoint charsets (r : regex) : list charset :=
  match r with
  | Eps => []
  | Chr a | Star a | Plus a => [a]
  | Seq r1 r2 | Alt r1 r2 => charsets r1 ++ charsets r2
  | Group _ r1 => charsets r1
  end.

(** The two tables say the same of every character of [s] against every
    character and class of [r]. *)
Definition agree (T T' : tables) (r : regex) (s : list N) : Prop :=
  ∀ a c, a ∈ charsets r → c ∈ s → test T a c = test T' a c.

(** ** Shapes of patterns *)

Fixpoint no_group (r : regex) : bool :=
  match r with
  | Eps | Chr _ | Star _ | Plus _ => true
  | Seq r1 r2 | Alt r1 r2 => no_group r1 && no_group r2
  | Group _ _ => false
  end.

(** A pattern that ends in [(\d+)], its only group. *)
Fixpoint ends_in_number (r : regex) : bool :=
  match r with
  | Seq (Group 1 (Seq (Plus Digit) Eps)) Eps => true
  | Seq r1 r2 => no_group r1 && ends_in_number r2
  | _ => false
  end.

End re.

(** [needle in haystack] *)
Fixpoint cps_contains (haystack needle : list N) : bool :=
  cps_startswith haystack needle ||
  match haystack with
  | [] => false
  | _ :: haystack' => cps_contains haystack' needle
  end.

Definition contains (haystack needle : str) : bool :=
  cps_contains (cps haystack) (cps needle).

(* ===================================================================== *)
(** * The catalog *)
(* ===================================================================== *)

(** An entry of [MULTILANG_COMMANDS]: the trigger patterns of each
    language, the key, and the fuzzy anchor. *)
Record CommandData : Set := mkCommandData {
  triggers : list (Language * list str);
  key : option str;
  fuzzy_target : option str
}.

Definition MULTILANG_COMMANDS : list (str * CommandData) :=
  [
  ("next_slide",
   mkCommandData
     [(ENGLISH,
       ["next"; "forward"; "advance"; "go right"; "next slide"]);
      (SPANISH,
       ["siguiente"; "adelante"; "próxima"; "ir a la derecha"]);
      (FRENCH,
       ["suivant"; "avancer"; "aller à droite"; "prochaine diapo"]);
      (GERMAN,
       ["nächst"; "vorwärts"; "nach rechts"; "nächste folie"]);
      (ITALIAN,
       ["prossimo"; "avanti"; "successivo"; "prossima diapositiva"]);
      (PORTUGUESE,
       ["próximo"; "avançar"; "seguinte"; "próximo slide"]);
      (CHINESE,
       ["下一张"; "下一个"; "向前"]);
      (JAPANESE,
       ["次へ"; "進む"; "次のスライド"])]
     (Some "right") (Some "next"));
  ("prev_slide",
   mkCommandData
     [(ENGLISH,
       ["previous"; "back"; "go back"; "return"; "last slide"]);
      (SPANISH,
       ["anterior"; "atrás"; "volver"; "diapositiva anterior"]);
      (FRENCH,
       ["précédent"; "retour"; "aller à gauche"; "diapo précédente"]);
      (GERMAN,
       ["zurück"; "vorherig"; "nach links"; "vorherige folie"]);
      (ITALIAN,
       ["precedente"; "indietro"; "tornare"; "diapositiva precedente"]);
      (PORTUGUESE,
       ["anterior"; "voltar"; "slide anterior"; "para trás"]);
      (CHINESE,
       ["上一张"; "上一个"; "向后"]);
      (JAPANESE,
       ["戻る"; "前へ"; "前のスライド"])]
     (Some "left") (Some "previous"));
  ("jump_slide",
   mkCommandData
     [(ENGLISH,
       ["(?:jump to|go to|slide|page)\s*(\d+)"; "number\s*(\d+)"]);
      (SPANISH,
       ["(?:salta a|ve a|diapositiva|página)\s*(\d+)"]);
      (FRENCH,
       ["(?:aller à|diapo)\s*(\d+)"; "numéro\s*(\d+)"]);
      (GERMAN,
       ["(?:gehe zu|folie|seite)\s*(\d+)"]);
      (ITALIAN,
       ["(?:vai a|diapositiva)\s*(\d+)"]);
      (PORTUGUESE,
       ["(?:ir para|slide|página)\s*(\d+)"]);
      (CHINESE,
       ["(?:跳到|转到|幻灯片)\s*(\d+)"]);
      (JAPANESE,
       ["(?:スライド|ページ)\s*(\d+)"])]
     None None);
  ("start_show",
   mkCommandData
     [(ENGLISH,
       ["start presentation"; "begin show"; "present now"]);
      (SPANISH,
       ["comenzar presentación"; "iniciar show"; "presentar ahora"]);
      (FRENCH,
       ["commencer présentation"; "débuter diaporama"]);
      (GERMAN,
       ["präsentation starten"; "show beginnen"]);
      (ITALIAN,
       ["inizia presentazione"; "avvia spettacolo"]);
      (PORTUGUESE,
       ["iniciar apresentação"; "começar show"]);
      (CHINESE,
       ["开始演示"; "开始放映"]);
      (JAPANESE,
       ["プレゼンテーション開始"; "スライドショー開始"])]
     (Some "f5") (Some "start"));
  ("end_show",
   mkCommandData
     [(ENGLISH,
       ["stop presentation"; "end show"; "exit show"; "close powerpoint"]);
      (SPANISH,
       ["detener presentación"; "finalizar show"; "cerrar powerpoint"]);
      (FRENCH,
       ["arrêter présentation"; "quitter diaporama"]);
      (GERMAN,
       ["präsentation beenden"; "show beenden"]);
      (ITALIAN,
       ["ferma presentazione"; "termina spettacolo"]);
      (PORTUGUESE,
       ["parar apresentação"; "sair do show"]);
      (CHINESE,
       ["停止演示"; "退出幻灯片"]);
      (JAPANESE,
       ["プレゼンテーション終了"; "スライドショー終了"])]
     (Some "esc") (Some "end"));
  ("blackout",
   mkCommandData
     [(ENGLISH,
       ["black screen"; "darken"; "turn off"]);
      (SPANISH,
       ["pantalla negra"; "oscurecer"; "apagar"]);
      (FRENCH,
       ["écran noir"; "assombrir"]);
      (GERMAN,
       ["schwarzer bildschirm"; "verdunkeln"]);
      (ITALIAN,
       ["schermo nero"; "scurire"]);
      (PORTUGUESE,
       ["tela preta"; "escurecer"]);
      (CHINESE,
       ["黑屏"; "关闭"]);
      (JAPANESE,
       ["黒い画面"; "暗くする"])]
     (Some "b") (Some "black"));
  ("zoom_in",
   mkCommandData
     [(ENGLISH,
       ["zoom in"; "magnify"; "enlarge"]);
      (SPANISH,
       ["zoom in"; "ampliar"; "agrandar"]);
      (FRENCH,
       ["zoom avant"; "agrandir"]);
      (GERMAN,
       ["zoom ein"; "vergrößern"]);
      (ITALIAN,
       ["zoom in"; "ingrandire"]);
      (PORTUGUESE,
       ["zoom in"; "ampliar"]);
      (CHINESE,
       ["放大"; "缩放"]);
      (JAPANESE,
       ["ズームイン"; "拡大"])]
     None (Some "zoom"));
  ("pen_tool",
   mkCommandData
     [(ENGLISH,
       ["pen tool"; "draw"; "annotation"]);
      (SPANISH,
       ["herramienta pluma"; "dibujar"]);
      (FRENCH,
       ["outil stylo"; "dessiner"]);
      (GERMAN,
       ["stiftwerkzeug"; "zeichnen"]);
      (ITALIAN,
       ["strumento penna"; "disegnare"]);
      (PORTUGUESE,
       ["ferramenta caneta"; "desenhar"]);
      (CHINESE,
       ["笔工具"; "绘制"]);
      (JAPANESE,
       ["ペンツール"; "描画"])]
     (Some "ctrl+p") (Some "pen"));
  ("exit_program",
   mkCommandData
     [(ENGLISH,
       ["terminate program"; "kill system"; "shutdown voice"]);
      (SPANISH,
       ["terminar programa"; "apagar sistema"]);
      (FRENCH,
       ["terminer programme"; "arrêter système"]);
      (GERMAN,
       ["programm beenden"; "system herunterfahren"]);
      (ITALIAN,
       ["termina programma"; "spegni sistema"]);
      (PORTUGUESE,
       ["encerrar programa"; "desligar sistema"]);
      (CHINESE,
       ["退出程序"; "关闭系统"]);
      (JAPANESE,
       ["プログラム終了"; "システム終了"])]
     None (Some "exit"))
  ].

(** [language in data] and [data[language]] *)
Definition triggers_of (data : CommandData) (language : Language)
  : option (list str) :=
  match List.find (λ e, bool_decide (e.1 = language)) (triggers data) with
  | Some (_, patterns) => Some patterns
  | None => None
  end.

(** [MULTILANG_COMMANDS[command]], when [command in MULTILANG_COMMANDS] *)
Definition command_data (command : str) : option CommandData :=
  match List.find (λ e, bool_decide (e.1 = command)) MULTILANG_COMMANDS with
  | Some (_, data) => Some data
  | None => None
  end.

(** [MultiLanguageDetector.get_patterns_for_language(language, command)] *)
Definition get_patterns_for_language (language : Language) (command : str)
  : list str :=
  match command_data command with
  | None => []
  | Some cmd_data =>
    match triggers_of cmd_data language with
    | Some patterns => patterns
    | None => []
    end
  end.

(** The members of [Language]. *)
Definition all_languages : list Language :=
  [ENGLISH; SPANISH; FRENCH; GERMAN; ITALIAN; PORTUGUESE; CHINESE; JAPANESE].

(** A parametric command: one of its patterns, in some language,
    captures a number, [(\d+)]. *)
Definition parametric (command : str) : bool :=
  existsb
    (λ lang, existsb (λ pattern, contains pattern "(\d+)")
               (get_patterns_for_language lang command))
    all_languages.

(* ===================================================================== *)
(** * [Config] *)
(* ===================================================================== *)

(** [Config], without [TRAINING_DATA_DIR]. *)
Record Config : Type := mkConfig {
  ENABLE_TRAINING : bool;
  LOG_CONFIDENCE_THRESHOLD : float;
  ENABLE_FALLBACK : bool;
  FALLBACK_CONFIDENCE : float;
  FUZZY_THRESHOLD : Z;
  PRIMARY_LANGUAGE : Language;
  AUTO_DETECT_LANGUAGE : bool;
  SUPPORTED_LANGUAGES : list Language;
  INPUT_BUFFER_SIZE : Z;
  INPUT_DEBOUNCE_MS : Z;
  RESPONSE_TIMEOUT_MS : Z;
  PARALLEL_DETECTION : bool;
  MAX_WORKERS : Z
}.

(** [Config()] *)
Definition default_config : Config :=
  mkConfig true 0.70%float true 0.80%float 80 ENGLISH true
    [ENGLISH; SPANISH; FRENCH; GERMAN] 10 50 500 true 4.

Definition with_fuzzy_threshold (config : Config) (threshold : Z) : Config :=
  mkConfig (ENABLE_TRAINING config) (LOG_CONFIDENCE_THRESHOLD config)
    (ENABLE_FALLBACK config) (FALLBACK_CONFIDENCE config) threshold
    (PRIMARY_LANGUAGE config) (AUTO_DETECT_LANGUAGE config)
    (SUPPORTED_LANGUAGES config) (INPUT_BUFFER_SIZE config)
    (INPUT_DEBOUNCE_MS config) (RESPONSE_TIMEOUT_MS config)
    (PARALLEL_DETECTION config) (MAX_WORKERS config).

(* ===================================================================== *)
(** * [PowerPointControllerV53]: the command matcher *)
(* ===================================================================== *)

Module PowerPointControllerV53.

(** An element of [self.patterns]. *)
Record CompiledPattern : Set := mkCompiledPattern {
  pattern_re : re.regex;
  cmd : str;
  language : Language;
  is_regex : bool
}.

(** What [match_command] returns: [(command, params, score, method)]. *)
Definition MatchResult : Set := option str * option str * Z * option str.

Record t : Type := mk {
  config : Config;
  patterns : list CompiledPattern
}.

(** The dictionaries [_compile_patterns] appends, before compilation:
    for each command of the catalog, for each supported language, for
    each pattern. *)
Definition pattern_entries (supported : list Language)
  : list (str * Language * str) :=
  flat_map
    (λ entry : str * CommandData,
       flat_map
         (λ lang, map (λ pattern, (entry.1, lang, pattern))
                    (get_patterns_for_language lang entry.1))
         supported)
    MULTILANG_COMMANDS.

Definition compile_entry (entry : str * Language * str)
  : option CompiledPattern :=
  let '(cmd, lang, pattern) := entry in
  match re.compile pattern with
  | Some r => Some (mkCompiledPattern r cmd lang (contains pattern "(\d+)"))
  | None => None
  end.

(** [_compile_patterns()]; [None] stands for a pattern [re.compile]
    does not take. *)
Definition _compile_patterns (config : Config) : option (list CompiledPattern) :=
  mapM compile_entry (pattern_entries (SUPPORTED_LANGUAGES config)).

(** [__init__(config)], as far as the matcher goes. *)
Definition init (config : Config) : option t :=
  match _compile_patterns config with
  | Some patterns => Some (mk config patterns)
  | None => None
  end.

Section Matcher.

Variable T : re.tables.

(** [fuzz.partial_ratio], of [thefuzz]. *)
Variable partial_ratio : str → str → Z.

(** 1. Language-specific regex match *)
Fixpoint regex_stage (patterns : list CompiledPattern) (text : str)
    (language : Language) : option MatchResult :=
  match patterns with
  | [] => None
  | p :: patterns' =>
    if negb (bool_decide (PowerPointControllerV53.language p = language))
    then regex_stage patterns' text language
    else
      match re.search T (pattern_re p) text with
      | Some m =>
        let params := if is_regex p then re.group1 m else None in
        Some (Some (cmd p), params, 100, Some "Regex")
      | None => regex_stage patterns' text language
      end
  end.

(** 2. Fuzzy match with language awareness: the loop over the catalog,
    from [(best_cmd, best_score)]. *)
Fixpoint fuzzy_stage (commands : list (str * CommandData)) (text : str)
    (language : Language) (best : option str * Z) : option str * Z :=
  match commands with
  | [] => best
  | (cmd, data) :: commands' =>
    match triggers_of data language with
    | None => fuzzy_stage commands' text language best
    | Some _ =>
      match fuzzy_target data with
      | None => fuzzy_stage commands' text language best
      | Some fuzzy_target =>
        if bool_decide (cps fuzzy_target = [])
        then fuzzy_stage commands' text language best
        else
          let score := partial_ratio fuzzy_target text in
          if best.2 <? score
          then fuzzy_stage commands' text language (Some cmd, score)
          else fuzzy_stage commands' text language best
      end
    end
  end.

(** What the regex stage returns on a pattern that matches. *)
Definition regex_result (p : CompiledPattern) (m : re.captures) : MatchResult :=
  (Some (cmd p), if is_regex p then re.group1 m else None, 100, Some "Regex").

(** [p] is the first pattern of [patterns], for [lang], that matches. *)
Definition first_match (patterns : list CompiledPattern) (text : str)
    (lang : Language) (p : CompiledPattern) (m : re.captures) : Prop :=
  ∃ before after,
    patterns = before ++ p :: after ∧
    (∀ q, q ∈ before → language q = lang →
          re.search T (pattern_re q) text = None) ∧
    language p = lang ∧
    re.search T (pattern_re p) text = Some m.

(** [match_command(text, language)] *)
Definition match_command (self : t) (text : str) (language : Language)
  : MatchResult :=
  match regex_stage (patterns self) text language with
  | Some result => result
  | None =>
    let '(best_cmd, best_score) :=
      fuzzy_stage MULTILANG_COMMANDS text language (None, 0) in
    if FUZZY_THRESHOLD (config self) <=? best_score
    then (best_cmd, None, best_score, Some "Fuzzy")
    else (None, None, 0, None)
  end.

End Matcher.

(** The commands the fuzzy stage scores for a language: those with
    triggers for it and a non-empty anchor. *)
Definition has_anchor (lang : Language) (entry : str * CommandData) : Prop :=
  is_Some (triggers_of entry.2 lang) ∧
  ∃ target, fuzzy_target entry.2 = Some target ∧ cps target ≠ [].

(** A property of every pattern the catalog gives for a language, once
    compiled. *)
Definition catalog_check (P : CompiledPattern → bool) (lang : Language) : bool :=
  forallb
    (λ entry : str * CommandData,
       forallb
         (λ pattern,
            match compile_entry (entry.1, lang, pattern) with
            | Some p => P p
            | None => false
            end)
         (get_patterns_for_language lang entry.1))
    MULTILANG_COMMANDS.

(** ** A controller, a scorer and a text to run the matcher on *)

(** The controller of the default configuration. *)
Definition default_controller : t :=
  default (mk default_config []) (init default_config).

(** A scorer to run the matcher with: 100 when the anchor occurs in the
    text, which is what [fuzz.partial_ratio] gives then, and 0 when it
    does not. *)
Definition occurs_ratio (anchor text : str) : Z :=
  if contains text anchor then 100 else 0.

Definition please_next : str := "can you please go to the next one".

(** C2 as it is stated, for given tables and a given scorer: at
    threshold 80 the text resolves to next_slide by the fuzzy stage, and
    at threshold 99 it is rejected. *)
Definition C2_as_stated (T : re.tables) (partial_ratio : str → str → Z) : Prop :=
  (∃ self score,
     init default_config = Some self ∧
     match_command T partial_ratio self please_next ENGLISH
       = (Some "next_slide", None, score, Some "Fuzzy")) ∧
  (∃ self,
     init (with_fuzzy_threshold default_config 99) = Some self ∧
     match_command T partial_ratio self please_next ENGLISH
       = (None, None, 0, None)).

End PowerPointControllerV53.

(* ===================================================================== *)
(** * More inputs to run the detector on *)
(* ===================================================================== *)

Module DetectorInputs.
Import MultiLanguageDetector.

(** A classifier that names a regional variant. *)
Definition regional_langdetect (text : str) : option str :=
  if bool_decide (text = "下一张幻灯片") then Some "zh-cn" else None.

Definition wide_detector : MultiLanguageDetector.t :=
  init [ENGLISH; SPANISH; CHINESE; JAPANESE] ENGLISH false 4.

End DetectorInputs.

(* ===================================================================== *)
(** * The fuzzy stage: what it scores *)
(* ===================================================================== *)

Module FuzzyScores.
Import PowerPointControllerV53.

(** The score the fuzzy stage gives an entry of the catalog for a
    language and a text: none when the entry has no triggers for the
    language or no anchor (or an empty one). *)
Definition anchor_score (partial_ratio : str → str → Z) (text : str)
    (language : Language) (entry : str * CommandData) : option Z :=
  match triggers_of entry.2 language, fuzzy_target entry.2 with
  | Some _, Some target =>
    if bool_decide (cps target = []) then None
    else Some (partial_ratio target text)
  | _, _ => None
  end.

(** What [match_command] returns when no pattern matches: the outcome
    of the fuzzy stage against the threshold. *)
Definition fuzzy_result (partial_ratio : str → str → Z) (threshold : Z)
    (text : str) (language : Language) : MatchResult :=
  let best := fuzzy_stage partial_ratio MULTILANG_COMMANDS text language (None, 0) in
  if threshold <=? best.2 then (best.1, None, best.2, Some "Fuzzy")
  else (None, None, 0, None).

(** The default controller with the fuzzy threshold at 0. *)
Definition lenient_controller : PowerPointControllerV53.t :=
  PowerPointControllerV53.mk (with_fuzzy_threshold default_config 0)
    (patterns default_controller).

End FuzzyScores.

(* ===================================================================== *)
(** * More of [AudioTextRecord] *)
(* ===================================================================== *)

Module AudioTextRecordDict.
Import AudioTextRecord.

(** The values a dictionary made from a record holds. *)
Inductive value : Set :=
  | Text (s : str)
  | Real (x : float).

(** [to_dict()], that is [asdict(self)]: one key per field. *)
Definition to_dict (self : AudioTextRecord.t) : gmap str value :=
  <["id" := Text (id self)]>
  (<["text" := Text (text self)]>
  (<["command_matched" := Text (command_matched self)]>
  (<["confidence" := Real (confidence self)]>
  (<["timestamp" := Text (timestamp self)]>
  (<["source" := Text (source self)]>
  (<["language" := Text (language self)]>
  (<["user_id" := Text (user_id self)]>
  (<["response_time_ms" := Real (response_time_ms self)]> ∅)))))))).

(** The fields of the dataclass; the last three have defaults. *)
Definition fields : list str :=
  ["id"; "text"; "command_matched"; "confidence"; "timestamp"; "source";
   "language"; "user_id"; "response_time_ms"].

Definition required : list str :=
  ["id"; "text"; "command_matched"; "confidence"; "timestamp"; "source"].

(** How [from_dict] ends.  The constructor of a dataclass raises
    [TypeError] on a keyword that is no field and on a missing field
    without default; it does not look at the types of the values, and an
    object whose fields are not of the declared types is not followed
    further here. *)
Inductive outcome : Set :=
  | Built (record : AudioTextRecord.t)
  | Built_untyped
  | Raises_TypeError.

Definition text_of (v : option value) (default : option str) : option str :=
  match v with
  | Some (Text s) => Some s
  | Some (Real _) => None
  | None => default
  end.

Definition real_of (v : option value) (default : option float) : option float :=
  match v with
  | Some (Real x) => Some x
  | Some (Text _) => None
  | None => default
  end.

(** [from_dict(data)], that is [AudioTextRecord( **data )]. *)
Definition from_dict (data : gmap str value) : outcome :=
  if bool_decide (dom data ⊆ (list_to_set fields : gset str)) &&
     forallb (λ k, bool_decide (is_Some (data !! k))) required
  then
    match text_of (data !! "id") None,
          text_of (data !! "text") None,
          text_of (data !! "command_matched") None,
          real_of (data !! "confidence") None,
          text_of (data !! "timestamp") None,
          text_of (data !! "source") None,
          text_of (data !! "language") (Some "en"),
          text_of (data !! "user_id") (Some "default"),
          real_of (data !! "response_time_ms") (Some 0.0%float) with
    | Some i, Some t, Some c, Some x, Some ts, Some s, Some l, Some u, Some r =>
      Built (AudioTextRecord.mk i t c x ts s l u r)
    | _, _, _, _, _, _, _, _, _ => Built_untyped
    end
  else Raises_TypeError.

(** [AudioTextRecord.create(text, command, confidence, language="en",
    source="google", user_id="default", response_time_ms=0.0)].  The id,
    sixteen hexadecimal digits of a SHA-256 over the text, the command
    and the clock, and the timestamp, [datetime.now().isoformat()], are
    given. *)
Definition create (record_id now_iso : str) (text command : str)
    (confidence : float) (language source user_id : str)
    (response_time_ms : float) : AudioTextRecord.t :=
  AudioTextRecord.mk record_id text command confidence now_iso source
    language user_id response_time_ms.

End AudioTextRecordDict.

(* ===================================================================== *)
(** * More of [AdvancedTrainingDataLogger] *)
(* ===================================================================== *)

Module TrainingExport.
Import AdvancedTrainingDataLogger.

(** The rows of the table with a given value in a column. *)
Definition rows_with (col : AudioTextRecord.t → str) (k : str)
    (rows : gmap str AudioTextRecord.t) : gmap str AudioTextRecord.t :=
  filter (λ kv, col kv.2 = k) rows.

(** An element of [training_examples]. *)
Record example : Set := mkExample {
  ex_text : str;
  ex_label : str;
  ex_confidence : float;
  ex_timestamp : str;
  ex_source : str;
  ex_language : str;
  ex_response_time_ms : float
}.

Record metadata : Set := mkMetadata {
  exported_at : str;
  total_examples : Z;
  confidence_threshold : float;
  version : str
}.

Record export_data : Set := mkExportData {
  export_metadata : metadata;
  training_examples : list example
}.

(** A row as the [SELECT] of the export lists it. *)
Definition example_of (row : AudioTextRecord.t) : example :=
  mkExample (AudioTextRecord.text row) (AudioTextRecord.command_matched row)
    (AudioTextRecord.confidence row) (AudioTextRecord.timestamp row)
    (AudioTextRecord.source row) (AudioTextRecord.language row)
    (AudioTextRecord.response_time_ms row).

(** [confidence >= ?] on two [REAL]s. *)
Definition confident (threshold : float) (row : AudioTextRecord.t) : bool :=
  PrimFloat.leb threshold (AudioTextRecord.confidence row).

(** [ORDER BY timestamp DESC]: texts compare by code point. *)
Definition timestamp_ge (a b : AudioTextRecord.t) : Prop :=
  str_compare (AudioTextRecord.timestamp a) (AudioTextRecord.timestamp b) ≠ Lt.

Global Instance timestamp_ge_dec : RelDecision timestamp_ge.
Proof. intros a b. unfold timestamp_ge. apply _. Defined.

(** [cursor.fetchall()] after the [SELECT ... WHERE confidence >= ?
    ORDER BY timestamp DESC] of the export: the rows that pass the test,
    sorted, latest timestamp first.  Which of two rows with the same
    timestamp comes first is SQLite's choice; here it is the choice of
    the sort, and nothing is proved of it. *)
Definition fetchall (rows : gmap str AudioTextRecord.t) (threshold : float)
  : list AudioTextRecord.t :=
  merge_sort timestamp_ge
    (filter (λ row, confident threshold row = true)
       (map snd (map_to_list rows))).

(** [export_training_set(output_path, threshold=0.80)], given
    [datetime.now().isoformat()]; the value returned, which is also what
    is written to [output_path]. *)
Definition export_training_set (self : t) (now_iso : str) (threshold : float)
  : export_data :=
  let training_examples := map example_of (fetchall (db self) threshold) in
  mkExportData
    (mkMetadata now_iso (Z.of_nat (length training_examples)) threshold "5.3")
    training_examples.

(** ** A store to export from *)

Definition low_log : AudioTextRecord.t :=
  AudioTextRecord.mk "00000000000000aa" "uh next maybe" "next_slide"
    0.5%float "2024-05-01T10:00:00.000001" "google" "en" "default" 8%float.

Definition mid_log : AudioTextRecord.t :=
  AudioTextRecord.mk "00000000000000bb" "go back" "prev_slide"
    0.8%float "2024-05-01T10:00:02.000001" "google" "en" "default" 9%float.

Definition high_log : AudioTextRecord.t :=
  AudioTextRecord.mk "00000000000000cc" "zoom avant" "zoom_in"
    0.9%float "2024-05-01T10:00:04.000001" "google" "fr" "default" 7%float.

Definition three_logs : AdvancedTrainingDataLogger.t :=
  log_each text_field_json empty_store [low_log; mid_log; high_log].

End TrainingExport.

(* ===================================================================== *)
(** * [OptimizedPyAutoGUIExecutor] *)
(* ===================================================================== *)

(** [s.split(sep)] for a separator of one character. *)
Fixpoint cps_split (sep : N) (l : list N) : list (list N) :=
  match l with
  | [] => [[]]
  | c :: l' =>
    if (c =? sep)%N then [] :: cps_split sep l'
    else
      match cps_split sep l' with
      | part :: parts => (c :: part) :: parts
      | [] => [[c]]
      end
  end.

Definition split (s sep : str) : list str :=
  map Str (cps_split (re.chr sep) (cps s)).

(** The world the executor acts on.  [pyautogui] and the clock
    [time.perf_counter] are outside the program: a call of [pyautogui]
    is recorded, and whether it raises is for the world to say; the
    clock is read one reading after the other. *)
Module World.

(** The calls of [pyautogui] the program makes. *)
Inductive action : Set :=
  | Press (key : str)                       (* [pyautogui.press(key)] *)
  | Hotkey (parts : list str)               (* [pyautogui.hotkey( *parts )] *)
  | Typewrite (text : str) (interval : float).
                                   (* [pyautogui.typewrite(text, interval)] *)

Record t : Set := mk {
  reads : nat;                 (* readings of [time.perf_counter()] taken *)
  sent : list action;          (* calls of [pyautogui] made, oldest first *)
  created : nat                (* records made by [AudioTextRecord.create] *)
}.

Definition start : t := mk 0 [] 0.

End World.

Module OptimizedPyAutoGUIExecutor.
Import World.

Record t : Type := mk {
  execution_queue : OptimizedInputBuffer.t;
  execution_times : list float;
  max_history : Z
}.

(** [__init__(logger)] *)
Definition init : t := mk (OptimizedInputBuffer.init 10 50) [] 100.

(** [_record_timing(elapsed_ms)] *)
Definition _record_timing (self : t) (elapsed_ms : float) : t :=
  let times := execution_times self ++ [elapsed_ms] in
  if max_history self <? Z.of_nat (length times)
  then mk (execution_queue self) (tail times) (max_history self)
  else mk (execution_queue self) times (max_history self).

Section Executor.

(** [time.perf_counter()], reading by reading. *)
Variable perf_counter : nat → float.

(** Whether a call of [pyautogui] raises: the world's answer to the
    n-th call. *)
Variable pyautogui_raises : nat → action → bool.

(** [(time.perf_counter() - start) * 1000] *)
Definition elapsed_ms (start stop : float) : float :=
  ((stop - start) * 1000)%float.

(** One call of [pyautogui] between two readings of the clock, as
    [execute_key] and [execute_text_input] make it: [(True, elapsed)]
    with the timing recorded, or [(False, 0.0)] when the call raised. *)
Definition timed_call (self : t) (w : World.t) (a : action)
  : (bool * float) * t * World.t :=
  let start := perf_counter (reads w) in
  let raised := pyautogui_raises (length (sent w)) a in
  let w1 := World.mk (S (reads w)) (sent w ++ [a]) (created w) in
  if raised then ((false, 0.0%float), self, w1)
  else
    let elapsed := elapsed_ms start (perf_counter (reads w1)) in
    ((true, elapsed), _record_timing self elapsed,
     World.mk (S (reads w1)) (sent w1) (created w1)).

(** No call of [actions] raises, the first of them being the n-th call
    of [pyautogui]. *)
Fixpoint none_raises (n : nat) (actions : list action) : bool :=
  match actions with
  | [] => true
  | a :: actions' => negb (pyautogui_raises n a) && none_raises (S n) actions'
  end.

(** The call [execute_key] makes for a key. *)
Definition key_action (key : str) : action :=
  if contains key "+" then Hotkey (split key "+") else Press key.

(** [execute_key(key, duration=0.05)] *)
Definition execute_key (self : t) (w : World.t) (key : str)
  : (bool * float) * t * World.t :=
  timed_call self w (key_action key).

(** [execute_text_input(text, interval=0.01)] *)
Definition execute_text_input (self : t) (w : World.t) (text : str)
    (interval : float) : (bool * float) * t * World.t :=
  timed_call self w (Typewrite text interval).

(** The loop of [execute_sequence].  [success] is the local variable of
    that name, [None] while nothing was assigned to it; the result is
    [None] when the loop raised ([if not success] on the unassigned
    variable). *)
Fixpoint sequence_loop (commands : list (str * str)) (success : option bool)
    (total_success : bool) (self : t) (w : World.t)
  : option bool * t * World.t :=
  match commands with
  | [] => (Some total_success, self, w)
  | (action_type, value) :: commands' =>
    let '(success', self', w') :=
      if bool_decide (action_type = "key") then
        let '(r, self', w') := execute_key self w value in
        (Some r.1, self', w')
      else if bool_decide (action_type = "text") then
        let '(r, self', w') := execute_text_input self w value 0.01%float in
        (Some r.1, self', w')
      else if bool_decide (action_type = "hotkey") then
        let '(r, self', w') := execute_key self w value in
        (Some r.1, self', w')
      else (success, self, w) in
    match success' with
    | None => (None, self', w')
    | Some ok =>
      sequence_loop commands' success' (if ok then total_success else false)
        self' w'
    end
  end.

(** [execute_sequence(commands)] *)
Definition execute_sequence (self : t) (w : World.t)
    (commands : list (str * str)) : (bool * float) * t * World.t :=
  let start := perf_counter (reads w) in
  let w0 := World.mk (S (reads w)) (sent w) (created w) in
  match sequence_loop commands None true self w0 with
  | (Some total_success, self', w') =>
    let elapsed := elapsed_ms start (perf_counter (reads w')) in
    ((total_success, elapsed), _record_timing self' elapsed,
     World.mk (S (reads w')) (sent w') (created w'))
  | (None, self', w') => ((false, 0.0%float), self', w')
  end.

End Executor.

(** The action types [execute_sequence] knows. *)
Definition known_type (command : str * str) : bool :=
  bool_decide (command.1 = "key") || bool_decide (command.1 = "text") ||
  bool_decide (command.1 = "hotkey").

(** The call of [pyautogui] a command of a known type leads to. *)
Definition command_action (command : str * str) : action :=
  if bool_decide (command.1 = "text") then Typewrite command.2 0.01%float
  else key_action command.2.

(** ** A world to run the executor in *)

(** A clock, in seconds, with the readings it gives one after the other,
    and a [pyautogui] whose second call raises. *)
Definition sample_clock (n : nat) : float :=
  nth n [10.0; 10.25; 10.5; 10.75; 11.0; 11.25; 11.5; 11.75; 12.0; 12.25;
         12.5; 12.75]%float 13.0%float.

Definition second_call_raises (n : nat) (a : action) : bool :=
  Nat.eqb n 1.

End OptimizedPyAutoGUIExecutor.

(* ===================================================================== *)
(** * [PowerPointControllerV53]: running a command *)
(* ===================================================================== *)

(** [bool(s)] of an [Optional[str]]. *)
Definition truthy (s : option str) : bool :=
  match s with
  | Some s => negb (bool_decide (cps s = []))
  | None => false
  end.

(** [Language(value)]; [None] stands for [ValueError]. *)
Definition Language_of_value (value : str) : option Language :=
  List.find (λ lang, bool_decide (Language_value lang = value)) all_languages.

Module ControllerRun.
Import World.

(** [self.stats] *)
Record counters : Type := mkCounters {
  total : Z;
  success : Z;
  fuzzy_rescues : Z;
  by_language : gmap str Z;         (* [defaultdict(int)] *)
  avg_response_time_ms : float
}.

(** The controller, as far as [execute] goes.  [training_logger] holds
    the table and the JSONL file of the logger. *)
Record t : Type := mk {
  matcher : PowerPointControllerV53.t;        (* [config] and [patterns] *)
  running : bool;
  training_logger : option AdvancedTrainingDataLogger.t;
  executor : OptimizedPyAutoGUIExecutor.t;
  stats : counters
}.

(** [__init__(config)], on the training data the directory holds. *)
Definition init (config : Config) (stored : AdvancedTrainingDataLogger.t)
  : option t :=
  match PowerPointControllerV53.init config with
  | Some matcher =>
    Some (mk matcher true
            (if ENABLE_TRAINING config then Some stored else None)
            OptimizedPyAutoGUIExecutor.init
            (mkCounters 0 0 0 ∅ 0.0%float))
  | None => None
  end.

Definition with_executor (self : t) (executor : OptimizedPyAutoGUIExecutor.t) : t :=
  mk (matcher self) (running self) (training_logger self) executor (stats self).

(** [_shutdown()]: the statistics it prints are read, not written. *)
Definition _shutdown (self : t) : t :=
  mk (matcher self) false (training_logger self) (executor self) (stats self).

(** [self.stats["total"] += 1] and [self.stats["by_language"][language] += 1] *)
Definition count_call (s : counters) (language : str) : counters :=
  mkCounters (total s + 1) (success s) (fuzzy_rescues s)
    (<[language := default 0 (by_language s !! language) + 1]> (by_language s))
    (avg_response_time_ms s).

(** [self.stats["success"] += 1], and [self.stats["fuzzy_rescues"] += 1]
    when the method is "Fuzzy". *)
Definition count_success (s : counters) (method : option str) : counters :=
  mkCounters (total s) (success s + 1)
    (if bool_decide (method = Some "Fuzzy") then fuzzy_rescues s + 1
     else fuzzy_rescues s)
    (by_language s) (avg_response_time_ms s).

Section Run.

Variable T : re.tables.
Variable partial_ratio : str → str → Z.
Variable perf_counter : nat → float.
Variable pyautogui_raises : nat → action → bool.
Variable to_json : AudioTextRecord.t → str.

(** The characters [str.isdigit()] accepts. *)
Variable isdigit : N → bool.

(** The id [AudioTextRecord.create] computes from the text, the command
    and [time.time()], and [datetime.datetime.now().isoformat()], at the
    n-th record made. *)
Variable record_id : str → str → nat → str.
Variable now_iso : nat → str.

(** [s.isdigit()] *)
Definition str_isdigit (s : str) : bool :=
  negb (bool_decide (cps s = [])) && forallb isdigit (cps s).

(** [_jump_to(slide_num)] *)
Definition _jump_to (executor : OptimizedPyAutoGUIExecutor.t) (w : World.t)
    (slide_num : option str)
  : (bool * float) * OptimizedPyAutoGUIExecutor.t * World.t :=
  match slide_num with
  | Some number =>
    if negb (truthy slide_num) || negb (str_isdigit number)
    then ((false, 0.0%float), executor, w)
    else
      let start := perf_counter (reads w) in
      let w0 := World.mk (S (reads w)) (sent w) (created w) in
      (* Type the slide number *)
      let '(_, executor1, w1) :=
        OptimizedPyAutoGUIExecutor.execute_text_input perf_counter
          pyautogui_raises executor w0 number 0.05%float in
      (* Press Enter to jump *)
      let '(r, executor2, w2) :=
        OptimizedPyAutoGUIExecutor.execute_key perf_counter pyautogui_raises
          executor1 w1 "enter" in
      let elapsed :=
        OptimizedPyAutoGUIExecutor.elapsed_ms start (perf_counter (reads w2)) in
      ((r.1, elapsed), executor2,
       World.mk (S (reads w2)) (sent w2) (created w2))
  | None => ((false, 0.0%float), executor, w)
  end.

(** The action map of [execute]: [(success, exec_time)] for a command. *)
Definition run_command (self : t) (w : World.t) (cmd : str)
    (params : option str) : (bool * float) * t * World.t :=
  let key k :=
    let '(r, executor', w') :=
      OptimizedPyAutoGUIExecutor.execute_key perf_counter pyautogui_raises
        (executor self) w k in
    (r, with_executor self executor', w') in
  if bool_decide (cmd = "next_slide") then key "right"
  else if bool_decide (cmd = "prev_slide") then key "left"
  else if bool_decide (cmd = "start_show") then key "f5"
  else if bool_decide (cmd = "end_show") then key "esc"
  else if bool_decide (cmd = "blackout") then key "b"
  else if bool_decide (cmd = "zoom_in") then key "ctrl+plus"
  else if bool_decide (cmd = "pen_tool") then key "ctrl+p"
  else if bool_decide (cmd = "jump_slide") then
    if truthy params && from_option str_isdigit false params
    then
      let '(r, executor', w') := _jump_to (executor self) w params in
      (r, with_executor self executor', w')
    else ((false, 0.0%float), self, w)
  else if bool_decide (cmd = "exit_program") then
    ((true, 0.0%float), _shutdown self, w)
  else ((false, 0.0%float), self, w).

(** [Language(language)], with [PRIMARY_LANGUAGE] on [ValueError]. *)
Definition parse_language (config : Config) (language : str) : Language :=
  match Language_of_value language with
  | Some lang => lang
  | None => PRIMARY_LANGUAGE config
  end.

(** The record [execute] logs. *)
Definition training_record (w : World.t) (text cmd : str)
    (confidence : float) (language source_type : str)
    (response_time_ms : float) : AudioTextRecord.t :=
  AudioTextRecordDict.create (record_id text cmd (created w))
    (now_iso (created w)) text cmd confidence language source_type "default"
    response_time_ms.

(** The logging step of [execute]: the logger and the world after it.
    The table and the file are taken to accept the record, so that
    [log_text] returns and leaves what [written] gives. *)
Definition log_match (self : t) (w : World.t) (text : str) (cmd : option str)
    (confidence : float) (source_type language : str)
    (response_time_ms : float)
  : option AdvancedTrainingDataLogger.t * World.t :=
  let config := PowerPointControllerV53.config (matcher self) in
  match training_logger self, cmd with
  | Some logger, Some matched =>
    if ENABLE_TRAINING config &&
       PrimFloat.leb (LOG_CONFIDENCE_THRESHOLD config) confidence &&
       truthy cmd
    then
      (Some (AdvancedTrainingDataLogger.written to_json logger
               (training_record w text matched confidence language
                  source_type response_time_ms)),
       World.mk (reads w) (sent w) (S (created w)))
    else (training_logger self, w)
  | _, _ => (training_logger self, w)
  end.

(** [execute(text, confidence, source_type, language)].  [print] and the
    logger's table and file are taken to accept what they are given. *)
Definition execute (self : t) (w : World.t) (text : str) (confidence : float)
    (source_type language : str) : t * World.t :=
  let config := PowerPointControllerV53.config (matcher self) in
  let start_time := perf_counter (reads w) in
  let w := World.mk (S (reads w)) (sent w) (created w) in
  (* Parse language *)
  let lang_enum := parse_language config language in
  let counted := count_call (stats self) language in
  (* Match command *)
  let '(cmd, params, score, method) :=
    PowerPointControllerV53.match_command T partial_ratio (matcher self)
      text lang_enum in
  let response_time_ms :=
    OptimizedPyAutoGUIExecutor.elapsed_ms start_time (perf_counter (reads w)) in
  let w := World.mk (S (reads w)) (sent w) (created w) in
  (* Log to training data *)
  let '(logger, w) :=
    log_match self w text cmd confidence source_type language
      response_time_ms in
  let self :=
    mk (matcher self) (running self) logger (executor self) counted in
  match cmd with
  | Some matched =>
    if truthy cmd then
      let '(r, self, w) := run_command self w matched params in
      if r.1 || bool_decide (matched = "exit_program")
      then
        (mk (matcher self) (running self) (training_logger self)
           (executor self) (count_success (stats self) method), w)
      else (self, w)
    else (self, w)
  | None => (self, w)
  end.

(** What [execute] gets from [match_command]. *)
Definition matched (self : t) (text language : str)
  : PowerPointControllerV53.MatchResult :=
  PowerPointControllerV53.match_command T partial_ratio (matcher self) text
    (parse_language (PowerPointControllerV53.config (matcher self)) language).

(** The controller and the world of [execute] when it has counted the
    call, matched the text and logged the match. *)
Definition matched_and_logged (self : t) (w : World.t) (text : str)
    (confidence : float) (source_type language : str) : t * World.t :=
  let logged :=
    log_match self (World.mk (S (S (reads w))) (sent w) (created w)) text
      (matched self text language).1.1.1 confidence source_type language
      (OptimizedPyAutoGUIExecutor.elapsed_ms (perf_counter (reads w))
         (perf_counter (S (reads w)))) in
  (mk (matcher self) (running self) logged.1 (executor self)
     (count_call (stats self) language),
   logged.2).

End Run.


(** ** A controller and a world to run commands in *)

(** [str.isdigit] on the ASCII digits. *)
Definition ascii_isdigit (c : N) : bool := (48 <=? c)%N && (c <=? 57)%N.

Definition sample_record_id (text cmd : str) (n : nat) : str :=
  str_app "id" (Str [(48 + N.of_nat n)%N]).

Definition sample_now_iso (n : nat) : str :=
  str_app "2024-05-01T10:00:0" (Str [(48 + N.of_nat n)%N]).

(** The controller of the default configuration, on an empty store. *)
Definition default_run : t :=
  mk PowerPointControllerV53.default_controller true
    (Some AdvancedTrainingDataLogger.empty_store)
    OptimizedPyAutoGUIExecutor.init (mkCounters 0 0 0 ∅ 0.0%float).

(** A [pyautogui] whose first call raises. *)
Definition first_call_raises (n : nat) (a : action) : bool := Nat.eqb n 0.


End ControllerRun.

(* ===================================================================== *)
(** * [MultiLanguageSpeechEngine] *)
(* ===================================================================== *)

Module MultiLanguageSpeechEngine.

(** [self.stats] *)
Record counters : Type := mkCounters {
  google_success : Z;
  language_detected : gmap str Z;           (* [defaultdict(int)] *)
  failed : Z;
  total : Z
}.

Record t : Type := mk {
  training_logger : option AdvancedTrainingDataLogger.t;
  lang_detector : option MultiLanguageDetector.t;
  config : Config;
  stats : counters
}.

(** [__init__(logger, training_logger=None, lang_detector=None,
    config=None)] *)
Definition init (training_logger : option AdvancedTrainingDataLogger.t)
    (lang_detector : option MultiLanguageDetector.t) (config : option Config)
  : t :=
  mk training_logger lang_detector (default default_config config)
    (mkCounters 0 ∅ 0 0).

(** What [recognize_google] does with an audio: the text it heard, or
    one of the two errors [recognize] catches. *)
Inductive answer : Set :=
  | Heard (text : str)
  | UnknownValueError
  | RequestError.

(** What [recognize] returns:
    [(text, confidence, source, detected_language)]. *)
Definition recognition : Set := option str * float * str * str.

(** The sum of the counts of [language_detected]. *)
Definition detections (s : counters) : Z :=
  map_fold (λ _ n acc, n + acc) 0 (language_detected s).

(** A state of the counters in which every call is either a success or a
    failure, and every success has its language. *)
Definition consistent (s : counters) : Prop :=
  total s = google_success s + failed s ∧ detections s = google_success s.

Section Engine.

Variable langdetect : str → option str.
Variable isspace : N → bool.

(** [str.lower()] *)
Variable lower : str → str.

(** [self.stats['language_detected'][value] += 1] *)
Definition count_language (detected : gmap str Z) (value : str) : gmap str Z :=
  <[value := default 0 (detected !! value) + 1]> detected.

(** [recognize(audio, language=Language.ENGLISH)].  The audio is what
    [recognize_google] answers for it, given the speech language. *)
Definition recognize (self : t) (audio : str → answer) (language : Language)
  : recognition * t :=
  let total' := total (stats self) + 1 in
  let lang_config := LANGUAGE_CONFIGS language in
  match audio (speech_language lang_config) with
  | Heard heard =>
    let text := lower heard in
    let google_success' := google_success (stats self) + 1 in
    (* Auto-detect language if enabled *)
    match (if AUTO_DETECT_LANGUAGE (config self) then lang_detector self
           else None) with
    | Some detector =>
      let '((detected_lang, confidence), detector') :=
        MultiLanguageDetector.detect langdetect isspace detector text in
      ((Some text, 0.95%float, "google", Language_value detected_lang),
       mk (training_logger self) (Some detector') (config self)
          (mkCounters google_success'
             (count_language (language_detected (stats self))
                (Language_value detected_lang))
             (failed (stats self)) total'))
    | None =>
      ((Some text, 0.95%float, "google", Language_value language),
       mk (training_logger self) (lang_detector self) (config self)
          (mkCounters google_success'
             (count_language (language_detected (stats self))
                (Language_value language))
             (failed (stats self)) total'))
    end
  | UnknownValueError | RequestError =>
    ((None, 0.0%float, "failed", Language_value language),
     mk (training_logger self) (lang_detector self) (config self)
        (mkCounters (google_success (stats self))
           (language_detected (stats self)) (failed (stats self) + 1) total'))
  end.

End Engine.

(** ** An engine and an audio to run it on *)

(** An audio in which "Next slide PLEASE" is heard when listened to as
    US English, and nothing otherwise. *)
Definition english_audio (speech_language : str) : answer :=
  if bool_decide (speech_language = "en-US") then Heard "Next slide PLEASE"
  else UnknownValueError.

(** [str.lower] on ASCII. *)
Definition ascii_str_lower (s : str) : str := Str (map re.ascii_lower (cps s)).

Definition sample_engine : t :=
  init None (Some MultiLanguageDetector.sample_detector) None.

End MultiLanguageSpeechEngine.

(* ===================================================================== *)
(** * Facts: ordering of strings *)
(* ===================================================================== *)

Lemma cps_compare_refl a : cps_compare a a = Eq.
Proof. induction a as [|x a IH]; simpl; [done|]. by rewrite N.compare_refl. Qed.

Lemma cps_compare_eq a b : cps_compare a b = Eq → a = b.
Proof.
  revert b; induction a as [|x a IH]; intros [|y b]; simpl; try done.
  destruct (x ?= y)%N eqn:E; try done.
  apply N.compare_eq in E. intros H%IH. by subst.
Qed.

Lemma cps_compare_antisym a b : cps_compare b a = CompOpp (cps_compare a b).
Proof.
  revert b; induction a as [|x a IH]; intros [|y b]; simpl; try done.
  rewrite (N.compare_antisym x y). destruct (x ?= y)%N; simpl; auto.
Qed.

Lemma cps_compare_trans a b c :
  cps_compare a b ≠ Gt → cps_compare b c ≠ Gt → cps_compare a c ≠ Gt.
Proof.
  revert b c; induction a as [|x a IH]; intros [|y b] [|z c]; simpl; try done.
  intros H1 H2.
  destruct (N.compare_spec x y) as [->|Hxy|Hxy]; [| |done].
  - destruct (N.compare_spec y z) as [->|Hyz|Hyz]; [| |done]; [eauto|done].
  - destruct (N.compare_spec y z) as [->|Hyz|Hyz]; [| |done].
    + by destruct (N.compare_spec x z) as [->|?|?]; [lia| |lia].
    + by destruct (N.compare_spec x z) as [->|?|?]; [lia| |lia].
Qed.

(* ===================================================================== *)
(** * Facts: the order of binary64 numbers *)
(* ===================================================================== *)

Module FloatFacts.

Lemma SFcompare_opp x y c :
  SFcompare x y = Some c → SFcompare y x = Some (CompOpp c).
Proof.
  destruct x as [sx|sx| |sx mx ex], y as [sy|sy| |sy my ey]; simpl;
    try destruct sx; try destruct sy; simpl; intros [= <-]; try done.
  - rewrite (Z.compare_antisym ex ey).
    destruct (ex ?= ey)%Z; simpl; try done.
    rewrite !Pos.compare_cont_spec. simpl.
    rewrite (Pos.compare_antisym mx my). by destruct (mx ?= my)%positive.
  - rewrite (Z.compare_antisym ex ey).
    destruct (ex ?= ey)%Z; simpl; try done.
    rewrite !Pos.compare_cont_spec. simpl.
    rewrite (Pos.compare_antisym mx my). by destruct (mx ?= my)%positive.
Qed.

Lemma SFcompare_trans x y z c1 c2 :
  SFcompare x y = Some c1 → SFcompare y z = Some c2 →
  c1 ≠ Gt → c2 ≠ Gt →
  SFcompare x z = Some (match c1 with Eq => c2 | _ => Lt end).
Proof.
  destruct x as [sx|sx| |sx mx ex], y as [sy|sy| |sy my ey],
    z as [sz|sz| |sz mz ez]; simpl;
    try destruct sx; try destruct sy; try destruct sz; simpl;
    intros [= <-] [= <-]; try done;
    rewrite ?Pos.compare_cont_spec; simpl;
    repeat match goal with
    | |- context [(?a ?= ?b)%Z] => destruct (Z.compare_spec a b)
    | |- context [(?a ?= ?b)%positive] => destruct (Pos.compare_spec a b)
    end; simpl; try done; try lia.
Qed.

(** Two numbers compare. *)
Lemma number_compare x y :
  PrimFloat.is_nan x = false → PrimFloat.is_nan y = false →
  ∃ c, SFcompare (Prim2SF x) (Prim2SF y) = Some c.
Proof.
  unfold PrimFloat.is_nan. rewrite !eqb_spec. unfold SFeqb.
  destruct (Prim2SF x) as [sx|sx| |sx mx ex], (Prim2SF y) as [sy|sy| |sy my ey];
    simpl; try done; intros _ _; by eexists.
Qed.

(** The three tests of two readings, by how they compare. *)
Lemma reading_tests (a b : reading) :
  ∃ c,
    (seconds a <? seconds b)%float = bool_decide (c = Lt) ∧
    (seconds a =? seconds b)%float = bool_decide (c = Eq) ∧
    (seconds a <=? seconds b)%float = bool_decide (c ≠ Gt) ∧
    (seconds b <? seconds a)%float = bool_decide (c = Gt) ∧
    (seconds b =? seconds a)%float = bool_decide (c = Eq) ∧
    (seconds b <=? seconds a)%float = bool_decide (c ≠ Lt) ∧
    SFcompare (Prim2SF (seconds a)) (Prim2SF (seconds b)) = Some c.
Proof.
  destruct (number_compare _ _ (seconds_number a) (seconds_number b))
    as [c Hc].
  exists c. rewrite !ltb_spec, !eqb_spec, !leb_spec.
  unfold SFltb, SFeqb, SFleb. rewrite (SFcompare_opp _ _ _ Hc), Hc.
  by destruct c.
Qed.

End FloatFacts.

(* ===================================================================== *)
(** * Facts: the priority queue *)
(* ===================================================================== *)

Module PriorityQueueFacts.
Import PriorityQueue FloatFacts.

Lemma item_le_iff x y :
  item_le x y = true ↔
  priority_of x < priority_of y ∨
  (priority_of x = priority_of y ∧
   ((seconds (arrival_of x) <? seconds (arrival_of y))%float = true ∨
    ((seconds (arrival_of x) =? seconds (arrival_of y))%float = true ∧
     str_compare (command_of x) (command_of y) ≠ Gt))).
Proof.
  unfold item_le, item_lt.
  destruct (reading_tests (arrival_of x) (arrival_of y))
    as (c & -> & -> & _ & -> & -> & _ & _).
  unfold str_compare. rewrite (cps_compare_antisym (cps (command_of x))).
  destruct (Z.eqb_spec (priority_of y) (priority_of x)) as [Hp|Hp]; simpl.
  - destruct c; simpl.
    + destruct (cps_compare (cps (command_of x)) (cps (command_of y)));
        simpl; split; try done; try (intros _; right; split; [done|]; right; done);
        intros [?|[_ [?|[_ ?]]]]; try lia; done.
    + split; [|done]. intros _. right. split; [done|]. by left.
    + split; [done|]. intros [?|[_ [?|[? _]]]]; try lia; done.
  - destruct (Z.ltb_spec (priority_of y) (priority_of x)); simpl.
    + split; [done|]. intros [?|[? _]]; lia.
    + split; [|done]. intros _. left. lia.
Qed.

Lemma item_le_refl x : item_le x x = true.
Proof.
  apply item_le_iff. right. split; [done|]. right.
  destruct (reading_tests (arrival_of x) (arrival_of x))
    as (c & Hlt & -> & _ & Hgt & _ & _ & _).
  rewrite Hlt in Hgt. unfold str_compare. rewrite cps_compare_refl.
  by destruct c.
Qed.

Lemma item_le_total x y : item_le x y = false → item_le y x = true.
Proof.
  unfold item_le. intros H. apply negb_false_iff in H.
  apply negb_true_iff. revert H. unfold item_lt.
  destruct (reading_tests (arrival_of x) (arrival_of y))
    as (c & -> & -> & _ & -> & -> & _ & _).
  unfold str_compare. rewrite (cps_compare_antisym (cps (command_of x))).
  destruct (Z.eqb_spec (priority_of y) (priority_of x)) as [Hp|Hp];
    [rewrite Hp, Z.eqb_refl|
     rewrite (proj2 (Z.eqb_neq _ _)) by congruence]; simpl.
  - destruct c; simpl; try done.
    by destruct (cps_compare (cps (command_of x)) (cps (command_of y))).
  - destruct (Z.ltb_spec (priority_of y) (priority_of x)); [|done].
    intros _. apply Z.ltb_ge. lia.
Qed.

Lemma item_le_trans x y z :
  item_le x y = true → item_le y z = true → item_le x z = true.
Proof.
  rewrite !item_le_iff. unfold str_compare.
  destruct (reading_tests (arrival_of x) (arrival_of y))
    as (c1 & -> & -> & _ & _ & _ & _ & H1).
  destruct (reading_tests (arrival_of y) (arrival_of z))
    as (c2 & -> & -> & _ & _ & _ & _ & H2).
  destruct (reading_tests (arrival_of x) (arrival_of z))
    as (c3 & -> & -> & _ & _ & _ & _ & H3).
  intros [?|[? Hxy]] [?|[? Hyz]]; try (left; lia).
  right. split; [lia|].
  assert (c1 ≠ Gt) as Hc1.
  { destruct Hxy as [Hxy|[Hxy _]]; apply bool_decide_eq_true in Hxy;
      by subst. }
  assert (c2 ≠ Gt) as Hc2.
  { destruct Hyz as [Hyz|[Hyz _]]; apply bool_decide_eq_true in Hyz;
      by subst. }
  pose proof (SFcompare_trans _ _ _ _ _ H1 H2 Hc1 Hc2) as Ht.
  rewrite H3 in Ht. injection Ht as ->.
  destruct c1; [|by left|done].
  destruct c2; [|by left|done].
  right. split; [done|].
  destruct Hxy as [Hxy|[_ Hxy]]; [by apply bool_decide_eq_true in Hxy|].
  destruct Hyz as [Hyz|[_ Hyz]]; [by apply bool_decide_eq_true in Hyz|].
  by eapply cps_compare_trans.
Qed.

Lemma pop_min_nil l : pop_min l = None ↔ l = [].
Proof.
  destruct l as [|x l]; simpl; [done|].
  split; [|done]. destruct (pop_min l) as [[y r]|]; [|done].
  by destruct (item_le x y).
Qed.

Lemma pop_min_length l x r : pop_min l = Some (x, r) → length l = S (length r).
Proof.
  revert x r; induction l as [|a l IH]; intros x r; simpl; [done|].
  destruct (pop_min l) as [[y r']|] eqn:E.
  - specialize (IH _ _ eq_refl).
    destruct (item_le a y); intros [= <- <-]; simpl; lia.
  - apply pop_min_nil in E as ->. by intros [= <- <-].
Qed.

Lemma pop_min_perm l x r : pop_min l = Some (x, r) → l ≡ₚ x :: r.
Proof.
  revert x r; induction l as [|a l IH]; intros x r; simpl; [done|].
  destruct (pop_min l) as [[y r']|] eqn:E.
  - specialize (IH _ _ eq_refl).
    destruct (item_le a y); intros [= <- <-]; [done|].
    rewrite IH. apply Permutation_swap.
  - apply pop_min_nil in E as ->. by intros [= <- <-].
Qed.

(** [pop_min] returns an entry that no stored entry is smaller than. *)
Lemma pop_min_least l x r :
  pop_min l = Some (x, r) → ∀ y, y ∈ l → item_le x y = true.
Proof.
  revert x r; induction l as [|a l IH]; intros x r; simpl; [done|].
  destruct (pop_min l) as [[m r']|] eqn:E.
  - specialize (IH _ _ eq_refl).
    destruct (item_le a m) eqn:Ham; intros [= <- <-] y Hy;
      apply elem_of_cons in Hy as [->|Hy].
    + apply item_le_refl.
    + eapply item_le_trans; [exact Ham|]. by apply IH.
    + by apply item_le_total.
    + by apply IH.
  - apply pop_min_nil in E as ->. intros [= <- <-] y Hy.
    apply elem_of_cons in Hy as [->|Hy]; [apply item_le_refl|].
    by apply elem_of_nil in Hy.
Qed.

Lemma get_nowait_None q : get_nowait q = None ↔ items q = [].
Proof.
  unfold get_nowait. rewrite <- pop_min_nil.
  by destruct (pop_min (items q)) as [[??]|].
Qed.

Lemma get_nowait_Some q x q' :
  get_nowait q = Some (x, q') →
  maxsize q' = maxsize q ∧ pop_min (items q) = Some (x, items q').
Proof.
  unfold get_nowait. destruct (pop_min (items q)) as [[y r]|]; [|done].
  by intros [= <- <-].
Qed.

Lemma put_nowait_Some q x q' :
  put_nowait q x = Some q' →
  full q = false ∧ maxsize q' = maxsize q ∧ items q' = items q ++ [x].
Proof. unfold put_nowait. destruct (full q); [done|]. by intros [= <-]. Qed.

End PriorityQueueFacts.

(* ===================================================================== *)
(** * Facts: the input buffer *)
(* ===================================================================== *)

Module InputBufferFacts.
Import PriorityQueue PriorityQueueFacts OptimizedInputBuffer.

Lemma full_false_lt q : full q = false → 0 < maxsize q → qsize q < maxsize q.
Proof. unfold full. intros H ?. apply andb_false_iff in H as [?|?]; lia. Qed.

Lemma full_true q : full q = true → 0 < maxsize q ∧ maxsize q ≤ qsize q.
Proof. unfold full. intros H. apply andb_true_iff in H as [??]. lia. Qed.

Lemma qsize_put q x q' : put_nowait q x = Some q' → qsize q' = qsize q + 1.
Proof.
  intros (_ & _ & Hi)%put_nowait_Some. unfold qsize.
  rewrite Hi, length_app. simpl. lia.
Qed.

Lemma qsize_get q x q' : get_nowait q = Some (x, q') → qsize q = qsize q' + 1.
Proof.
  intros (_ & Hp)%get_nowait_Some. apply pop_min_length in Hp.
  unfold qsize. lia.
Qed.

Lemma add_input_bounded b command priority now now' :
  bounded b → bounded (add_input b command priority now now').2.
Proof.
  intros [Hm Hs]. unfold add_input.
  destruct (put_nowait (queue b) _) as [q|] eqn:Hput; simpl.
  - pose proof (qsize_put _ _ _ Hput) as Hq.
    apply put_nowait_Some in Hput as (Hf & Hm' & _).
    split; simpl; [congruence|]. intros Hpos.
    pose proof (full_false_lt _ Hf). lia.
  - destruct (get_nowait (queue b)) as [[x q1]|] eqn:Hget; simpl; [|done].
    pose proof (qsize_get _ _ _ Hget) as Hq1.
    apply get_nowait_Some in Hget as (Hm1 & _).
    destruct (put_nowait q1 _) as [q2|] eqn:Hput2; simpl.
    + pose proof (qsize_put _ _ _ Hput2) as Hq2.
      apply put_nowait_Some in Hput2 as (_ & Hm2 & _).
      split; simpl; [congruence|]. intros Hpos. specialize (Hs Hpos). lia.
    + split; simpl; [congruence|]. intros Hpos. specialize (Hs Hpos). lia.
Qed.

Lemma get_next_bounded b now : bounded b → bounded (get_next b now).2.
Proof.
  intros [Hm Hs]. unfold get_next.
  destruct (gate_closed b now); [done|].
  destruct (get_nowait (queue b)) as [[[[p a] c] q]|] eqn:Hget; [|done].
  pose proof (qsize_get _ _ _ Hget) as Hq.
  apply get_nowait_Some in Hget as (Hm1 & _).
  split; simpl; [congruence|]. intros Hpos. specialize (Hs Hpos). lia.
Qed.

Lemma flush_loop_spec fuel q :
  (length (items q) ≤ fuel)%nat → items (flush_loop fuel q) = [].
Proof.
  revert q; induction fuel as [|fuel IH]; intros q H; simpl.
  - destruct (items q); [done|simpl in H; lia].
  - unfold empty. destruct (items q) as [|x0 l0] eqn:He; [done|].
    rewrite <- He in *.
    destruct (get_nowait q) as [[x q']|] eqn:Hget.
    + apply IH. apply get_nowait_Some in Hget as (_ & Hp).
      apply pop_min_length in Hp. lia.
    + apply get_nowait_None in Hget. congruence.
Qed.

Lemma flush_loop_maxsize fuel q : maxsize (flush_loop fuel q) = maxsize q.
Proof.
  revert q; induction fuel as [|fuel IH]; intros q; simpl; [done|].
  destruct (empty q); [done|].
  destruct (get_nowait q) as [[x q']|] eqn:Hget; [|done].
  rewrite IH. by apply get_nowait_Some in Hget as (? & _).
Qed.

Lemma flush_loop_qsize fuel q : qsize (flush_loop fuel q) ≤ qsize q.
Proof.
  revert q; induction fuel as [|fuel IH]; intros q; simpl; [done|].
  destruct (empty q); [done|].
  destruct (get_nowait q) as [[x q']|] eqn:Hget; [|done].
  specialize (IH q'). apply qsize_get in Hget. lia.
Qed.

(** [flush] leaves the queue empty: the loop is run to its end. *)
Lemma flush_empties b : items (queue (flush b)) = [].
Proof. unfold flush. simpl. by apply flush_loop_spec. Qed.

Lemma flush_bounded b : bounded b → bounded (flush b).
Proof.
  intros [Hm Hs]. unfold flush, bounded. simpl.
  rewrite flush_loop_maxsize. split; [done|]. intros Hpos.
  pose proof (flush_loop_qsize (length (items (queue b))) (queue b)).
  specialize (Hs Hpos). lia.
Qed.

Lemma exec_bounded b c : bounded b → bounded (exec b c).
Proof.
  destruct c; simpl;
    auto using add_input_bounded, get_next_bounded, flush_bounded.
Qed.

Lemma reachable_bounded buffer_size debounce_ms b :
  reachable buffer_size debounce_ms b → bounded b.
Proof.
  induction 1 as [|b c _ IH]; [|by apply exec_bounded].
  split; simpl; [done|]. unfold qsize. simpl. lia.
Qed.

Lemma reachable_buffer_size buffer_size debounce_ms b :
  reachable buffer_size debounce_ms b →
  OptimizedInputBuffer.buffer_size b = buffer_size ∧
  OptimizedInputBuffer.debounce_ms b = (debounce_ms / 1000)%float.
Proof.
  induction 1 as [|b c _ IH]; [done|].
  destruct c as [command priority now now'|now|]; simpl; [| |done].
  - unfold add_input.
    destruct (put_nowait _ _); [done|].
    destruct (get_nowait _) as [[? q1]|]; [|done].
    by destruct (put_nowait q1 _).
  - unfold get_next. destruct (gate_closed b now); [done|].
    by destruct (get_nowait _) as [[[[??]?]?]|].
Qed.

(** On a full queue [add_input] removes the entry [pop_min] selects, a
    least one, and puts its own, stamped with the second clock reading. *)
Lemma add_input_full_evicts_least b command priority now now' :
  bounded b → full (queue b) = true →
  ∃ x r,
    pop_min (items (queue b)) = Some (x, r) ∧
    (∀ y, y ∈ items (queue b) → item_le x y = true) ∧
    add_input b command priority now now'
      = (Return true,
         with_queue b
           (PriorityQueue.mk (maxsize (queue b))
              (r ++ [(priority, now', command)]))).
Proof.
  intros [Hm Hb] Hfull. pose proof (full_true _ Hfull) as [Hpos Hge].
  unfold add_input, put_nowait. rewrite Hfull. unfold get_nowait.
  destruct (pop_min (items (queue b))) as [[x r]|] eqn:Hp.
  - exists x, r. split; [done|]. split; [by eapply pop_min_least|].
    apply pop_min_length in Hp. unfold full, qsize in *. simpl.
    destruct (Z.leb_spec (maxsize (queue b)) (Z.of_nat (length r))); [lia|].
    by rewrite andb_false_r.
  - apply pop_min_nil in Hp. unfold qsize in Hge. rewrite Hp in Hge.
    simpl in Hge. lia.
Qed.

Lemma get_next_closed b now :
  gate_closed b now = true → get_next b now = (None, b).
Proof. unfold get_next. by intros ->. Qed.

(** With the gate open and an entry stored, [get_next] removes the entry
    that [pop_min] selects, returns its command and sets the gate clock. *)
Lemma get_next_open b now :
  gate_open b now → items (queue b) ≠ [] →
  ∃ x r, pop_min (items (queue b)) = Some (x, r) ∧
         get_next b now =
           (Some (command_of x),
            OptimizedInputBuffer.mk (buffer_size b) (debounce_ms b)
              (PriorityQueue.mk (maxsize (queue b)) r) (seconds now)).
Proof.
  unfold gate_open, get_next. intros -> Hne.
  unfold get_nowait.
  destruct (pop_min (items (queue b))) as [[[[p a] c] r]|] eqn:Hp.
  - by exists (p, a, c), r.
  - by apply pop_min_nil in Hp.
Qed.

(** The entry [get_next] serves is a smallest one: lowest [priority]
    first, then earliest arrival, then smallest command. *)
Lemma get_next_serves_least b now c :
  (get_next b now).1 = Some c →
  ∃ x, x ∈ items (queue b) ∧ command_of x = c ∧
       ∀ y, y ∈ items (queue b) → item_le x y = true.
Proof.
  unfold get_next. destruct (gate_closed b now); [done|]. unfold get_nowait.
  destruct (pop_min (items (queue b))) as [[[[p a] c'] r]|] eqn:Hp; [|done].
  simpl. intros [= ->]. exists (p, a, c). split; [|split; [done|]].
  - apply pop_min_perm in Hp. rewrite Hp. apply elem_of_cons. by left.
  - by eapply pop_min_least.
Qed.

Lemma get_next_None_unchanged b now :
  (get_next b now).1 = None → (get_next b now).2 = b.
Proof.
  unfold get_next. destruct (gate_closed b now); [done|].
  by destruct (get_nowait (queue b)) as [[[[??]?]?]|].
Qed.

Lemma get_next_Some_clock b now c :
  (get_next b now).1 = Some c →
  last_execution_time (get_next b now).2 = seconds now ∧
  debounce_ms (get_next b now).2 = debounce_ms b ∧ gate_open b now.
Proof.
  unfold get_next, gate_open.
  destruct (gate_closed b now); [done|].
  by destruct (get_nowait (queue b)) as [[[[??]?]?]|].
Qed.

Lemma reachable_foldl buffer_size debounce_ms b cs :
  reachable buffer_size debounce_ms b →
  reachable buffer_size debounce_ms (foldl exec b cs).
Proof.
  revert b; induction cs as [|c cs IH]; intros b Hb; simpl; [done|].
  apply IH. by apply reach_exec.
Qed.

Lemma exec_clock b c :
  not_get_next c →
  last_execution_time (exec b c) = last_execution_time b ∧
  debounce_ms (exec b c) = debounce_ms b.
Proof.
  destruct c as [command priority now now'|now|]; simpl; [|done..].
  intros _. unfold add_input.
  destruct (put_nowait _ _); [done|].
  destruct (get_nowait _) as [[? q1]|]; [|done].
  by destruct (put_nowait q1 _).
Qed.

Lemma foldl_exec_clock b cs :
  Forall not_get_next cs →
  last_execution_time (foldl exec b cs) = last_execution_time b ∧
  debounce_ms (foldl exec b cs) = debounce_ms b.
Proof.
  intros H. revert b. induction H as [|c cs Hc _ IH]; intros b; simpl; [done|].
  destruct (IH (exec b c)) as [-> ->]. by apply exec_clock.
Qed.

(** What the gate reads: the gate clock and the interval. *)
Lemma gate_closed_ext b b' now :
  last_execution_time b' = last_execution_time b →
  debounce_ms b' = debounce_ms b →
  gate_closed b' now = gate_closed b now.
Proof. unfold gate_closed. by intros -> ->. Qed.

End InputBufferFacts.

(* ===================================================================== *)
(** * The input buffer: ordering, eviction, debounce *)
(* ===================================================================== *)

Module InputBufferSpec.
Import PriorityQueue PriorityQueueFacts OptimizedInputBuffer InputBufferFacts.
Local Open Scope str_scope.

(** C1 (the code departs from the claim).  With the gate open and the
    priority-0 entry "low" and the priority-5 entry "high" stored,
    [get_next] pops and returns "low", the entry of LOWEST priority, and
    sets the gate clock to now; "high" stays queued.  The claim asks for
    the entry of highest priority. *)
Theorem C1_get_next_serves_lowest_priority_first :
  reachable 10 50 two_priorities ∧
  gate_open two_priorities (at_seconds 2.0) ∧
  items (queue two_priorities)
    = [(0, at_seconds 1.0, "low"); (5, at_seconds 1.001, "high")] ∧
  (get_next two_priorities (at_seconds 2.0)).1 = Some "low" ∧
  items (queue (get_next two_priorities (at_seconds 2.0)).2)
    = [(5, at_seconds 1.001, "high")] ∧
  last_execution_time (get_next two_priorities (at_seconds 2.0)).2
    = 2.0%float.
Proof.
  split; [|by vm_compute].
  apply reachable_foldl, reach_init.
Qed.

(** C4, as stated, fails: when the clock gives both priority-0 entries
    the same reading, the tuple comparison falls through to the command,
    and of "zoom" and "back" the entry evicted is "back", the more recent
    one. *)
Lemma C4_counterexample_equal_readings :
  ¬ C4_as_stated ∧
  (let s1 := add_input (init 2 50) "zoom" 0 (at_seconds 1.0) (at_seconds 1.0) in
   let s2 := add_input s1.2 "back" 0 (at_seconds 1.0) (at_seconds 1.0) in
   let s3 := add_input s2.2 "next" 5 (at_seconds 1.001) (at_seconds 1.001) in
   s3.1 = Return true ∧
   items (queue s3.2)
     = [(0, at_seconds 1.0, "zoom"); (5, at_seconds 1.001, "next")]).
Proof.
  split; [|by vm_compute].
  intros H.
  specialize (H "zoom" "back" "next" (at_seconds 1.0) (at_seconds 1.0)
                (at_seconds 1.001) 50%float eq_refl eq_refl).
  vm_compute in H. discriminate H.
Qed.

(** C4, amended.  A buffer of capacity 2 that receives three [add_input]
    calls with priorities 0, 0 and 5, the first with an earlier clock
    reading than the second: each call returns [True], and the buffer is
    left with exactly the later priority-0 entry and the priority-5
    entry.  The third call finds the queue full and evicts the entry of
    lowest priority and oldest arrival (the first one); its own entry
    carries the clock reading of the retry. *)
Theorem C4_eviction_at_capacity
    (c1 c2 c3 : str) (t1 t1' t2 t2' t3 t3' : reading) (debounce : float) :
  (seconds t1 <? seconds t2)%float = true →
  let b0 := init 2 debounce in
  let s1 := add_input b0 c1 0 t1 t1' in
  let s2 := add_input s1.2 c2 0 t2 t2' in
  let s3 := add_input s2.2 c3 5 t3 t3' in
  s1.1 = Return true ∧ s2.1 = Return true ∧ s3.1 = Return true ∧
  full (queue s2.2) = true ∧
  get_nowait (queue s2.2)
    = Some ((0, t1, c1), PriorityQueue.mk 2 [(0, t2, c2)]) ∧
  items (queue s3.2) = [(0, t2, c2); (5, t3', c3)].
Proof.
  intros Hlt. cbv zeta.
  assert (item_le (0, t1, c1) (0, t2, c2) = true) as Hle.
  { apply item_le_iff. right. split; [done|]. by left. }
  unfold add_input, put_nowait, get_nowait, full, qsize. simpl.
  by rewrite Hle.
Qed.

Lemma C4_eviction_at_capacity_witness :
  let s1 := add_input (init 2 50) "first" 0 (at_seconds 1.0) (at_seconds 1.0) in
  let s2 := add_input s1.2 "second" 0 (at_seconds 1.001) (at_seconds 1.001) in
  let s3 := add_input s2.2 "third" 5 (at_seconds 1.002) (at_seconds 1.003) in
  s1.1 = Return true ∧ s2.1 = Return true ∧ s3.1 = Return true ∧
  full (queue s2.2) = true ∧
  get_nowait (queue s2.2)
    = Some ((0, at_seconds 1.0, "first"),
            PriorityQueue.mk 2 [(0, at_seconds 1.001, "second")]) ∧
  items (queue s3.2)
    = [(0, at_seconds 1.001, "second"); (5, at_seconds 1.003, "third")].
Proof.
  apply (C4_eviction_at_capacity "first" "second" "third"
           (at_seconds 1.0) (at_seconds 1.0) (at_seconds 1.001)
           (at_seconds 1.001) (at_seconds 1.002) (at_seconds 1.003) 50).
  reflexivity.
Defined.

(** C9.  In every state of a buffer built with [buffer_size >= 1],
    [add_input] returns [True] (it neither returns [False] nor lets
    [queue.Full] escape); and when the queue is full, [get_nowait] finds
    an entry to remove and the second [put] then succeeds. *)
Theorem C9_add_input_returns_true
    (buffer_size : Z) (debounce_ms : float) (b : OptimizedInputBuffer.t)
    (command : str) (priority : Z) (now now' : reading) :
  1 ≤ buffer_size →
  reachable buffer_size debounce_ms b →
  (add_input b command priority now now').1 = Return true ∧
  (full (queue b) = true →
   ∃ x q1, get_nowait (queue b) = Some (x, q1) ∧
           is_Some (put_nowait q1 (priority, now', command))).
Proof.
  intros Hsz Hr.
  destruct (reachable_buffer_size _ _ _ Hr) as [Hbs _].
  destruct (reachable_bounded _ _ _ Hr) as [Hm Hb].
  assert (full (queue b) = true →
          ∃ x q1, get_nowait (queue b) = Some (x, q1) ∧
                  is_Some (put_nowait q1 (priority, now', command))) as Hroom.
  { intros [Hpos Hfull]%full_true.
    destruct (get_nowait (queue b)) as [[x q1]|] eqn:Hget.
    - exists x, q1. split; [done|].
      pose proof (qsize_get _ _ _ Hget) as Hq.
      apply get_nowait_Some in Hget as (Hm1 & _).
      unfold put_nowait, full.
      destruct (Z.leb_spec (maxsize q1) (qsize q1)); [lia|].
      rewrite andb_false_r. by eexists.
    - apply get_nowait_None in Hget. unfold qsize in Hfull.
      rewrite Hget in Hfull. simpl in Hfull. lia. }
  split; [|done]. unfold add_input.
  unfold put_nowait at 1. destruct (full (queue b)) eqn:Hf; [|done].
  destruct (Hroom eq_refl) as (x & q1 & -> & [q2 ->]). done.
Qed.

Lemma C9_add_input_returns_true_witness :
  (add_input
     (foldl exec (init 1 50)
        [AddInput "next" 0 (at_seconds 1.0) (at_seconds 1.0)])
     "back" 3 (at_seconds 1.001) (at_seconds 1.002)).1 = Return true ∧
  (full (queue (foldl exec (init 1 50)
                  [AddInput "next" 0 (at_seconds 1.0) (at_seconds 1.0)]))
     = true →
   ∃ x q1,
     get_nowait (queue (foldl exec (init 1 50)
                          [AddInput "next" 0 (at_seconds 1.0) (at_seconds 1.0)]))
       = Some (x, q1) ∧
     is_Some (put_nowait q1 (3, at_seconds 1.002, "back"))).
Proof.
  apply (C9_add_input_returns_true 1 50).
  - lia.
  - apply reachable_foldl, reach_init.
Defined.

(** C5, as stated, fails: in a reachable state with two entries queued,
    of two [get_next] calls half a second apart (ten times the debounce
    interval) the first one, 10 ms after the last served entry, finds the
    gate closed and returns [None]. *)
Lemma C5_counterexample_first_call_gated :
  ¬ C5_as_stated ∧
  reachable 10 50 served_at_1 ∧
  qsize (queue served_at_1) = 2 ∧
  (get_next served_at_1 (at_seconds 1.01)).1 = None ∧
  (get_next (get_next served_at_1 (at_seconds 1.01)).2 (at_seconds 1.51)).1
    = Some "back".
Proof.
  split; [|split; [apply reachable_foldl, reach_init|by vm_compute]].
  intros H.
  destruct (H served_at_1 (at_seconds 1.01) (at_seconds 1.51)) as [[c Hc] _];
    [by vm_compute..|].
  vm_compute in Hc. discriminate Hc.
Qed.

(** The gate is computed on binary64: of two calls at the readings 0.1
    and 0.15, the second finds [0.15 - 0.1 < 50 / 1000.0] and returns
    [None]; at the readings 1.0 and 1.05 it is served. *)
Example debounce_edge_in_binary64 :
  let b := foldl exec (init 10 50)
             [AddInput "next" 0 (at_seconds 0.01) (at_seconds 0.01);
              AddInput "back" 0 (at_seconds 0.02) (at_seconds 0.02)] in
  (get_next b (at_seconds 0.1)).1 = Some "next" ∧
  (get_next (get_next b (at_seconds 0.1)).2 (at_seconds 0.15)).1 = None ∧
  (get_next b (at_seconds 1.0)).1 = Some "next" ∧
  (get_next (get_next b (at_seconds 1.0)).2 (at_seconds 1.05)).1
    = Some "back".
Proof. by vm_compute. Qed.

(** C5, amended.  For every buffer state, with the gate test of the
    source, [now - last_execution_time < debounce_ms], computed on
    binary64:
    - of two [get_next] calls whose readings give
      [now2 - now1 < debounce_ms], at most one returns a value, whatever
      is queued and whatever [add_input] and [flush] calls come between
      them;
    - a call that finds the gate closed returns [None] and leaves the
      buffer, its queue included, as it was;
    - two calls whose readings do not give [now2 - now1 < debounce_ms]
      both return a value when the gate is open at the first call and an
      entry is queued at each call;
    - a call that returns [None] leaves the gate clock unchanged, and a
      call that returns a value sets it to now. *)
Theorem C5_debounce_gate :
  (∀ b now1 now2 mid,
     Forall not_get_next mid →
     (seconds now2 - seconds now1 <? debounce_ms b)%float = true →
     (get_next b now1).1 = None ∨
     (get_next (foldl exec (get_next b now1).2 mid) now2).1 = None) ∧
  (∀ b now, gate_closed b now = true → get_next b now = (None, b)) ∧
  (∀ b now1 now2 mid,
     Forall not_get_next mid →
     gate_open b now1 →
     (seconds now2 - seconds now1 <? debounce_ms b)%float = false →
     items (queue b) ≠ [] →
     items (queue (foldl exec (get_next b now1).2 mid)) ≠ [] →
     is_Some (get_next b now1).1 ∧
     is_Some (get_next (foldl exec (get_next b now1).2 mid) now2).1) ∧
  (∀ b now,
     (get_next b now).1 = None →
     last_execution_time (get_next b now).2 = last_execution_time b) ∧
  (∀ b now c,
     (get_next b now).1 = Some c →
     last_execution_time (get_next b now).2 = seconds now).
Proof.
  split; [|split; [|split; [|split]]].
  - intros b now1 now2 mid Hmid Hlt.
    destruct (get_next b now1).1 as [c|] eqn:H1; [right|by left].
    destruct (get_next_Some_clock _ _ _ H1) as (Hclock & Hd & _).
    destruct (foldl_exec_clock (get_next b now1).2 mid Hmid) as [Hl Hd'].
    rewrite get_next_closed; [done|].
    unfold gate_closed. by rewrite Hl, Hd', Hclock, Hd.
  - apply get_next_closed.
  - intros b now1 now2 mid Hmid Hopen Hge Hne1 Hne2.
    destruct (get_next_open b now1 Hopen Hne1) as (x & r & _ & Hg).
    rewrite Hg in *. simpl in *. split; [by eexists|].
    set (b1 := OptimizedInputBuffer.mk _ _ _ _) in *.
    destruct (foldl_exec_clock b1 mid Hmid) as [Hl Hd]. simpl in Hl, Hd.
    destruct (get_next_open (foldl exec b1 mid) now2) as (y & r' & _ & ->);
      [|exact Hne2|by eexists].
    unfold gate_open, gate_closed. by rewrite Hl, Hd.
  - intros b now H. by rewrite (get_next_None_unchanged _ _ H).
  - intros b now c H. by apply get_next_Some_clock in H as (? & _).
Qed.

(** The amended statement at work: the buffer of [served_at_1], called
    at 1.1 and 1.2; and called at 1.1 and 1.12. *)
Lemma C5_debounce_gate_witness :
  (is_Some (get_next served_at_1 (at_seconds 1.1)).1 ∧
   is_Some (get_next (foldl exec (get_next served_at_1 (at_seconds 1.1)).2 [])
              (at_seconds 1.2)).1) ∧
  ((get_next served_at_1 (at_seconds 1.1)).1 = None ∨
   (get_next (foldl exec (get_next served_at_1 (at_seconds 1.1)).2
                [AddInput "pen" 7 (at_seconds 1.11) (at_seconds 1.11)])
      (at_seconds 1.12)).1 = None).
Proof.
  split.
  - apply (proj1 (proj2 (proj2 C5_debounce_gate)) served_at_1
             (at_seconds 1.1) (at_seconds 1.2) []).
    + constructor.
    + by vm_compute.
    + by vm_compute.
    + vm_compute. discriminate.
    + vm_compute. discriminate.
  - apply (proj1 C5_debounce_gate served_at_1 (at_seconds 1.1)
             (at_seconds 1.12)
             [AddInput "pen" 7 (at_seconds 1.11) (at_seconds 1.11)]).
    + repeat constructor.
    + by vm_compute.
Defined.

End InputBufferSpec.

(* ===================================================================== *)
(** * The decision logger: one row per id, one line per call *)
(* ===================================================================== *)

Module LoggerSpec.
Import AdvancedTrainingDataLogger.

Section Logger.

Variable to_json : AudioTextRecord.t → str.

Abbreviation written := (written to_json).
Abbreviation log_text := (log_text to_json).
Abbreviation log_each := (log_each to_json).

(** A call of [log_text] returns, with the row and the line written, or
    raises, with the files as they were. *)
Lemma log_text_accepted self record :
  accepted record = true → log_text self record = Returns (written self record).
Proof.
  unfold accepted, AdvancedTrainingDataLogger.log_text.
  by intros [-> ->]%andb_true_iff.
Qed.

Lemma log_text_refused self record :
  accepted record = false →
  after self (log_text self record) = self ∧
  ∀ self', log_text self record ≠ Returns self'.
Proof.
  unfold accepted, AdvancedTrainingDataLogger.log_text.
  intros [->| ->]%andb_false_iff; simpl; [done|].
  by destruct (bindable record).
Qed.

Lemma written_lookup self record :
  db (written self record) !! AudioTextRecord.id record = Some record.
Proof. apply lookup_insert_eq. Qed.

Lemma written_lookup_ne self record k :
  k ≠ AudioTextRecord.id record →
  db (written self record) !! k = db self !! k.
Proof. intros H. by apply lookup_insert_ne. Qed.

(** A row, once stored, stays stored: nothing of the logger deletes. *)
Lemma log_text_keeps self record k :
  is_Some (db self !! k) → is_Some (db (after self (log_text self record)) !! k).
Proof.
  intros H. destruct (accepted record) eqn:Ha.
  - rewrite (log_text_accepted _ _ Ha). simpl.
    rewrite lookup_insert. by case_decide.
  - by destruct (log_text_refused self record Ha) as [-> _].
Qed.

Lemma log_each_keeps self records k :
  is_Some (db self !! k) → is_Some (db (log_each self records) !! k).
Proof.
  revert self; induction records as [|r records IH]; intros self H; simpl;
    [done|].
  by apply IH, log_text_keeps.
Qed.

(** [INSERT OR REPLACE] on an id that has a row keeps the row count. *)
Lemma written_size_present self record :
  is_Some (db self !! AudioTextRecord.id record) →
  size (db (written self record)) = size (db self).
Proof.
  intros [old Hold]. unfold AdvancedTrainingDataLogger.written. simpl.
  rewrite <- (insert_delete_id (db self) _ _ Hold) at 2.
  rewrite <- (insert_delete_eq (db self)).
  rewrite !map_size_insert_None by apply lookup_delete_eq. done.
Qed.

Lemma written_size_fresh self record :
  db self !! AudioTextRecord.id record = None →
  size (db (written self record)) = S (size (db self)).
Proof. intros H. by apply map_size_insert_None. Qed.

Lemma line_count_app a b : line_count (str_app a b) = line_count a + line_count b.
Proof.
  unfold line_count, str_app. simpl. rewrite filter_app, length_app. lia.
Qed.

Lemma line_count_no_LF a : 10%N ∉ cps a → line_count a = 0.
Proof.
  unfold line_count. intros H.
  assert (filter (λ c, c = 10%N) (cps a) = []) as ->; [|done].
  induction (cps a) as [|c l IH]; [done|].
  apply not_elem_of_cons in H as [Hc Hl].
  rewrite filter_cons_False by done. auto.
Qed.

(** C7, amended.  Once a record is logged, however many records are
    logged after it, a call of [log_text] on a record with the same id
    leaves [get_statistics().total_entries] as it was and every other
    row untouched.  When the table takes the new record (its texts can
    be encoded, its confidence and response time are numbers) the call
    returns and the row of the id is the new record; when it does not,
    the call raises and the two files are as they were, the row of the
    id included. *)
Theorem C7_relog_same_id_overwrites
    (self : AdvancedTrainingDataLogger.t)
    (record record' : AudioTextRecord.t) (between : list AudioTextRecord.t) :
  AudioTextRecord.id record' = AudioTextRecord.id record →
  accepted record = true →
  let logged := log_each (after self (log_text self record)) between in
  let relogged := after logged (log_text logged record') in
  total_entries (get_statistics relogged)
    = total_entries (get_statistics logged) ∧
  (∀ k, k ≠ AudioTextRecord.id record → db relogged !! k = db logged !! k) ∧
  (accepted record' = true →
   log_text logged record' = Returns relogged ∧
   db relogged !! AudioTextRecord.id record = Some record') ∧
  (accepted record' = false →
   relogged = logged ∧ ∀ self', log_text logged record' ≠ Returns self').
Proof.
  intros Hid Ha logged relogged.
  assert (is_Some (db logged !! AudioTextRecord.id record')) as Hin.
  { rewrite Hid. apply log_each_keeps. rewrite (log_text_accepted _ _ Ha).
    simpl. rewrite lookup_insert_eq. by eexists. }
  destruct (accepted record') eqn:Ha'.
  - assert (relogged = written logged record') as Hre.
    { unfold relogged. by rewrite (log_text_accepted _ _ Ha'). }
    split; [|split; [|split; [|done]]].
    + rewrite Hre. unfold get_statistics. simpl. f_equal.
      by apply written_size_present.
    + intros k Hk. rewrite Hre. apply written_lookup_ne. by rewrite Hid.
    + intros _. split; [by rewrite Hre, (log_text_accepted _ _ Ha')|].
      rewrite Hre, <- Hid. apply written_lookup.
  - destruct (log_text_refused logged record' Ha') as [Hsame Hraises].
    fold relogged in Hsame. rewrite Hsame.
    split; [done|]. split; [done|]. split; [done|]. by intros _.
Qed.

(** [json.dumps] with its default arguments writes no line feed: inside
    a string it writes the two characters backslash and n. *)
Hypothesis to_json_one_line : ∀ record, 10%N ∉ cps (to_json record).

(** C10, amended.  Every call of [log_text] that returns has appended
    the serialised record and a line feed to the JSONL file, which grows
    by exactly one line, whether or not the id is already stored; on an
    id already stored the table keeps its number of rows (and gains one
    on a new id).  A call on a record the table does not take raises
    before the file is opened: no line is appended and no row changes. *)
Theorem C10_every_log_appends_one_line
    (self : AdvancedTrainingDataLogger.t) (record : AudioTextRecord.t) :
  (accepted record = true →
   log_text self record = Returns (written self record) ∧
   jsonl (written self record)
     = str_app (jsonl self) (str_app (to_json record) LF) ∧
   line_count (jsonl (written self record)) = line_count (jsonl self) + 1 ∧
   (is_Some (db self !! AudioTextRecord.id record) →
    size (db (written self record)) = size (db self)) ∧
   (db self !! AudioTextRecord.id record = None →
    size (db (written self record)) = S (size (db self)))) ∧
  (accepted record = false →
   after self (log_text self record) = self ∧
   ∀ self', log_text self record ≠ Returns self').
Proof.
  split; [|apply log_text_refused].
  intros Ha. split; [by apply log_text_accepted|].
  split; [done|]. split; [|split].
  - unfold AdvancedTrainingDataLogger.written. simpl.
    rewrite !line_count_app.
    rewrite (line_count_no_LF (to_json record)) by apply to_json_one_line.
    change (line_count LF) with 1. lia.
  - apply written_size_present.
  - apply written_size_fresh.
Qed.

End Logger.

End LoggerSpec.

Module LoggerExamples.
Import AdvancedTrainingDataLogger LoggerSpec.
Local Open Scope str_scope.

Lemma text_field_json_one_line record : 10%N ∉ cps (text_field_json record).
Proof.
  unfold text_field_json. simpl.
  induction (cps (AudioTextRecord.text record)) as [|c l IH]; simpl.
  - apply not_elem_of_nil.
  - destruct (N.eqb_spec c 10); simpl.
    + apply not_elem_of_cons. split; [done|].
      apply not_elem_of_cons. by split.
    + apply not_elem_of_cons. by split.
Qed.

(** What the table does with a NaN: the re-log of [nan_log], the
    confidence of which is NaN, on the id of [first_log]. *)
Lemma relog_NaN :
  let logged := after empty_store (log_text text_field_json empty_store first_log) in
  log_text text_field_json logged nan_log = Raises_IntegrityError ∧
  db logged !! AudioTextRecord.id first_log = Some first_log ∧
  db (after logged (log_text text_field_json logged nan_log))
    !! AudioTextRecord.id first_log = Some first_log ∧
  line_count (jsonl (after logged (log_text text_field_json logged nan_log)))
    = line_count (jsonl logged).
Proof. by vm_compute. Qed.

(** C7, as stated, fails: a record whose confidence is NaN, re-logged
    on the id of a stored record, is refused by the table
    ([confidence REAL NOT NULL], and NaN is bound as [NULL]):
    [log_text] raises [IntegrityError] and the stored entry is the old
    one. *)
Lemma C7_counterexample_NaN_is_refused :
  ¬ C7_as_stated ∧
  (let logged :=
     after empty_store (log_text text_field_json empty_store first_log) in
   log_text text_field_json logged nan_log = Raises_IntegrityError ∧
   db (after logged (log_text text_field_json logged nan_log))
     !! AudioTextRecord.id first_log = Some first_log).
Proof.
  destruct relog_NaN as (Hraise & Hin & Hold & _). cbv zeta in *.
  split; [|done]. intros H.
  specialize (H text_field_json empty_store first_log nan_log eq_refl).
  cbv zeta in H. rewrite Hold in H.
  specialize (H (ex_intro _ _ Hin)).
  apply (f_equal (from_option AudioTextRecord.text (Str []))) in H.
  by vm_compute in H.
Qed.

(** C10, as stated, fails: the call that raises appends no line. *)
Lemma C10_counterexample_NaN_appends_nothing :
  ¬ C10_as_stated ∧
  (let logged :=
     after empty_store (log_text text_field_json empty_store first_log) in
   log_text text_field_json logged nan_log = Raises_IntegrityError ∧
   line_count (jsonl (after logged (log_text text_field_json logged nan_log)))
   = line_count (jsonl logged)).
Proof.
  destruct relog_NaN as (Hraise & _ & _ & Hlines). cbv zeta in *.
  split; [|done]. intros H.
  specialize (H text_field_json
                (after empty_store
                   (log_text text_field_json empty_store first_log))
                nan_log text_field_json_one_line).
  rewrite Hlines in H. lia.
Qed.

(** The amended statement at work: [second_log] re-logged on the id of
    [first_log], with [other_log] logged between the two. *)
Lemma C7_relog_same_id_overwrites_witness :
  let logged :=
    log_each text_field_json
      (after empty_store (log_text text_field_json empty_store first_log))
      [other_log] in
  let relogged := after logged (log_text text_field_json logged second_log) in
  total_entries (get_statistics relogged)
    = total_entries (get_statistics logged) ∧
  (∀ k, k ≠ AudioTextRecord.id first_log →
        db relogged !! k = db logged !! k) ∧
  log_text text_field_json logged second_log = Returns relogged ∧
  db relogged !! AudioTextRecord.id first_log = Some second_log.
Proof.
  destruct (C7_relog_same_id_overwrites text_field_json empty_store
              first_log second_log [other_log] eq_refl eq_refl)
    as (Htotal & Hothers & Htaken & _).
  split; [exact Htotal|]. split; [exact Hothers|].
  exact (Htaken eq_refl).
Defined.

(** The amended statement at work: [second_log], which the table takes,
    and [nan_log], which it does not, logged after [first_log]. *)
Lemma C10_every_log_appends_one_line_witness :
  let logged := written text_field_json empty_store first_log in
  (log_text text_field_json logged second_log
     = Returns (written text_field_json logged second_log) ∧
   jsonl (written text_field_json logged second_log)
     = str_app (jsonl logged) (str_app (text_field_json second_log) LF) ∧
   line_count (jsonl (written text_field_json logged second_log))
     = line_count (jsonl logged) + 1 ∧
   (is_Some (db logged !! AudioTextRecord.id second_log) →
    size (db (written text_field_json logged second_log)) = size (db logged)) ∧
   (db logged !! AudioTextRecord.id second_log = None →
    size (db (written text_field_json logged second_log))
      = S (size (db logged)))) ∧
  (after logged (log_text text_field_json logged nan_log) = logged ∧
   ∀ self', log_text text_field_json logged nan_log ≠ Returns self').
Proof.
  split.
  - exact (proj1 (C10_every_log_appends_one_line text_field_json
                    text_field_json_one_line
                    (written text_field_json empty_store first_log)
                    second_log) eq_refl).
  - exact (proj2 (C10_every_log_appends_one_line text_field_json
                    text_field_json_one_line
                    (written text_field_json empty_store first_log)
                    nan_log) eq_refl).
Defined.

(** The two files after the re-log: one row, two lines. *)
Example relog_one_row_two_lines :
  let relogged :=
    log_each text_field_json empty_store [first_log; second_log] in
  total_entries (get_statistics relogged) = 1 ∧
  line_count (jsonl relogged) = 2.
Proof. by vm_compute. Qed.

End LoggerExamples.

(* ===================================================================== *)
(** * The language detector: batches *)
(* ===================================================================== *)

Module DetectorSpec.
Import MultiLanguageDetector.

Section Detector.

Variable isspace : N → bool.

(** [detect] writes [stats] and reads none of it: what it returns is
    fixed by the configuration, the text and the answer of the
    classifier on the text. *)
Lemma detect_result_config langdetect langdetect' a b text :
  same_config a b → langdetect text = langdetect' text →
  (detect langdetect isspace a text).1 = (detect langdetect' isspace b text).1.
Proof.
  intros [Hs Hp] Ha. unfold MultiLanguageDetector.detect. rewrite Hs, Hp, Ha.
  destruct (_ || _); [done|].
  destruct (langdetect' text) as [detected|]; [|done].
  destruct (List.find _ _); [done|]. by destruct (List.find _ _).
Qed.

Lemma detect_keeps_config langdetect self text :
  same_config self (detect langdetect isspace self text).2.
Proof.
  unfold MultiLanguageDetector.detect.
  destruct (_ || _); [done|].
  destruct (langdetect text) as [detected|]; [|done].
  destruct (List.find _ _); [done|]. by destruct (List.find _ _).
Qed.

Lemma same_config_trans a b c :
  same_config a b → same_config b c → same_config a c.
Proof. intros [??] [??]. split; congruence. Qed.

Variable langdetect : nat → str → option str.

Abbreviation detect_each := (detect_each langdetect isspace).
Abbreviation executor_map := (executor_map langdetect isspace).
Abbreviation run_task := (run_task langdetect isspace).
Abbreviation detect_batch := (detect_batch langdetect isspace).
Abbreviation pool_state := (pool_state langdetect isspace).
Abbreviation each_detected := (each_detected langdetect isspace).

(** The sequential branch. *)
Lemma detect_each_results self self0 i texts :
  same_config self0 self →
  (detect_each self i texts).1
  = imap (λ j text, (detect (langdetect (i + j)) isspace self0 text).1) texts.
Proof.
  revert self i; induction texts as [|text texts IH]; intros self i Hc; simpl;
    [done|].
  pose proof (detect_keeps_config (langdetect i) self text) as Hk.
  pose proof (detect_result_config (langdetect i) (langdetect i) self0 self
                text Hc eq_refl) as Hr.
  destruct (detect (langdetect i) isspace self text) as [r self1] eqn:Hd.
  simpl in *.
  specialize (IH self1 (S i) (same_config_trans _ _ _ Hc Hk)).
  destruct (MultiLanguageDetector.detect_each langdetect isspace self1 (S i)
              texts) as [rs self2]. simpl in *.
  rewrite Nat.add_0_r, Hr, IH. f_equal. apply imap_ext. intros j text' _.
  simpl. by replace (S (i + j))%nat with (i + S j)%nat by lia.
Qed.

Lemma run_task_pool_state self0 texts ran state i :
  pool_state self0 texts ran state →
  pool_state self0 texts (ran ++ [i]) (run_task texts state i).
Proof.
  intros (Hc & Hlen & Hslots). unfold MultiLanguageDetector.run_task.
  destruct (texts !! i) as [text|] eqn:Hi.
  - pose proof (detect_keeps_config (langdetect i) state.2 text) as Hk.
    pose proof (detect_result_config (langdetect i) (langdetect i) self0
                  state.2 text Hc eq_refl) as Hr.
    destruct (detect (langdetect i) isspace state.2 text) as [r self'] eqn:Hd.
    simpl in *.
    split; [by eapply same_config_trans|]. split; simpl.
    + by rewrite length_insert.
    + intros j text' Hj. destruct (decide (i = j)) as [->|Hne].
      * rewrite list_lookup_insert_eq
          by (rewrite Hlen; by eapply lookup_lt_Some).
        rewrite bool_decide_eq_true_2 by set_solver.
        rewrite Hi in Hj. injection Hj as <-. by rewrite Hr.
      * rewrite list_lookup_insert_ne by done.
        rewrite (Hslots _ _ Hj).
        assert (bool_decide (j ∈ ran ++ [i]) = bool_decide (j ∈ ran)) as ->;
          [|done].
        apply bool_decide_ext. rewrite elem_of_app, list_elem_of_singleton.
        split; [intros [?|?]; [done|congruence]|by left].
  - split; [done|]. split; [done|].
    intros j text' Hj. rewrite (Hslots _ _ Hj).
    assert (bool_decide (j ∈ ran ++ [i]) = bool_decide (j ∈ ran)) as ->;
      [|done].
    apply bool_decide_ext. rewrite elem_of_app, list_elem_of_singleton.
    split; [|by left]. intros [?| ->]; [done|]. congruence.
Qed.

Lemma foldl_run_task_pool_state self0 texts ran state schedule :
  pool_state self0 texts ran state →
  pool_state self0 texts (ran ++ schedule) (foldl (run_task texts) state schedule).
Proof.
  revert ran state; induction schedule as [|i schedule IH];
    intros ran state H; simpl.
  - by rewrite app_nil_r.
  - replace (ran ++ i :: schedule) with ((ran ++ [i]) ++ schedule)
      by (by rewrite <- app_assoc).
    apply IH. by apply run_task_pool_state.
Qed.

Lemma executor_map_results self texts schedule :
  schedule ≡ₚ seq 0 (length texts) →
  (executor_map self texts schedule).1 = map Some (each_detected self texts).
Proof.
  intros Hperm.
  assert (pool_state self texts [] (replicate (length texts) None, self))
    as Hinit.
  { split; [done|]. split; simpl; [by rewrite length_replicate|].
    intros i text Hi. rewrite lookup_replicate_2; [done|].
    by eapply lookup_lt_Some. }
  apply (foldl_run_task_pool_state _ _ _ _ schedule) in Hinit.
  destruct Hinit as (_ & Hlen & Hslots). simpl in Hslots.
  apply list_eq. intros i. rewrite list_lookup_fmap.
  unfold MultiLanguageDetector.each_detected. rewrite list_lookup_imap.
  destruct (texts !! i) as [text|] eqn:Hi; simpl.
  - unfold MultiLanguageDetector.executor_map. rewrite (Hslots _ _ Hi).
    rewrite bool_decide_eq_true_2; [done|].
    rewrite Hperm. apply elem_of_seq. apply lookup_lt_Some in Hi. lia.
  - apply lookup_ge_None. apply lookup_ge_None in Hi.
    unfold MultiLanguageDetector.executor_map. lia.
Qed.

Lemma mapM_id_Some {A} (l : list A) : mapM id (map Some l) = Some l.
Proof. apply mapM_Some. induction l; constructor; auto. Qed.

(** The sequential branch needs neither a pool nor a schedule. *)
Lemma detect_batch_sequential self texts schedule :
  parallel self = false →
  (detect_batch self texts schedule).1 = Returns (each_detected self texts).
Proof.
  intros Hp. unfold MultiLanguageDetector.detect_batch. rewrite Hp. simpl.
  pose proof (detect_each_results self self 0 texts) as H.
  destruct (MultiLanguageDetector.detect_each _ _ _ _ _) as [rs self'].
  simpl in *. rewrite H; [done|]. by split.
Qed.

(** The parallel branch, with a pool of at least one worker. *)
Lemma detect_batch_pooled self texts schedule :
  parallel self = true → 0 < max_workers self →
  schedule ≡ₚ seq 0 (length texts) →
  (detect_batch self texts schedule).1 = Returns (each_detected self texts).
Proof.
  intros Hp Hw Hperm. unfold MultiLanguageDetector.detect_batch.
  rewrite Hp. simpl.
  destruct (Z.leb_spec (max_workers self) 0); [lia|].
  pose proof (executor_map_results self texts schedule Hperm) as Hem.
  destruct (MultiLanguageDetector.executor_map _ _ _ _ _) as [futures self'].
  simpl in Hem. by rewrite Hem, mapM_id_Some.
Qed.

(** In the parallel branch a pool of no worker cannot be built. *)
Lemma detect_batch_no_worker self texts schedule :
  parallel self = true → max_workers self ≤ 0 →
  (detect_batch self texts schedule).1 = Raises_ValueError.
Proof.
  intros Hp Hw. unfold MultiLanguageDetector.detect_batch. rewrite Hp. simpl.
  by destruct (Z.leb_spec (max_workers self) 0); [|lia].
Qed.

Lemma each_detected_with_parallel self parallel texts :
  each_detected (with_parallel self parallel) texts = each_detected self texts.
Proof.
  unfold MultiLanguageDetector.each_detected. apply imap_ext.
  intros i text _. simpl. by apply detect_result_config.
Qed.

End Detector.

(** C8, amended.  With a pool of at least one worker, whose tasks take
    effect in any order that runs each task once, [detect_batch] returns
    in the sequential and in the parallel branch a list of the length of
    the texts and in their order: for each text what [detect] returns on
    it with the answer the classifier gave the call made for it.  A
    sequential and a pooled run return the same list when the classifier
    gives the two runs the same answers on the texts, as a seeded one
    does. *)
Theorem C8_detect_batch_order_and_agreement
    (langdetect langdetect' : nat → str → option str) (isspace : N → bool)
    (self : MultiLanguageDetector.t) (texts : list str) (schedule : list nat) :
  0 < max_workers self →
  schedule ≡ₚ seq 0 (length texts) →
  let sequential := each_detected langdetect isspace self texts in
  let pooled := each_detected langdetect' isspace self texts in
  (detect_batch langdetect isspace (with_parallel self false) texts
     schedule).1 = Returns sequential ∧
  (detect_batch langdetect' isspace (with_parallel self true) texts
     schedule).1 = Returns pooled ∧
  length sequential = length texts ∧ length pooled = length texts ∧
  (∀ i text, texts !! i = Some text →
     sequential !! i = Some (detect (langdetect i) isspace self text).1 ∧
     pooled !! i = Some (detect (langdetect' i) isspace self text).1) ∧
  ((∀ i text, texts !! i = Some text → langdetect i text = langdetect' i text) →
   sequential = pooled).
Proof.
  intros Hw Hperm sequential pooled.
  split; [|split; [|split; [|split; [|split]]]].
  - rewrite detect_batch_sequential by done.
    by rewrite each_detected_with_parallel.
  - rewrite detect_batch_pooled by done.
    by rewrite each_detected_with_parallel.
  - unfold sequential, each_detected. by rewrite length_imap.
  - unfold pooled, each_detected. by rewrite length_imap.
  - intros i text Hi. unfold sequential, pooled, each_detected.
    by rewrite !list_lookup_imap, Hi.
  - intros Hsame. unfold sequential, pooled, each_detected.
    apply imap_ext. intros i text Hi. simpl.
    apply detect_result_config; [done|]. by apply Hsame.
Qed.

End DetectorSpec.

Module DetectorExamples.
Import MultiLanguageDetector DetectorSpec.
Local Open Scope str_scope.

(** C8, as stated, fails: the classifier is not seeded, and of two runs
    on the text "no", one that takes it for Spanish and one that takes
    it for English, the sequential and the pooled lists differ. *)
Lemma C8_counterexample_unseeded_classifier :
  ¬ C8_as_stated ∧
  (detect_batch one_run ascii_isspace (with_parallel sample_detector false)
     ["no"] [0%nat]).1 = Returns [(SPANISH, 0.95%float)] ∧
  (detect_batch another_run ascii_isspace (with_parallel sample_detector true)
     ["no"] [0%nat]).1 = Returns [(ENGLISH, 0.95%float)].
Proof.
  split; [|by vm_compute].
  intros H.
  specialize (H one_run another_run ascii_isspace sample_detector ["no"]
                [0%nat] eq_refl (reflexivity _)).
  vm_compute in H.
  apply (f_equal (λ o, match o with
                       | Returns ((lang, _) :: _) => Some lang
                       | _ => None
                       end)) in H.
  discriminate H.
Qed.

Lemma C8_detect_batch_order_and_agreement_witness :
  let sequential :=
    each_detected seeded_langdetect ascii_isspace sample_detector sample_texts in
  let pooled :=
    each_detected seeded_langdetect ascii_isspace sample_detector sample_texts in
  (detect_batch seeded_langdetect ascii_isspace
     (with_parallel sample_detector false) sample_texts [2; 0; 3; 1]%nat).1
    = Returns sequential ∧
  (detect_batch seeded_langdetect ascii_isspace
     (with_parallel sample_detector true) sample_texts [2; 0; 3; 1]%nat).1
    = Returns pooled ∧
  length sequential = length sample_texts ∧
  length pooled = length sample_texts ∧
  (∀ i text, sample_texts !! i = Some text →
     sequential !! i
       = Some (detect (seeded_langdetect i) ascii_isspace sample_detector
                 text).1 ∧
     pooled !! i
       = Some (detect (seeded_langdetect i) ascii_isspace sample_detector
                 text).1) ∧
  ((∀ i text, sample_texts !! i = Some text →
      seeded_langdetect i text = seeded_langdetect i text) →
   sequential = pooled).
Proof.
  apply (C8_detect_batch_order_and_agreement seeded_langdetect
           seeded_langdetect ascii_isspace sample_detector sample_texts
           [2; 0; 3; 1]%nat).
  - reflexivity.
  - apply (bool_decide_unpack _). vm_compute. reflexivity.
Defined.

Example detect_batch_sample :
  (detect_batch seeded_langdetect ascii_isspace sample_detector sample_texts
     [2; 0; 3; 1]%nat).1
  = Returns [(SPANISH, 0.95%float); (ENGLISH, 0.0%float);
             (ENGLISH, 0.95%float); (ENGLISH, 0.5%float)].
Proof. by vm_compute. Qed.

End DetectorExamples.

(* ===================================================================== *)
(** * Facts: regular expressions *)
(* ===================================================================== *)

Module reFacts.
Import re.

(** ** What a match captures *)

Section Captures.

Variable T : tables.

Lemma star_inv {R} a (k : list N → option R) s r :
  star T a k s = Some r →
  ∃ taken rest, s = taken ++ rest ∧ Forall (λ c, test T a c = true) taken ∧
                k rest = Some r.
Proof.
  revert r; induction s as [|c s IH]; intros r; simpl.
  - intros H. by exists [], [].
  - destruct (test T a c) eqn:Hc; [|intros H; by exists [], (c :: s)].
    destruct (star T a k s) as [r'|] eqn:Hs.
    + intros [= <-]. destruct (IH _ eq_refl) as (taken & rest & -> & Ht & Hk).
      exists (c :: taken), rest. split; [done|]. split; [by constructor|done].
    + intros H. by exists [], (c :: s).
Qed.

(** A pattern without groups leaves the captures as they are. *)
Lemma matches_no_group r s caps k m :
  no_group r = true →
  matches T r s caps k = Some m →
  ∃ rest, k rest caps = Some m.
Proof.
  revert s caps k m; induction r as [|a|a|a|r1 IH1 r2 IH2|r1 IH1 r2 IH2|n r IH];
    intros s caps k m Hng; simpl in *; try done.
  - intros H. by exists s.
  - destruct s as [|c s']; [done|]. destruct (test T a c); [|done].
    intros H. by exists s'.
  - intros (taken & rest & _ & _ & Hk)%star_inv. by exists rest.
  - destruct s as [|c s']; [done|]. destruct (test T a c); [|done].
    intros (taken & rest & _ & _ & Hk)%star_inv. by exists rest.
  - apply andb_true_iff in Hng as [H1 H2].
    intros (rest1 & Hk)%IH1; [|done]. by apply IH2 in Hk.
  - apply andb_true_iff in Hng as [H1 H2].
    destruct (matches T r1 s caps k) as [m'|] eqn:Hm1.
    + intros [= <-]. by apply IH1 in Hm1.
    + intros Hm2. by apply IH2 in Hm2.
Qed.

(** A pattern that ends in [(\\d+)] captures, as its first group, one
    digit or more. *)
Lemma matches_ends_in_number r s caps k m :
  ends_in_number r = true →
  matches T r s caps k = Some m →
  ∃ digits rest,
    digits ≠ [] ∧ Forall (λ c, digit T c = true) digits ∧
    k rest ((1%nat, digits) :: caps) = Some m.
Proof.
  revert s caps k m;
    induction r as [|a|a|a|r1 IH1 r2 IH2|r1 IH1 r2 IH2|n r IH];
    intros s caps k m Hshape; try done.
  assert ((r1 = Group 1 (Seq (Plus Digit) Eps) ∧ r2 = Eps) ∨
          (no_group r1 = true ∧ ends_in_number r2 = true)) as [[-> ->]|[H1 H2]].
  { simpl in Hshape.
    destruct r1 as [| | | | |? ?|[|[|?]] [| | | |[| | |[| |] | | |] [| | | | | |]| |]];
      try (apply andb_true_iff in Hshape as [??]; by right);
      destruct r2; try done; by left. }
  - simpl. destruct s as [|c s']; [done|].
    destruct (digit T c) eqn:Hc; [|done].
    intros (taken & rest & -> & Ht & Hk)%star_inv.
    exists (c :: taken), rest. split; [done|]. split; [by constructor|].
    rewrite <- Hk. do 3 f_equal. simpl. rewrite length_app.
    replace (S (length taken + length rest) - length rest)%nat
      with (S (length taken)) by lia.
    simpl. by rewrite take_app_length.
  - simpl. intros (rest1 & Hk)%matches_no_group; [|done].
    by apply IH2 in Hk.
Qed.

Lemma search_from_inv r s m :
  search_from T r s = Some m → ∃ s', match_here T r s' = Some m.
Proof.
  induction s as [|c s IH]; simpl.
  - destruct (match_here T r []) eqn:H; [|done]. intros [= <-]. by exists [].
  - destruct (match_here T r (c :: s)) eqn:H.
    + intros [= <-]. by exists (c :: s).
    + done.
Qed.

(** [groups()[0]] of a match of a pattern that ends in [(\\d+)]. *)
Lemma search_ends_in_number r text m :
  ends_in_number r = true →
  search T r text = Some m →
  ∃ digits, group1 m = Some (Str digits) ∧ digits ≠ [] ∧
            Forall (λ c, digit T c = true) digits.
Proof.
  intros Hshape (s' & Hm)%search_from_inv.
  apply matches_ends_in_number in Hm as (digits & rest & Hne & Hd & Hk);
    [|done].
  injection Hk as <-. by exists digits.
Qed.

End Captures.

(** ** Searching with two tables that agree on the text *)

Section Agreement.

Variables T T' : tables.

Abbreviation agree := (agree T T').

Lemma agree_suffix r s s' : s' `suffix_of` s → agree r s → agree r s'.
Proof.
  intros [pre ->] H a c Ha Hc. apply H; [done|].
  apply elem_of_app. by right.
Qed.

Lemma star_agree {R} a (k k' : list N → option R) s :
  (∀ c, c ∈ s → test T a c = test T' a c) →
  (∀ s', s' `suffix_of` s → k s' = k' s') →
  star T a k s = star T' a k' s.
Proof.
  induction s as [|c s IH]; intros Ht Hk; simpl.
  - by apply Hk.
  - rewrite <- (Ht c) by (by left).
    rewrite IH.
    + by rewrite (Hk (c :: s)).
    + intros c' Hc'. apply Ht. by right.
    + intros s' Hs'. apply Hk. by apply suffix_cons_r.
Qed.

Lemma matches_agree r s caps k k' :
  agree r s →
  (∀ s' caps', s' `suffix_of` s → k s' caps' = k' s' caps') →
  matches T r s caps k = matches T' r s caps k'.
Proof.
  revert s caps k k';
    induction r as [|a|a|a|r1 IH1 r2 IH2|r1 IH1 r2 IH2|n r IH];
    intros s caps k k' Hag Hk; simpl.
  - by apply Hk.
  - destruct s as [|c s']; [done|].
    rewrite <- (Hag a c) by (by left).
    destruct (test T a c); [|done]. apply Hk. by apply suffix_cons_r.
  - apply star_agree.
    + intros c Hc. apply Hag; [by left|done].
    + intros s' Hs'. by apply Hk.
  - destruct s as [|c s']; [done|].
    rewrite <- (Hag a c) by (by left).
    destruct (test T a c); [|done]. apply star_agree.
    + intros c' Hc'. apply Hag; [by left|by right].
    + intros s'' Hs''. apply Hk. by apply suffix_cons_r.
  - apply IH1.
    + intros a c Ha Hc. apply Hag; [|done]. simpl. apply elem_of_app. by left.
    + intros s1 caps1 Hs1. apply IH2.
      * apply (agree_suffix _ s); [done|].
        intros a c Ha Hc. apply Hag; [|done]. simpl. apply elem_of_app.
        by right.
      * intros s2 caps2 Hs2. apply Hk. by etrans.
  - rewrite (IH1 s caps k k'), (IH2 s caps k k'); try done.
    + intros a c Ha Hc. apply Hag; [|done]. simpl. apply elem_of_app. by right.
    + intros a c Ha Hc. apply Hag; [|done]. simpl. apply elem_of_app. by left.
  - apply IH; [done|]. intros s1 caps1 Hs1. by apply Hk.
Qed.

Lemma search_from_agree r s :
  agree r s → search_from T r s = search_from T' r s.
Proof.
  induction s as [|c s IH]; intros Hag; simpl; unfold match_here.
  - by rewrite (matches_agree r [] [] _ (λ _ caps, Some caps)).
  - rewrite (matches_agree r (c :: s) [] _ (λ _ caps, Some caps)) by done.
    rewrite IH; [done|]. apply (agree_suffix _ (c :: s)); [|done].
    by apply suffix_cons_r.
Qed.

End Agreement.

(** Tables that are faithful to ASCII find, with an ASCII pattern in an
    ASCII text, what the ASCII tables find. *)
Lemma search_ascii T r text :
  ascii_faithful T →
  ascii_regex r = true → ascii_str text = true →
  search T r text = search ascii_tables r text.
Proof.
  intros HT Hr Ht. apply search_from_agree.
  intros a c Ha Hc.
  assert (c < 128)%N as Hc128.
  { unfold ascii_str in Ht. rewrite forallb_forall in Ht.
    apply N.ltb_lt, Ht. by apply list_elem_of_In. }
  assert (ascii_charset a = true) as Ha128.
  { clear -Hr Ha. induction r; simpl in *;
      try (apply list_elem_of_singleton in Ha as ->; done);
      try (apply andb_true_iff in Hr as [??];
           apply elem_of_app in Ha as [?|?]; auto); auto.
    by apply elem_of_nil in Ha. }
  destruct (HT c Hc128) as (Hs & Hd & Hi).
  destruct a as [p| |]; simpl; [|done..].
  apply Hi. by apply N.ltb_lt.
Qed.

End reFacts.

(* ===================================================================== *)
(** * Facts: the command matcher *)
(* ===================================================================== *)

Module MatcherFacts.
Import PowerPointControllerV53.
Local Open Scope str_scope.

(** ** The compiled patterns *)

Lemma pattern_entries_check P supported :
  (∀ lang, catalog_check P lang = true) →
  Forall (λ e, ∃ p, compile_entry e = Some p ∧ P p = true)
         (pattern_entries supported).
Proof.
  intros Hcheck. apply Forall_forall. intros [[c lang] pattern] He.
  apply list_elem_of_In in He. unfold pattern_entries in He.
  apply in_flat_map in He as (entry & Hentry & He).
  apply in_flat_map in He as (lang' & _ & He).
  apply in_map_iff in He as (pattern' & [= <- <- <-] & Hp).
  specialize (Hcheck lang'). unfold catalog_check in Hcheck.
  rewrite forallb_forall in Hcheck. specialize (Hcheck _ Hentry).
  rewrite forallb_forall in Hcheck. specialize (Hcheck _ Hp).
  destruct (compile_entry _) as [p|]; [|done]. by exists p.
Qed.

(** Every pattern of the catalog compiles, in every language. *)
Lemma catalog_compiles lang : catalog_check (λ _, true) lang = true.
Proof. destruct lang; by vm_compute. Qed.

Lemma _compile_patterns_total config : is_Some (_compile_patterns config).
Proof.
  apply mapM_is_Some.
  eapply Forall_impl; [apply (pattern_entries_check (λ _, true)),
                        catalog_compiles|].
  intros e (p & Hp & _). by exists p.
Qed.

Lemma init_total config : is_Some (init config).
Proof.
  unfold init. destruct (_compile_patterns_total config) as [ps ->].
  by eexists.
Qed.

Lemma init_config config self : init config = Some self → PowerPointControllerV53.config self = config.
Proof.
  unfold init. destruct (_compile_patterns config); [|done]. by intros [= <-].
Qed.

Lemma compiled_check P config patterns :
  (∀ lang, catalog_check P lang = true) →
  _compile_patterns config = Some patterns →
  Forall (λ p, P p = true) patterns.
Proof.
  intros Hcheck Hc. apply mapM_Some in Hc.
  pose proof (pattern_entries_check P (SUPPORTED_LANGUAGES config) Hcheck) as He.
  induction Hc as [|e p es ps Hep _ IH]; [constructor|].
  apply Forall_cons in He as [(p' & Hp' & HP) He].
  constructor; [|by apply IH]. congruence.
Qed.

Lemma init_check P config self :
  (∀ lang, catalog_check P lang = true) →
  init config = Some self →
  Forall (λ p, P p = true) (patterns self).
Proof.
  unfold init. intros Hcheck.
  destruct (_compile_patterns config) as [ps|] eqn:Hc; [|done].
  intros [= <-]. simpl. by eapply compiled_check.
Qed.

(** The patterns are registered in the order of the catalog: command
    by command, and for each command language by language. *)
Lemma compiled_in_catalog_order config self :
  init config = Some self →
  map (λ p, (cmd p, language p)) (patterns self)
    = map (λ e : str * Language * str, e.1)
        (pattern_entries (SUPPORTED_LANGUAGES config)).
Proof.
  unfold init. destruct (_compile_patterns config) as [ps|] eqn:Hc; [|done].
  intros [= <-]. simpl. apply mapM_Some in Hc.
  induction Hc as [|[[c lang] pattern] p es ps Hep _ IH]; [done|].
  simpl. rewrite IH. f_equal. simpl in Hep.
  destruct (re.compile pattern); [|done]. by injection Hep as <-.
Qed.

(** In the catalog, a pattern that captures a number ends in [(\\d+)],
    and belongs to a parametric command. *)
Lemma catalog_numbers lang :
  catalog_check
    (λ p, implb (is_regex p)
            (re.ends_in_number (pattern_re p) && parametric (cmd p)))
    lang = true.
Proof. destruct lang; by vm_compute. Qed.

(** ** The regex stage *)

Section Stages.

Variable T : re.tables.
Variable partial_ratio : str → str → Z.

Abbreviation regex_stage := (regex_stage T).
Abbreviation fuzzy_stage := (fuzzy_stage partial_ratio).
Abbreviation match_command := (match_command T partial_ratio).
Abbreviation first_match := (first_match T).

Lemma regex_stage_first patterns text lang p m :
  first_match patterns text lang p m →
  regex_stage patterns text lang = Some (regex_result p m).
Proof.
  intros (before & after & -> & Hbefore & Hlang & Hm).
  induction before as [|q before IH]; simpl.
  - rewrite bool_decide_eq_true_2 by done. simpl. by rewrite Hm.
  - case_bool_decide as Hq; simpl.
    + rewrite (Hbefore q) by (by left || done).
      apply IH. intros q' Hq'. apply Hbefore. by right.
    + apply IH. intros q' Hq'. apply Hbefore. by right.
Qed.

Lemma regex_stage_Some patterns text lang result :
  regex_stage patterns text lang = Some result →
  ∃ p m, first_match patterns text lang p m ∧ result = regex_result p m.
Proof.
  induction patterns as [|q patterns IH]; simpl; [done|].
  case_bool_decide as Hq; simpl.
  - destruct (re.search T (pattern_re q) text) as [m|] eqn:Hm.
    + intros [= <-]. exists q, m. split; [|done].
      exists [], patterns. split; [done|]. split; [|done].
      intros q' Hq'. by apply elem_of_nil in Hq'.
    + intros (p & m & (before & after & -> & Hb & Hl & Hs) & ->)%IH.
      exists p, m. split; [|done]. exists (q :: before), after.
      split; [done|]. split; [|done].
      intros q' [->|Hq']%elem_of_cons; [done|]. by apply Hb.
  - intros (p & m & (before & after & -> & Hb & Hl & Hs) & ->)%IH.
    exists p, m. split; [|done]. exists (q :: before), after.
    split; [done|]. split; [|done].
    intros q' [->|Hq']%elem_of_cons; [done|]. by apply Hb.
Qed.

Lemma regex_stage_None patterns text lang :
  regex_stage patterns text lang = None ↔
  ∀ q, q ∈ patterns → language q = lang →
       re.search T (pattern_re q) text = None.
Proof.
  induction patterns as [|q patterns IH]; simpl.
  - split; [|done]. intros _ q Hq. by apply elem_of_nil in Hq.
  - case_bool_decide as Hq; simpl.
    + destruct (re.search T (pattern_re q) text) as [m|] eqn:Hm.
      * split; [done|]. intros H. rewrite (H q) in Hm; [done|by left|done].
      * rewrite IH. split.
        -- intros H q' [->|Hq']%elem_of_cons; [done|]. by apply H.
        -- intros H q' Hq'. apply H. by right.
    + rewrite IH. split.
      * intros H q' [->|Hq']%elem_of_cons; [done|]. by apply H.
      * intros H q' Hq'. apply H. by right.
Qed.

(** ** The fuzzy stage *)

Lemma fuzzy_stage_best commands text lang best :
  fuzzy_stage commands text lang best = best ∨
  ∃ entry target,
    entry ∈ commands ∧ has_anchor lang entry ∧
    fuzzy_target entry.2 = Some target ∧
    fuzzy_stage commands text lang best
      = (Some entry.1, partial_ratio target text) ∧
    best.2 < partial_ratio target text.
Proof.
  revert best; induction commands as [|[c data] commands IH]; intros best;
    simpl; [by left|].
  assert (∀ best',
    (best' = best ∨
     ∃ target, is_Some (triggers_of data lang) ∧
               fuzzy_target data = Some target ∧ cps target ≠ [] ∧
               best' = (Some c, partial_ratio target text) ∧
               best.2 < partial_ratio target text) →
    fuzzy_stage commands text lang best' = best ∨
    ∃ entry target,
      entry ∈ (c, data) :: commands ∧ has_anchor lang entry ∧
      fuzzy_target entry.2 = Some target ∧
      fuzzy_stage commands text lang best'
        = (Some entry.1, partial_ratio target text) ∧
      best.2 < partial_ratio target text) as Hstep.
  { intros best' Hbest'.
    destruct (IH best') as [->|(entry & target & He & Ha & Ht & -> & Hlt)].
    - destruct Hbest' as [->|(target & Htr & Ht & Hne & -> & Hlt)];
        [by left|right].
      exists (c, data), target. split; [by left|].
      split; [split; [done|by exists target]|done].
    - right. exists entry, target. split; [by right|].
      split; [done|]. split; [done|]. split; [done|].
      destruct Hbest' as [->|(target' & _ & _ & _ & -> & Hlt')]; [done|].
      simpl in Hlt. lia. }
  destruct (triggers_of data lang) as [ps|] eqn:Htr; [|apply Hstep; by left].
  destruct (fuzzy_target data) as [target|] eqn:Ht; [|apply Hstep; by left].
  case_bool_decide as Hne; [apply Hstep; by left|].
  destruct (Z.ltb_spec best.2 (partial_ratio target text));
    [|apply Hstep; by left].
  apply Hstep. right. exists target. by repeat split.
Qed.

(** In the catalog no command with an anchor is parametric. *)
Lemma anchored_not_parametric lang entry :
  entry ∈ MULTILANG_COMMANDS → has_anchor lang entry →
  parametric entry.1 = false.
Proof.
  intros He (_ & target & Ht & Hne).
  assert (forallb
            (λ entry : str * CommandData,
               match fuzzy_target entry.2 with
               | Some target =>
                 bool_decide (cps target = []) || negb (parametric entry.1)
               | None => true
               end) MULTILANG_COMMANDS = true) as Hall by (by vm_compute).
  rewrite forallb_forall in Hall.
  specialize (Hall entry (proj1 (list_elem_of_In _ _) He)).
  rewrite Ht in Hall. rewrite bool_decide_eq_false_2 in Hall by done.
  simpl in Hall. by apply negb_true_iff.
Qed.

(** ** The two stages together *)

Lemma match_command_regex self text lang p m :
  first_match (patterns self) text lang p m →
  match_command self text lang = regex_result p m.
Proof.
  intros H. unfold PowerPointControllerV53.match_command.
  by rewrite (regex_stage_first _ _ _ _ _ H).
Qed.

(** What [match_command] returns, by the stage that returns it. *)
Lemma match_command_cases self text lang :
  (∃ p m, first_match (patterns self) text lang p m ∧
          match_command self text lang = regex_result p m) ∨
  (regex_stage (patterns self) text lang = None ∧
   ∃ best_cmd best_score,
     fuzzy_stage MULTILANG_COMMANDS text lang (None, 0) = (best_cmd, best_score) ∧
     ((FUZZY_THRESHOLD (config self) ≤ best_score ∧
       match_command self text lang = (best_cmd, None, best_score, Some "Fuzzy")) ∨
      (best_score < FUZZY_THRESHOLD (config self) ∧
       match_command self text lang = (None, None, 0, None)))).
Proof.
  unfold PowerPointControllerV53.match_command.
  destruct (regex_stage (patterns self) text lang) as [result|] eqn:Hr.
  - left. apply regex_stage_Some in Hr as (p & m & Hf & ->). by exists p, m.
  - right. split; [done|].
    destruct (fuzzy_stage MULTILANG_COMMANDS text lang (None, 0))
      as [best_cmd best_score].
    exists best_cmd, best_score. split; [done|].
    destruct (Z.leb_spec (FUZZY_THRESHOLD (config self)) best_score);
      [by left|by right].
Qed.

End Stages.

(** ** ASCII texts *)

(** With tables faithful to ASCII, an ASCII text and ASCII patterns for
    the language, the matcher returns what it returns with the tables of
    ASCII. *)
Lemma regex_stage_ascii T patterns text lang :
  re.ascii_faithful T →
  re.ascii_str text = true →
  forallb (λ p, implb (bool_decide (language p = lang))
                  (re.ascii_regex (pattern_re p))) patterns = true →
  regex_stage T patterns text lang
    = regex_stage re.ascii_tables patterns text lang.
Proof.
  intros HT Ht. induction patterns as [|q patterns IH]; simpl; [done|].
  intros [Hq Hps]%andb_true_iff. case_bool_decide as Hl; simpl.
  - simpl in Hq. rewrite (reFacts.search_ascii T) by done.
    destruct (re.search re.ascii_tables (pattern_re q) text); [done|].
    by apply IH.
  - by apply IH.
Qed.

Lemma match_command_ascii T partial_ratio self text lang :
  re.ascii_faithful T →
  re.ascii_str text = true →
  forallb (λ p, implb (bool_decide (language p = lang))
                  (re.ascii_regex (pattern_re p))) (patterns self) = true →
  match_command T partial_ratio self text lang
    = match_command re.ascii_tables partial_ratio self text lang.
Proof.
  intros HT Ht Hp. unfold match_command.
  by rewrite (regex_stage_ascii T) by done.
Qed.

Lemma ascii_tables_faithful : re.ascii_faithful re.ascii_tables.
Proof. by intros c Hc. Qed.

End MatcherFacts.

(* ===================================================================== *)
(** * The command matcher: regex first, fuzzy second *)
(* ===================================================================== *)

Module MatcherSpec.
Import PowerPointControllerV53 MatcherFacts.
Local Open Scope str_scope.

(** The English patterns of the catalog are ASCII. *)
Lemma english_patterns_ascii lang :
  catalog_check
    (λ p, implb (bool_decide (language p = ENGLISH))
            (re.ascii_regex (pattern_re p))) lang = true.
Proof. destruct lang; by vm_compute. Qed.

Lemma match_command_english T partial_ratio config self text :
  re.ascii_faithful T →
  re.ascii_str text = true →
  init config = Some self →
  match_command T partial_ratio self text ENGLISH
    = match_command re.ascii_tables partial_ratio self text ENGLISH.
Proof.
  intros HT Ht Hinit. apply match_command_ascii; [done..|].
  apply forallb_forall. intros p Hp.
  pose proof (init_check _ _ _ english_patterns_ascii Hinit) as Hall.
  rewrite Forall_forall in Hall. apply Hall. by apply list_elem_of_In.
Qed.

(** The controller of a configuration with the default languages. *)
Lemma init_default_languages config :
  SUPPORTED_LANGUAGES config = SUPPORTED_LANGUAGES default_config →
  ∃ patterns,
    _compile_patterns default_config = Some patterns ∧
    init config = Some (PowerPointControllerV53.mk config patterns).
Proof.
  intros Hs. destruct (_compile_patterns_total default_config) as [ps Hps].
  exists ps. split; [done|]. unfold init, _compile_patterns in *.
  by rewrite Hs, Hps.
Qed.

(** ** C2 *)

(** The text holds "next", the first English pattern of the catalog: the
    regex stage resolves it, under every threshold and scorer. *)
Lemma please_next_at_regex_stage T partial_ratio threshold self :
  re.ascii_faithful T →
  init (with_fuzzy_threshold default_config threshold) = Some self →
  match_command T partial_ratio self please_next ENGLISH
    = (Some "next_slide", None, 100, Some "Regex").
Proof.
  intros HT Hinit.
  rewrite (match_command_english T _ _ _ please_next HT eq_refl Hinit).
  destruct (init_default_languages (with_fuzzy_threshold default_config threshold))
    as (ps & Hps & Hinit'); [done|].
  rewrite Hinit in Hinit'. injection Hinit' as ->.
  vm_compute in Hps. injection Hps as <-. by vm_compute.
Qed.

(** C2, amended.  With the default catalog and languages and any fuzzy
    threshold (80, 99 or another), [match_command] resolves "can you
    please go to the next one" in English at the regex stage: the first
    English pattern, "next", occurs in the text, and the result is
    [("next_slide", None, 100, "Regex")] whatever the scorer.  The fuzzy
    stage is not reached, and the threshold rejects nothing. *)
Theorem C2_please_next_is_a_regex_match
    (T : re.tables) (partial_ratio : str → str → Z) (threshold : Z) :
  re.ascii_faithful T →
  ∃ self,
    init (with_fuzzy_threshold default_config threshold) = Some self ∧
    match_command T partial_ratio self please_next ENGLISH
      = (Some "next_slide", None, 100, Some "Regex").
Proof.
  intros HT.
  destruct (init_total (with_fuzzy_threshold default_config threshold))
    as [self Hinit].
  exists self. split; [done|].
  by apply (please_next_at_regex_stage T partial_ratio threshold).
Qed.

Lemma C2_please_next_is_a_regex_match_witness :
  ∃ self,
    init (with_fuzzy_threshold default_config 99) = Some self ∧
    match_command re.ascii_tables occurs_ratio self please_next ENGLISH
      = (Some "next_slide", None, 100, Some "Regex").
Proof.
  apply (C2_please_next_is_a_regex_match re.ascii_tables occurs_ratio 99).
  apply ascii_tables_faithful.
Defined.

(** C2, as stated, fails for every scorer: at threshold 80 the text is
    not resolved by the fuzzy stage, and at threshold 99 it is not
    rejected. *)
Lemma C2_counterexample_regex_stage_resolves :
  (¬ ∃ T partial_ratio, re.ascii_faithful T ∧ C2_as_stated T partial_ratio) ∧
  match_command re.ascii_tables occurs_ratio
    (PowerPointControllerV53.mk (with_fuzzy_threshold default_config 99)
       (patterns default_controller))
    please_next ENGLISH
  = (Some "next_slide", None, 100, Some "Regex").
Proof.
  split; [|by vm_compute].
  intros (T & partial_ratio & HT & _ & self & Hinit & Hreject).
  rewrite (please_next_at_regex_stage T partial_ratio 99 self HT Hinit)
    in Hreject.
  discriminate.
Qed.

(** ** C3 *)

(** C3.  Whatever the patterns, the tables, the scorer and the
    threshold: a result of [match_command] with method "Fuzzy" carries no
    parameter and no parametric command; a result that names a parametric
    command has method "Regex".  jump_slide is parametric. *)
Theorem C3_fuzzy_never_parametric
    (T : re.tables) (partial_ratio : str → str → Z)
    (self : PowerPointControllerV53.t) (text : str) (lang : Language)
    (command params : option str) (score : Z) (method : option str) :
  match_command T partial_ratio self text lang
    = (command, params, score, method) →
  (method = Some "Fuzzy" →
   params = None ∧ ∀ c, command = Some c → parametric c = false) ∧
  (∀ c, command = Some c → parametric c = true → method = Some "Regex") ∧
  parametric "jump_slide" = true.
Proof.
  intros Hm.
  assert (method = Some "Fuzzy" →
          params = None ∧ ∀ c, command = Some c → parametric c = false) as Hfuzzy.
  { destruct (match_command_cases T partial_ratio self text lang)
      as [(p & m & _ & Hr)|(_ & best_cmd & best_score & Hf & [[_ Hr]|[_ Hr]])];
      rewrite Hr in Hm.
    - unfold regex_result in Hm. by injection Hm as <- <- <- <-.
    - injection Hm as <- <- <- <-. intros _. split; [done|]. intros c ->.
      destruct (fuzzy_stage_best partial_ratio MULTILANG_COMMANDS text lang
                  (None, 0)) as [Hb|(entry & target & He & Ha & _ & Hb & _)];
        rewrite Hb in Hf; [done|].
      injection Hf as <- _. by eapply anchored_not_parametric.
    - by injection Hm as <- <- <- <-. }
  split; [done|]. split; [|by vm_compute].
  intros c -> Hc.
  destruct (match_command_cases T partial_ratio self text lang)
    as [(p & m & _ & Hr)|(_ & best_cmd & best_score & Hf & [[_ Hr]|[_ Hr]])];
    rewrite Hr in Hm.
  - unfold regex_result in Hm. by injection Hm as _ _ _ <-.
  - injection Hm as -> <- <- <-.
    destruct (Hfuzzy eq_refl) as [_ Hnp]. rewrite (Hnp c eq_refl) in Hc. done.
  - by injection Hm.
Qed.

Lemma init_default_controller : init default_config = Some default_controller.
Proof.
  unfold default_controller.
  by destruct (init_total default_config) as [self ->].
Qed.

Lemma C3_fuzzy_never_parametric_witness :
  (Some "Fuzzy" = Some "Fuzzy" →
   @None str = None ∧ ∀ c, Some "start_show" = Some c → parametric c = false) ∧
  (∀ c, Some "start_show" = Some c → parametric c = true →
        Some "Fuzzy" = Some "Regex") ∧
  parametric "jump_slide" = true.
Proof.
  apply (C3_fuzzy_never_parametric re.ascii_tables occurs_ratio
           default_controller "start" ENGLISH
           (Some "start_show") None 100 (Some "Fuzzy")).
  by vm_compute.
Defined.

(** ** C6 *)

(** A way to show a first match: the index of the pattern. *)
Lemma first_match_at T patterns text lang k p m :
  patterns !! k = Some p →
  forallb (λ q, negb (bool_decide (language q = lang)) ||
                bool_decide (re.search T (pattern_re q) text = None))
          (take k patterns) = true →
  language p = lang →
  re.search T (pattern_re p) text = Some m →
  first_match T patterns text lang p m.
Proof.
  intros Hk Hbefore Hl Hm. exists (take k patterns), (drop (S k) patterns).
  split; [|split; [|done]].
  - rewrite <- (take_drop_middle _ _ _ Hk) at 1. done.
  - intros q Hq Hql. rewrite forallb_forall in Hbefore.
    specialize (Hbefore q (proj1 (list_elem_of_In _ _) Hq)).
    apply orb_true_iff in Hbefore as [Hn|Hs].
    + apply negb_true_iff, bool_decide_eq_false in Hn. done.
    + by apply bool_decide_eq_true in Hs.
Qed.

(** C6.  For every text and language, [match_command] returns, for the
    first pattern of [self.patterns] that is of the language and whose
    regex is found somewhere in the text, ignoring case, the command of
    that pattern with score 100 and method "Regex"; the parameter is the
    first group of the match, one decimal digit or more, when the
    pattern is parametric, and [None] when it is not.  The patterns stand
    in the order of the catalog.  With the default configuration,
    "jump to slide 5" in English gives [("jump_slide", "5", 100, "Regex")]
    and "next" gives [("next_slide", None, 100, "Regex")]. *)
Theorem C6_regex_stage_first_match :
  (∀ T partial_ratio config self text lang p m,
     init config = Some self →
     first_match T (patterns self) text lang p m →
     match_command T partial_ratio self text lang
       = (Some (cmd p), (if is_regex p then re.group1 m else None),
          100, Some "Regex") ∧
     (is_regex p = true →
      ∃ digits, re.group1 m = Some (Str digits) ∧ digits ≠ [] ∧
                Forall (λ c, re.digit T c = true) digits)) ∧
  (∀ config self,
     init config = Some self →
     map (λ p, (cmd p, language p)) (patterns self)
       = map (λ e : str * Language * str, e.1)
           (pattern_entries (SUPPORTED_LANGUAGES config))) ∧
  (∀ T partial_ratio,
     re.ascii_faithful T →
     ∃ self,
       init default_config = Some self ∧
       match_command T partial_ratio self "jump to slide 5" ENGLISH
         = (Some "jump_slide", Some "5", 100, Some "Regex") ∧
       match_command T partial_ratio self "next" ENGLISH
         = (Some "next_slide", None, 100, Some "Regex")).
Proof.
  split; [|split].
  - intros T partial_ratio config self text lang p m Hinit Hfirst.
    split; [by apply match_command_regex|].
    intros Hp. destruct Hfirst as (before & after & Hps & _ & _ & Hm).
    pose proof (init_check _ _ _ catalog_numbers Hinit) as Hall.
    rewrite Forall_forall in Hall. specialize (Hall p).
    rewrite Hp in Hall. simpl in Hall.
    apply andb_true_iff in Hall as [Hshape _].
    + by eapply reFacts.search_ends_in_number.
    + rewrite Hps. apply elem_of_app. right. by left.
  - apply compiled_in_catalog_order.
  - intros T partial_ratio HT. exists default_controller.
    split; [apply init_default_controller|].
    rewrite (match_command_english T _ _ _ "jump to slide 5" HT eq_refl
               init_default_controller).
    rewrite (match_command_english T _ _ _ "next" HT eq_refl
               init_default_controller).
    split; by vm_compute.
Qed.

Lemma C6_regex_stage_first_match_witness :
  match_command re.ascii_tables occurs_ratio default_controller
    "Now SLIDE  12, please" ENGLISH
    = (Some "jump_slide", Some "12", 100, Some "Regex") ∧
  (true = true →
   ∃ digits, Some (Str [49%N; 50%N]) = Some (Str digits) ∧ digits ≠ [] ∧
             Forall (λ c, re.digit re.ascii_tables c = true) digits).
Proof.
  apply (proj1 C6_regex_stage_first_match re.ascii_tables occurs_ratio
           default_config default_controller "Now SLIDE  12, please" ENGLISH
           (mkCompiledPattern
              (default re.Eps
                 (re.compile "(?:jump to|go to|slide|page)\s*(\d+)"))
              "jump_slide" ENGLISH true)
           [(1%nat, [49%N; 50%N])]).
  - apply init_default_controller.
  - apply (first_match_at _ _ _ _ 34); by vm_compute.
Defined.

End MatcherSpec.

(* ===================================================================== *)
(** * More of the input buffer *)
(* ===================================================================== *)

Module InputBufferMore.
Import PriorityQueue PriorityQueueFacts OptimizedInputBuffer InputBufferFacts.
Local Open Scope str_scope.

(** X1.  [flush] discards every queued entry and touches nothing else:
    the gate clock, the debounce interval and the capacity stay; a
    [get_next] after it returns [None] at any time, and the next
    [add_input] is stored alone. *)
Theorem flush_discards_everything_only
    (b : OptimizedInputBuffer.t) (now : reading) (command : str)
    (priority : Z) (t t' : reading) :
  items (queue (flush b)) = [] ∧
  last_execution_time (flush b) = last_execution_time b ∧
  debounce_ms (flush b) = debounce_ms b ∧
  buffer_size (flush b) = buffer_size b ∧
  maxsize (queue (flush b)) = maxsize (queue b) ∧
  get_next (flush b) now = (None, flush b) ∧
  items (queue (add_input (flush b) command priority t t').2)
    = [(priority, t, command)].
Proof.
  pose proof (flush_empties b) as He.
  split; [done|]. split; [done|]. split; [done|]. split; [done|].
  split; [apply flush_loop_maxsize|]. split.
  - unfold get_next. destruct (gate_closed _ _); [done|].
    destruct (get_nowait (queue (flush b))) as [[x q]|] eqn:Hg; [|done].
    apply get_nowait_Some in Hg as (_ & Hp). rewrite He in Hp. done.
  - generalize dependent (flush b). intros fb He.
    unfold add_input, put_nowait, full, qsize. rewrite He.
    change (Z.of_nat (length [])) with 0.
    by destruct (Z.ltb_spec 0 (maxsize (queue fb))),
      (Z.leb_spec (maxsize (queue fb)) 0); try lia; simpl; rewrite ?He.
Qed.

(** X2.  A buffer built with [buffer_size >= 1] never holds more than
    [buffer_size] entries, whatever calls are made on it. *)
Theorem reachable_within_capacity
    (buffer_size : Z) (debounce_ms : float) (b : OptimizedInputBuffer.t) :
  1 ≤ buffer_size →
  reachable buffer_size debounce_ms b →
  qsize (queue b) ≤ buffer_size.
Proof.
  intros Hsz Hr.
  destruct (reachable_buffer_size _ _ _ Hr) as [Hbs _].
  destruct (reachable_bounded _ _ _ Hr) as [_ Hb].
  rewrite <- Hbs. apply Hb. lia.
Qed.

Lemma reachable_within_capacity_witness :
  qsize (queue (foldl exec (init 2 50)
                  [AddInput "next" 0 (at_seconds 1) (at_seconds 1);
                   AddInput "back" 1 (at_seconds 2) (at_seconds 2);
                   AddInput "zoom" 2 (at_seconds 3) (at_seconds 3);
                   AddInput "pen" 3 (at_seconds 4) (at_seconds 4)])) ≤ 2.
Proof.
  apply (reachable_within_capacity 2 50).
  - lia.
  - apply reachable_foldl, reach_init.
Defined.

(** X3.  A buffer built with [buffer_size <= 0] has no bound: its queue
    is never full, and [add_input] stores every entry, stamped with the
    first clock reading, without removing any. *)
Theorem nonpositive_size_is_unbounded
    (buffer_size : Z) (debounce_ms : float) (b : OptimizedInputBuffer.t)
    (command : str) (priority : Z) (now now' : reading) :
  buffer_size ≤ 0 →
  reachable buffer_size debounce_ms b →
  full (queue b) = false ∧
  (add_input b command priority now now').1 = Return true ∧
  items (queue (add_input b command priority now now').2)
    = items (queue b) ++ [(priority, now, command)].
Proof.
  intros Hsz Hr.
  destruct (reachable_buffer_size _ _ _ Hr) as [Hbs _].
  destruct (reachable_bounded _ _ _ Hr) as [Hm _].
  assert (full (queue b) = false) as Hf.
  { unfold full. destruct (Z.ltb_spec 0 (maxsize (queue b))); [lia|done]. }
  split; [done|]. unfold add_input, put_nowait. by rewrite Hf.
Qed.

Lemma nonpositive_size_is_unbounded_witness :
  full (queue (foldl exec (init 0 50)
                 [AddInput "next" 0 (at_seconds 1) (at_seconds 1);
                 AddInput "back" 1 (at_seconds 2) (at_seconds 2)])) = false ∧
  (add_input (foldl exec (init 0 50)
                [AddInput "next" 0 (at_seconds 1) (at_seconds 1);
                 AddInput "back" 1 (at_seconds 2) (at_seconds 2)])
     "zoom" 2 (at_seconds 3) (at_seconds 4)).1 = Return true ∧
  items (queue (add_input (foldl exec (init 0 50)
                             [AddInput "next" 0 (at_seconds 1) (at_seconds 1);
                 AddInput "back" 1 (at_seconds 2) (at_seconds 2)])
                  "zoom" 2 (at_seconds 3) (at_seconds 4)).2)
    = items (queue (foldl exec (init 0 50)
                      [AddInput "next" 0 (at_seconds 1) (at_seconds 1);
                 AddInput "back" 1 (at_seconds 2) (at_seconds 2)]))
      ++ [(2, at_seconds 3, "zoom")].
Proof.
  apply (nonpositive_size_is_unbounded 0 50).
  - lia.
  - apply reachable_foldl, reach_init.
Defined.

(** X4.  [add_input] always admits the new entry, also when it is
    smaller than every entry queued: on a queue that is not full it is
    appended and nothing leaves; on a full queue one of the entries that
    were queued, a least one, leaves for it, and the number of entries
    stays. *)
Theorem add_input_admits_the_new_entry
    (buffer_size : Z) (debounce_ms : float) (b : OptimizedInputBuffer.t)
    (command : str) (priority : Z) (now now' : reading) :
  reachable buffer_size debounce_ms b →
  let b' := (add_input b command priority now now').2 in
  (full (queue b) = false →
   items (queue b') = items (queue b) ++ [(priority, now, command)]) ∧
  (full (queue b) = true →
   (priority, now', command) ∈ items (queue b') ∧
   qsize (queue b') = qsize (queue b) ∧
   ∃ evicted,
     evicted ∈ items (queue b) ∧
     (∀ y, y ∈ items (queue b) → item_le evicted y = true) ∧
     items (queue b) ++ [(priority, now', command)]
       ≡ₚ evicted :: items (queue b')).
Proof.
  intros Hr b'. split.
  - intros Hf. unfold b', add_input, put_nowait. by rewrite Hf.
  - intros Hf.
    destruct (add_input_full_evicts_least b command priority now now'
                (reachable_bounded _ _ _ Hr) Hf) as (x & r & Hp & Hleast & Ha).
    unfold b'. rewrite Ha. simpl.
    pose proof (pop_min_perm _ _ _ Hp) as Hperm.
    pose proof (pop_min_length _ _ _ Hp) as Hlen.
    split; [apply elem_of_app; right; by left|]. split.
    + unfold qsize. simpl. rewrite length_app. simpl. lia.
    + exists x. split; [rewrite Hperm; by left|]. split; [done|].
      by rewrite Hperm.
Qed.

Lemma add_input_admits_the_new_entry_witness :
  let b := foldl exec (init 2 50)
             [AddInput "next" 5 (at_seconds 1) (at_seconds 1);
              AddInput "back" 7 (at_seconds 2) (at_seconds 2)] in
  let b' := (add_input b "zoom" (-3) (at_seconds 3) (at_seconds 4)).2 in
  (full (queue b) = false →
   items (queue b') = items (queue b) ++ [(-3, at_seconds 3, "zoom")]) ∧
  (full (queue b) = true →
   (-3, at_seconds 4, "zoom") ∈ items (queue b') ∧
   qsize (queue b') = qsize (queue b) ∧
   ∃ evicted,
     evicted ∈ items (queue b) ∧
     (∀ y, y ∈ items (queue b) → item_le evicted y = true) ∧
     items (queue b) ++ [(-3, at_seconds 4, "zoom")]
       ≡ₚ evicted :: items (queue b')).
Proof.
  apply (add_input_admits_the_new_entry 2 50).
  apply reachable_foldl, reach_init.
Defined.

(** X5.  Two [get_next] calls that both return a value, with no
    [add_input] between them, return entries in ascending order of
    [(priority, arrival, command)]: the first has the lower or the same
    priority, and with the same priority the earlier or the same
    arrival.  Each call removes exactly the entry it returns. *)
Theorem get_next_twice_ascending
    (b : OptimizedInputBuffer.t) (now1 now2 : reading) (c1 c2 : str) :
  (get_next b now1).1 = Some c1 →
  (get_next (get_next b now1).2 now2).1 = Some c2 →
  ∃ x y,
    command_of x = c1 ∧ command_of y = c2 ∧
    items (queue b)
      ≡ₚ x :: y :: items (queue (get_next (get_next b now1).2 now2).2) ∧
    priority_of x ≤ priority_of y ∧
    (priority_of x = priority_of y →
     (seconds (arrival_of x) <=? seconds (arrival_of y))%float = true).
Proof.
  intros H1 H2.
  assert (∀ b now c, (get_next b now).1 = Some c →
            ∃ x, command_of x = c ∧
                 pop_min (items (queue b))
                   = Some (x, items (queue (get_next b now).2))) as Hstep.
  { clear. intros b now c. unfold get_next.
    destruct (gate_closed b now); [done|].
    unfold get_nowait.
    destruct (pop_min (items (queue b))) as [[[[p a] c'] r]|]; [|done].
    simpl. intros [= ->]. by exists (p, a, c). }
  destruct (Hstep _ _ _ H1) as (x & Hx & Hp1).
  destruct (Hstep _ _ _ H2) as (y & Hy & Hp2).
  exists x, y. split; [done|]. split; [done|].
  pose proof (pop_min_perm _ _ _ Hp1) as Hperm1.
  pose proof (pop_min_perm _ _ _ Hp2) as Hperm2.
  split; [by rewrite Hperm1, Hperm2|].
  assert (item_le x y = true) as Hle.
  { eapply pop_min_least; [exact Hp1|]. rewrite Hperm1. right.
    rewrite Hperm2. by left. }
  apply item_le_iff in Hle.
  destruct (FloatFacts.reading_tests (arrival_of x) (arrival_of y))
    as (c & Hlt & Heq & -> & _).
  rewrite Hlt, Heq in Hle. split; [lia|]. intros Hp.
  destruct Hle as [?|[_ [Hc|[Hc _]]]]; [lia| |];
    apply bool_decide_eq_true in Hc; subst c; by apply bool_decide_eq_true.
Qed.

(** Three entries, the one of priority 1 that arrived first served
    first; the calls a second apart, far from the edge of the gate. *)
Lemma get_next_twice_ascending_witness :
  ∃ x y,
    command_of x = "back" ∧ command_of y = "next" ∧
    items (queue (foldl exec (init 10 50)
                    [AddInput "next" 1 (at_seconds 1.0) (at_seconds 1.0);
                     AddInput "zoom" 2 (at_seconds 1.001) (at_seconds 1.001);
                     AddInput "back" 1 (at_seconds 0.999) (at_seconds 0.999)]))
      ≡ₚ x :: y ::
         items (queue (get_next
                         (get_next
                            (foldl exec (init 10 50)
                               [AddInput "next" 1 (at_seconds 1.0)
                                  (at_seconds 1.0);
                                AddInput "zoom" 2 (at_seconds 1.001)
                                  (at_seconds 1.001);
                                AddInput "back" 1 (at_seconds 0.999)
                                  (at_seconds 0.999)])
                            (at_seconds 2.0)).2 (at_seconds 3.0)).2) ∧
    priority_of x ≤ priority_of y ∧
    (priority_of x = priority_of y →
     (seconds (arrival_of x) <=? seconds (arrival_of y))%float = true).
Proof.
  apply (get_next_twice_ascending _ (at_seconds 2.0) (at_seconds 3.0)
           "back" "next");
    by vm_compute.
Defined.

End InputBufferMore.

(* ===================================================================== *)
(** * More of the language detector *)
(* ===================================================================== *)

Module DetectorMore.
Import MultiLanguageDetector.
Local Open Scope str_scope.

(** The codes of [LANGUAGE_CONFIGS] are the values of [Language], two
    characters each, no two the same. *)
Lemma code_is_value lang : code (LANGUAGE_CONFIGS lang) = Language_value lang.
Proof. by destruct lang. Qed.

Lemma code_inj a b :
  code (LANGUAGE_CONFIGS a) = code (LANGUAGE_CONFIGS b) → a = b.
Proof. destruct a, b; simpl; intros H; by try discriminate H. Qed.

Lemma code_two_characters lang : length (cps (code (LANGUAGE_CONFIGS lang))) = 2%nat.
Proof. by destruct lang. Qed.

Lemma cps_startswith_same_length s p :
  length s = length p → cps_startswith s p = true → s = p.
Proof.
  revert p; induction s as [|x s IH]; intros [|y p]; simpl; try done.
  intros [= Hlen] [Hxy Hrest]%andb_true_iff.
  apply N.eqb_eq in Hxy as ->. f_equal. by apply IH.
Qed.

Lemma cps_startswith_refl s : cps_startswith s s = true.
Proof. induction s as [|x s IH]; simpl; [done|]. by rewrite N.eqb_refl. Qed.

Lemma find_first_supported {A} (f : A → bool) l x :
  x ∈ l → f x = true → (∀ y, y ∈ l → f y = true → y = x) →
  List.find f l = Some x.
Proof.
  induction l as [|a l IH]; intros Hx Hfx Huniq; [by apply elem_of_nil in Hx|].
  simpl. destruct (f a) eqn:Hfa.
  - f_equal. apply Huniq; [by left|done].
  - apply elem_of_cons in Hx as [->|Hx]; [congruence|].
    apply IH; [done..|]. intros y Hy. apply Huniq. by right.
Qed.

Lemma find_none {A} (f : A → bool) l :
  (∀ y, y ∈ l → f y = false) → List.find f l = None.
Proof.
  induction l as [|a l IH]; intros H; simpl; [done|].
  rewrite (H a) by (by left). apply IH. intros y Hy. apply H. by right.
Qed.

Section Detector.

Variable langdetect : str → option str.
Variable isspace : N → bool.

Abbreviation detect := (detect langdetect isspace).
Abbreviation strip := (strip isspace).

(** The language [detect] returns is a supported one or the primary
    one. *)
Lemma detect_language self text :
  (detect self text).1.1 ∈ supported_languages self ∨
  (detect self text).1.1 = primary_language self.
Proof.
  unfold MultiLanguageDetector.detect.
  destruct (_ || _); [by right|].
  destruct (langdetect text) as [detected|]; [|by right].
  destruct (List.find
              (λ lang, bool_decide (code (LANGUAGE_CONFIGS lang) = detected))
              (supported_languages self)) as [lang|] eqn:Hexact.
  - left. apply find_some in Hexact as [Hin _]. by apply list_elem_of_In.
  - destruct (List.find
                (λ lang, startswith (code (LANGUAGE_CONFIGS lang))
                           (str_take 2 detected))
                (supported_languages self)) as [lang|] eqn:Hpartial;
      [|by right].
    left. apply find_some in Hpartial as [Hin _]. by apply list_elem_of_In.
Qed.


(** X7.  A text with fewer than two characters between its leading and
    trailing whitespace (the empty text included) goes to the primary
    language with confidence 0.0: the classifier is not asked, even one
    that would fail or name another language, and [stats] stays. *)
Theorem detect_short_text (self : MultiLanguageDetector.t) (text : str) :
  str_len (strip text) < 2 →
  detect self text = ((primary_language self, 0.0%float), self).
Proof.
  intros Hshort. unfold MultiLanguageDetector.detect.
  destruct (Z.ltb_spec (str_len (strip text)) 2); [|lia].
  by rewrite orb_true_r.
Qed.

(** X8.  When the classifier names the code of a supported language,
    [detect] returns that language with confidence 0.95, wherever the
    language stands in [supported_languages], and counts it in [stats]
    under its code. *)
Theorem detect_exact_code
    (self : MultiLanguageDetector.t) (text : str) (lang : Language) :
  2 ≤ str_len (strip text) →
  lang ∈ supported_languages self →
  langdetect text = Some (code (LANGUAGE_CONFIGS lang)) →
  (detect self text).1 = (lang, 0.95%float) ∧
  stats (detect self text).2 !! code (LANGUAGE_CONFIGS lang)
    = Some (default 0 (stats self !! code (LANGUAGE_CONFIGS lang)) + 1) ∧
  (∀ k, k ≠ code (LANGUAGE_CONFIGS lang) →
        stats (detect self text).2 !! k = stats self !! k).
Proof.
  intros Hlong Hin Hcode. unfold MultiLanguageDetector.detect.
  assert (cps text ≠ []) as Hne.
  { intros He. unfold str_len, MultiLanguageDetector.strip in Hlong.
    rewrite He in Hlong. simpl in Hlong. lia. }
  rewrite bool_decide_eq_false_2 by done.
  destruct (Z.ltb_spec (str_len (strip text)) 2); [lia|]. simpl.
  rewrite Hcode.
  rewrite (find_first_supported _ _ lang); [| done | by apply bool_decide_eq_true | ].
  - simpl. rewrite code_is_value. split; [done|]. split.
    + by rewrite lookup_insert_eq.
    + intros k Hk. by rewrite lookup_insert_ne.
  - intros y _ Hy. apply bool_decide_eq_true in Hy. by apply code_inj.
Qed.

(** X9.  When the classifier names a longer code that no supported
    language has, but whose first two characters are the code of a
    supported language (a regional variant such as zh-cn), [detect]
    returns that language with confidence 0.85, and does not count it
    in [stats]. *)
Theorem detect_regional_variant
    (self : MultiLanguageDetector.t) (text detected : str) (lang : Language) :
  2 ≤ str_len (strip text) →
  lang ∈ supported_languages self →
  langdetect text = Some detected →
  (2 < length (cps detected))%nat →
  str_take 2 detected = code (LANGUAGE_CONFIGS lang) →
  detect self text = ((lang, 0.85%float), self).
Proof.
  intros Hlong Hin Hd Hlen Hprefix. unfold MultiLanguageDetector.detect.
  assert (cps text ≠ []) as Hne.
  { intros He. unfold str_len, MultiLanguageDetector.strip in Hlong.
    rewrite He in Hlong. simpl in Hlong. lia. }
  rewrite bool_decide_eq_false_2 by done.
  destruct (Z.ltb_spec (str_len (strip text)) 2); [lia|]. simpl.
  rewrite Hd. rewrite find_none.
  - rewrite (find_first_supported _ _ lang); [done|done| |].
    + rewrite Hprefix. apply cps_startswith_refl.
    + intros y _ Hy. apply code_inj. rewrite <- Hprefix.
      destruct (code (LANGUAGE_CONFIGS y)) as [cs] eqn:Hcs.
      unfold str_take. f_equal. unfold startswith in Hy. simpl in Hy.
      apply cps_startswith_same_length; [|done].
      pose proof (code_two_characters y) as Hy2. rewrite Hcs in Hy2.
      simpl in Hy2. rewrite Hy2, length_take. lia.
  - intros y _. apply bool_decide_eq_false. intros Hy.
    rewrite <- Hy in Hlen. rewrite code_two_characters in Hlen. lia.
Qed.

End Detector.

Lemma detect_short_text_witness :
  detect sample_langdetect ascii_isspace sample_detector "   x  "
    = ((primary_language sample_detector, 0.0%float), sample_detector).
Proof.
  apply (detect_short_text sample_langdetect ascii_isspace). by vm_compute.
Defined.

Lemma detect_exact_code_witness :
  (detect sample_langdetect ascii_isspace sample_detector
     "siguiente diapositiva").1 = (SPANISH, 0.95%float) ∧
  stats (detect sample_langdetect ascii_isspace sample_detector
           "siguiente diapositiva").2 !! code (LANGUAGE_CONFIGS SPANISH)
    = Some (default 0 (stats sample_detector !! code (LANGUAGE_CONFIGS SPANISH)) + 1) ∧
  (∀ k, k ≠ code (LANGUAGE_CONFIGS SPANISH) →
        stats (detect sample_langdetect ascii_isspace sample_detector
                 "siguiente diapositiva").2 !! k
          = stats sample_detector !! k).
Proof.
  apply (detect_exact_code sample_langdetect ascii_isspace sample_detector
           "siguiente diapositiva" SPANISH).
  - by vm_compute.
  - apply (bool_decide_unpack _). by vm_compute.
  - by vm_compute.
Defined.

Lemma detect_regional_variant_witness :
  detect DetectorInputs.regional_langdetect ascii_isspace
    DetectorInputs.wide_detector "下一张幻灯片"
  = ((CHINESE, 0.85%float), DetectorInputs.wide_detector).
Proof.
  apply (detect_regional_variant DetectorInputs.regional_langdetect
           ascii_isspace DetectorInputs.wide_detector "下一张幻灯片" "zh-cn"
           CHINESE).
  - by vm_compute.
  - apply (bool_decide_unpack _). by vm_compute.
  - by vm_compute.
  - simpl. lia.
  - by vm_compute.
Defined.

End DetectorMore.

(* ===================================================================== *)
(** * More of the command matcher *)
(* ===================================================================== *)

Module MatcherMore.
Import PowerPointControllerV53 MatcherFacts FuzzyScores.
Local Open Scope str_scope.

(** Every compiled pattern is of a supported language. *)
Lemma compiled_language_supported config self p :
  init config = Some self → p ∈ patterns self →
  language p ∈ SUPPORTED_LANGUAGES config.
Proof.
  unfold init. destruct (_compile_patterns config) as [ps|] eqn:Hc; [|done].
  intros [= <-]. simpl. intros Hp. apply mapM_Some in Hc.
  assert (Forall (λ e : str * Language * str,
                    e.1.2 ∈ SUPPORTED_LANGUAGES config)
            (pattern_entries (SUPPORTED_LANGUAGES config))) as Hentries.
  { apply Forall_forall. intros [[c lang] pattern] He.
    apply list_elem_of_In in He. unfold pattern_entries in He.
    apply in_flat_map in He as (entry & _ & He).
    apply in_flat_map in He as (lang' & Hlang & He).
    apply in_map_iff in He as (pattern' & [= <- <- <-] & _).
    simpl. by apply list_elem_of_In. }
  induction Hc as [|[[c lang] pattern] q es ps Heq _ IH];
    [by apply elem_of_nil in Hp|].
  apply Forall_cons in Hentries as [He Hes].
  apply elem_of_cons in Hp as [->|Hp]; [|by apply IH].
  simpl in Heq, He. destruct (re.compile pattern); [|done].
  by injection Heq as <-.
Qed.

Section Stages.

Variable T : re.tables.
Variable partial_ratio : str → str → Z.

Abbreviation match_command := (match_command T partial_ratio).
Abbreviation fuzzy_stage := (fuzzy_stage partial_ratio).
Abbreviation anchor_score := (anchor_score partial_ratio).
Abbreviation fuzzy_result := (fuzzy_result partial_ratio).

Lemma match_command_no_regex self text lang :
  regex_stage T (patterns self) text lang = None →
  match_command self text lang
    = fuzzy_result (FUZZY_THRESHOLD (config self)) text lang.
Proof.
  intros Hr. unfold PowerPointControllerV53.match_command, FuzzyScores.fuzzy_result.
  rewrite Hr. by destruct (fuzzy_stage _ _ _ _) as [c s].
Qed.

(** X10.  For a language that is not among [SUPPORTED_LANGUAGES] no
    pattern was compiled: [match_command] never answers by "Regex",
    whatever the text, and returns what the fuzzy stage gives, whose
    anchors are not per language. *)
Theorem unsupported_language_is_fuzzy_only
    (config : Config) (self : PowerPointControllerV53.t)
    (text : str) (lang : Language) :
  init config = Some self →
  lang ∉ SUPPORTED_LANGUAGES config →
  match_command self text lang
    = fuzzy_result (FUZZY_THRESHOLD config) text lang ∧
  (match_command self text lang).2 ≠ Some "Regex".
Proof.
  intros Hinit Hlang.
  assert (regex_stage T (patterns self) text lang = None) as Hr.
  { apply regex_stage_None. intros q Hq Hql. exfalso. apply Hlang.
    rewrite <- Hql. by eapply compiled_language_supported. }
  rewrite (match_command_no_regex _ _ _ Hr), (init_config _ _ Hinit).
  split; [done|]. unfold FuzzyScores.fuzzy_result.
  by destruct (_ <=? _).
Qed.

(** The loop of the fuzzy stage, from any [(best_cmd, best_score)]. *)
Lemma fuzzy_stage_maximum commands text lang best :
  let result := fuzzy_stage commands text lang best in
  best.2 ≤ result.2 ∧
  (∀ entry v, entry ∈ commands → anchor_score text lang entry = Some v →
              v ≤ result.2) ∧
  ((result = best) ∨
   (best.2 < result.2 ∧
    ∃ before name data after,
      commands = before ++ (name, data) :: after ∧
      result.1 = Some name ∧
      anchor_score text lang (name, data) = Some result.2 ∧
      ∀ entry v, entry ∈ before → anchor_score text lang entry = Some v →
                 v < result.2)).
Proof.
  revert best; induction commands as [|[c data] commands IH]; intros best.
  { simpl. split; [lia|]. split; [|by left].
    intros entry v He. by apply elem_of_nil in He. }
  (* what one step of the loop does to [best] *)
  assert (∃ best',
    PowerPointControllerV53.fuzzy_stage partial_ratio ((c, data) :: commands)
      text lang best
      = PowerPointControllerV53.fuzzy_stage partial_ratio commands text lang best' ∧
    ((best' = best ∧
      ∀ v, anchor_score text lang (c, data) = Some v → v ≤ best.2) ∨
     (best' = (Some c, best'.2) ∧ best.2 < best'.2 ∧
      anchor_score text lang (c, data) = Some best'.2))) as (best' & -> & Hstep).
  { simpl. unfold FuzzyScores.anchor_score. simpl.
    destruct (triggers_of data lang) as [ps|];
      [|exists best; split; [done|]; by left].
    destruct (fuzzy_target data) as [target|];
      [|exists best; split; [done|]; by left].
    case_bool_decide as Hne; [exists best; split; [done|]; by left|].
    destruct (Z.ltb_spec best.2 (partial_ratio target text)).
    - exists (Some c, partial_ratio target text). split; [done|]. by right.
    - exists best. split; [done|]. left. split; [done|]. intros v [= <-]. lia. }
  specialize (IH best'). cbv zeta in IH.
  destruct IH as (Hge & Hub & Hres). cbv zeta.
  set (result := PowerPointControllerV53.fuzzy_stage partial_ratio commands
                   text lang best') in *.
  assert (best.2 ≤ best'.2) as Hbb.
  { destruct Hstep as [[-> _]|(_ & ? & _)]; lia. }
  split; [lia|]. split.
  - intros entry v [->|He]%elem_of_cons Hv; [|by eapply Hub].
    destruct Hstep as [[_ Hle]|(_ & _ & Hs)].
    + specialize (Hle _ Hv). lia.
    + rewrite Hv in Hs. injection Hs as ->. lia.
  - destruct Hres as [Hsame|(Hlt & before & name & d & after & -> & Hn & Hs & Hb)].
    + destruct Hstep as [[-> _]|(Hb' & Hlt & Hs)]; [by left|right].
      rewrite Hsame. split; [done|].
      exists [], c, data, commands. split; [done|].
      split; [by rewrite Hb'|]. split; [done|].
      intros entry v He. by apply elem_of_nil in He.
    + right. split; [lia|].
      exists ((c, data) :: before), name, d, after. split; [done|].
      split; [done|]. split; [done|].
      intros entry v [->|He]%elem_of_cons Hv; [|by eapply Hb].
      destruct Hstep as [[_ Hle]|(_ & _ & Hs')].
      * specialize (Hle _ Hv). lia.
      * rewrite Hv in Hs'. injection Hs' as ->. lia.
Qed.

(** X11.  The fuzzy stage returns the highest anchor score of the
    catalog, or 0 when none is above 0; the command it returns is the
    first of the catalog to reach that score (a later command with the
    same score does not replace it), and there is a command exactly when
    the score is above 0. *)
Theorem fuzzy_stage_first_maximum (text : str) (lang : Language) :
  let best := fuzzy_stage MULTILANG_COMMANDS text lang (None, 0) in
  0 ≤ best.2 ∧
  (∀ entry v, entry ∈ MULTILANG_COMMANDS →
              anchor_score text lang entry = Some v → v ≤ best.2) ∧
  (best.1 = None ↔ best.2 = 0) ∧
  (∀ name, best.1 = Some name →
     ∃ before data after,
       MULTILANG_COMMANDS = before ++ (name, data) :: after ∧
       anchor_score text lang (name, data) = Some best.2 ∧
       ∀ entry v, entry ∈ before → anchor_score text lang entry = Some v →
                  v < best.2).
Proof.
  pose proof (fuzzy_stage_maximum MULTILANG_COMMANDS text lang (None, 0)) as H.
  cbv zeta in *. destruct H as (Hge & Hub & Hres).
  set (best := PowerPointControllerV53.fuzzy_stage partial_ratio
                 MULTILANG_COMMANDS text lang (None, 0)) in *.
  simpl in Hge. split; [done|]. split; [done|]. split.
  - destruct Hres as [->|(Hlt & before & name & d & after & _ & Hn & _ & _)];
      [done|].
    simpl in Hlt. rewrite Hn. split; [done|lia].
  - intros name Hname.
    destruct Hres as [Hb|(Hlt & before & name' & d & after & Hc & Hn & Hs & Hb)].
    + by rewrite Hb in Hname.
    + rewrite Hname in Hn. injection Hn as <-. by exists before, d, after.
Qed.

(** X12.  The three shapes of what [match_command] returns: by "Regex"
    with score 100 and a command; by "Fuzzy" with no parameter and a
    score that is at least the threshold; or the rejection
    [(None, None, 0, None)].  A "Fuzzy" result has a command exactly when
    its score is above 0, so with a threshold of 1 or more every result
    that is not the rejection names a command; with a threshold of 0 or
    less a text that nothing scores comes back as
    [(None, None, 0, "Fuzzy")]. *)
Theorem match_command_shapes
    (self : PowerPointControllerV53.t) (text : str) (lang : Language)
    (command params : option str) (score : Z) (method : option str) :
  match_command self text lang = (command, params, score, method) →
  (method = Some "Regex" ∧ score = 100 ∧ is_Some command) ∨
  (method = Some "Fuzzy" ∧ params = None ∧
   FUZZY_THRESHOLD (config self) ≤ score ∧ 0 ≤ score ∧
   (command = None ↔ score = 0)) ∨
  (method = None ∧ command = None ∧ params = None ∧ score = 0 ∧
   regex_stage T (patterns self) text lang = None ∧
   (fuzzy_stage MULTILANG_COMMANDS text lang (None, 0)).2
     < FUZZY_THRESHOLD (config self)).
Proof.
  intros Hm.
  destruct (match_command_cases T partial_ratio self text lang)
    as [(p & m & _ & Hr)|(Hnone & best_cmd & best_score & Hf & [[Hge Hr]|[Hlt Hr]])];
    rewrite Hr in Hm.
  - left. unfold regex_result in Hm. injection Hm as <- <- <- <-.
    split; [done|]. split; [done|]. by eexists.
  - right. left. injection Hm as <- <- <- <-.
    pose proof (fuzzy_stage_maximum MULTILANG_COMMANDS text lang (None, 0))
      as Hmax.
    cbv zeta in Hmax. fold fuzzy_stage in *. rewrite Hf in Hmax.
    destruct Hmax as (H0 & _ & Hres). simpl in H0.
    split; [done|]. split; [done|]. split; [done|].
    destruct Hres as [[= -> ->]|(Hlt & _ & name & _ & _ & _ & Hn & _)]; [done|].
    simpl in Hlt, Hn. rewrite Hn. split; [done|]. split; [done|lia].
  - right. right. injection Hm as <- <- <- <-.
    fold fuzzy_stage. by rewrite Hf.
Qed.


(** X13.  With the patterns of the catalog, a result by "Regex" carries
    a parameter exactly when its command is jump_slide, and the
    parameter is then one digit or more: jump_slide never comes without
    a number, and no other command comes with one. *)
Theorem regex_parameter_iff_jump_slide
    (config : Config) (self : PowerPointControllerV53.t)
    (text : str) (lang : Language) (command : str)
    (params : option str) (score : Z) :
  init config = Some self →
  match_command self text lang = (Some command, params, score, Some "Regex") →
  (is_Some params ↔ command = "jump_slide") ∧
  (∀ param, params = Some param →
     cps param ≠ [] ∧ Forall (λ c, re.digit T c = true) (cps param)).
Proof.
  intros Hinit Hm.
  destruct (match_command_cases T partial_ratio self text lang)
    as [(p & m & Hfirst & Hr)|(_ & best_cmd & best_score & _ & [[_ Hr]|[_ Hr]])];
    rewrite Hr in Hm; [|done..].
  unfold regex_result in Hm. injection Hm as <- <- <-.
  destruct Hfirst as (before & after & Hps & _ & _ & Hsearch).
  assert (p ∈ patterns self) as Hp.
  { rewrite Hps. apply elem_of_app. right. by left. }
  assert (∀ lang,
            catalog_check
              (λ p, Bool.eqb (is_regex p) (bool_decide (cmd p = "jump_slide")))
              lang = true) as Hjump by (intros []; by vm_compute).
  pose proof (init_check _ _ _ Hjump Hinit) as Hall.
  rewrite Forall_forall in Hall. specialize (Hall p Hp).
  apply Bool.eqb_prop in Hall.
  pose proof (init_check _ _ _ catalog_numbers Hinit) as Hnum.
  rewrite Forall_forall in Hnum. specialize (Hnum p Hp).
  destruct (is_regex p) eqn:Hre.
  - simpl in Hnum. apply andb_true_iff in Hnum as [Hshape _].
    destruct (reFacts.search_ends_in_number T _ _ _ Hshape Hsearch)
      as (digits & Hg & Hne & Hd).
    symmetry in Hall. apply bool_decide_eq_true in Hall.
    rewrite Hg. split; [split; [done|by eexists]|].
    by intros param [= <-].
  - symmetry in Hall. apply bool_decide_eq_false in Hall.
    split; [|done]. split; [by intros [? ?]|done].
Qed.

End Stages.

Lemma unsupported_language_is_fuzzy_only_witness :
  match_command re.ascii_tables occurs_ratio default_controller "zoom in" ITALIAN
    = fuzzy_result occurs_ratio (FUZZY_THRESHOLD default_config) "zoom in" ITALIAN ∧
  (match_command re.ascii_tables occurs_ratio default_controller "zoom in" ITALIAN).2
    ≠ Some "Regex".
Proof.
  apply (unsupported_language_is_fuzzy_only re.ascii_tables occurs_ratio
           default_config default_controller "zoom in" ITALIAN).
  - apply MatcherSpec.init_default_controller.
  - apply (bool_decide_unpack _). by vm_compute.
Defined.

(** The same text in a supported language and in an unsupported one. *)
Example zoom_in_english_and_italian :
  match_command re.ascii_tables occurs_ratio default_controller "zoom in" ENGLISH
    = (Some "zoom_in", None, 100, Some "Regex") ∧
  match_command re.ascii_tables occurs_ratio default_controller "zoom in" ITALIAN
    = (Some "zoom_in", None, 100, Some "Fuzzy").
Proof. by vm_compute. Qed.

Lemma match_command_shapes_witness :
  (Some "Fuzzy" = Some "Regex" ∧ 0 = 100 ∧ is_Some (@None str)) ∨
  (Some "Fuzzy" = Some "Fuzzy" ∧ @None str = None ∧
   FUZZY_THRESHOLD (config lenient_controller) ≤ 0 ∧ 0 ≤ 0 ∧
   (@None str = None ↔ 0 = 0)) ∨
  (Some "Fuzzy" = None ∧ @None str = None ∧ @None str = None ∧ 0 = 0 ∧
   regex_stage re.ascii_tables (patterns lenient_controller) "qqq" ENGLISH = None ∧
   (fuzzy_stage occurs_ratio MULTILANG_COMMANDS "qqq" ENGLISH (None, 0)).2
     < FUZZY_THRESHOLD (config lenient_controller)).
Proof.
  apply (match_command_shapes re.ascii_tables occurs_ratio lenient_controller
           "qqq" ENGLISH None None 0 (Some "Fuzzy")).
  by vm_compute.
Defined.

Lemma regex_parameter_iff_jump_slide_witness :
  (is_Some (Some "12") ↔ "jump_slide" = "jump_slide") ∧
  (∀ param, Some "12" = Some param →
     cps param ≠ [] ∧
     Forall (λ c, re.digit re.ascii_tables c = true) (cps param)).
Proof.
  apply (regex_parameter_iff_jump_slide re.ascii_tables occurs_ratio
           default_config default_controller "page 12" ENGLISH "jump_slide"
           (Some "12") 100).
  - apply MatcherSpec.init_default_controller.
  - by vm_compute.
Defined.

End MatcherMore.

(* ===================================================================== *)
(** * More of the decision logger *)
(* ===================================================================== *)

Module LoggerMore.
Import AdvancedTrainingDataLogger TrainingExport.
Local Open Scope str_scope.

Lemma rows_with_insert_same col k rows i row :
  rows !! i = None → col row = k →
  size (rows_with col k (<[i := row]> rows)) = S (size (rows_with col k rows)).
Proof.
  intros Hi Hk. unfold rows_with.
  rewrite map_filter_insert_True by done.
  apply map_size_insert_None. apply map_lookup_filter_None. by left.
Qed.

Lemma rows_with_insert_other col k rows i row :
  rows !! i = None → col row ≠ k →
  rows_with col k (<[i := row]> rows) = rows_with col k rows.
Proof.
  intros Hi Hk. unfold rows_with.
  rewrite map_filter_insert_False by done. by rewrite delete_id.
Qed.

(** [GROUP BY]: a key for each value of the column that some row has,
    with the number of those rows. *)
Lemma group_count_spec col rows :
  ∀ k, group_count col rows !! k
       = if decide (size (rows_with col k rows) = 0%nat) then None
         else Some (Z.of_nat (size (rows_with col k rows))).
Proof.
  unfold group_count.
  refine (map_fold_weak_ind
            (λ acc rows, ∀ k,
               acc !! k
               = if decide (size (rows_with col k rows) = 0%nat) then None
                 else Some (Z.of_nat (size (rows_with col k rows))))
            _ _ _ _ rows).
  - intros k. unfold rows_with. by rewrite map_filter_empty.
  - clear rows. intros i row rows acc Hi IH k.
    destruct (decide (col row = k)) as [<-|Hne].
    + rewrite lookup_insert_eq, rows_with_insert_same by done.
      rewrite IH. simpl. f_equal. case_decide as Hz; simpl; lia.
    + rewrite lookup_insert_ne, rows_with_insert_other by done. apply IH.
Qed.

(** X14.  In [get_statistics()], [by_language] and [by_command] count
    the rows of the table: the count under a key is the number of rows
    with that language (that command), and a key is present exactly when
    a row has it. *)
Theorem statistics_count_the_rows
    (self : AdvancedTrainingDataLogger.t) (k : str) :
  let stats := get_statistics self in
  default 0 (by_language stats !! k)
    = Z.of_nat (size (rows_with AudioTextRecord.language k (db self))) ∧
  default 0 (by_command stats !! k)
    = Z.of_nat (size (rows_with AudioTextRecord.command_matched k (db self))) ∧
  (is_Some (by_language stats !! k) ↔
   ∃ i row, db self !! i = Some row ∧ AudioTextRecord.language row = k) ∧
  (is_Some (by_command stats !! k) ↔
   ∃ i row, db self !! i = Some row ∧ AudioTextRecord.command_matched row = k).
Proof.
  assert (∀ col,
    default 0 (group_count col (db self) !! k)
      = Z.of_nat (size (rows_with col k (db self))) ∧
    (is_Some (group_count col (db self) !! k) ↔
     ∃ i row, db self !! i = Some row ∧ col row = k)) as H.
  { intros col. rewrite group_count_spec.
    case_decide as Hz; simpl.
    - split; [lia|]. split; [by intros [? ?]|].
      intros (i & row & Hi & Hk). exfalso.
      apply map_size_empty_iff in Hz.
      assert (rows_with col k (db self) !! i = Some row) as Hin.
      { apply map_lookup_filter_Some. by split. }
      rewrite Hz in Hin. by rewrite lookup_empty in Hin.
    - split; [done|]. split; [|by eexists]. intros _.
      destruct (map_choose (rows_with col k (db self))) as (i & row & Hin).
      { intros He. apply Hz. by rewrite He, map_size_empty. }
      apply map_lookup_filter_Some in Hin as [Hi Hk]. by exists i, row. }
  cbv zeta. unfold get_statistics. simpl.
  destruct (H AudioTextRecord.language) as [? ?].
  destruct (H AudioTextRecord.command_matched) as [? ?]. done.
Qed.

Lemma timestamp_ge_total : Total timestamp_ge.
Proof.
  intros a b. unfold timestamp_ge, str_compare.
  rewrite (cps_compare_antisym (cps (AudioTextRecord.timestamp a))).
  destruct (cps_compare _ _); simpl; [by left|by right|by left].
Qed.

(** [fetchall] filters and sorts. *)
Lemma fetchall_spec rows threshold :
  fetchall rows threshold
    ≡ₚ filter (λ row, confident threshold row = true)
         (map snd (map_to_list rows)) ∧
  Sorted timestamp_ge (fetchall rows threshold).
Proof.
  unfold fetchall. split; [apply merge_sort_Permutation|].
  apply (@Sorted_merge_sort _ timestamp_ge _ timestamp_ge_total).
Qed.

(** The examples of an export: those of the stored rows that reach the
    threshold. *)
Lemma exported_examples self threshold now_iso e :
  e ∈ training_examples (export_training_set self now_iso threshold) ↔
  ∃ i row, db self !! i = Some row ∧
           PrimFloat.leb threshold (AudioTextRecord.confidence row) = true ∧
           e = example_of row.
Proof.
  destruct (fetchall_spec (db self) threshold) as [Hperm _].
  unfold export_training_set. simpl.
  rewrite list_elem_of_fmap. split.
  - intros (row & -> & Hrow). rewrite Hperm in Hrow.
    apply list_elem_of_filter in Hrow as [Hc Hin].
    apply list_elem_of_fmap in Hin as ([i row'] & -> & Hin).
    apply elem_of_map_to_list in Hin. by exists i, row'.
  - intros (i & row & Hi & Hc & ->). exists row. split; [done|].
    rewrite Hperm. apply list_elem_of_filter. split; [done|].
    apply list_elem_of_fmap. exists (i, row). split; [done|].
    by apply elem_of_map_to_list.
Qed.

(** X15.  [export_training_set] returns the stored rows whose
    confidence is at least the threshold, and only them, each once, as
    examples with the command as label, the latest timestamp first;
    [total_examples] is their number, and [confidence_threshold] the
    threshold given. *)
Theorem export_is_the_confident_rows
    (self : AdvancedTrainingDataLogger.t) (threshold : float)
    (now_iso : str) :
  let data := export_training_set self now_iso threshold in
  total_examples (export_metadata data)
    = Z.of_nat (length (training_examples data)) ∧
  confidence_threshold (export_metadata data) = threshold ∧
  training_examples data
    ≡ₚ map example_of
         (filter (λ row, confident threshold row = true)
            (map snd (map_to_list (db self)))) ∧
  (∀ e, e ∈ training_examples data ↔
        ∃ i row, db self !! i = Some row ∧
                 PrimFloat.leb threshold (AudioTextRecord.confidence row) = true ∧
                 e = example_of row) ∧
  Sorted (λ a b, str_compare (ex_timestamp a) (ex_timestamp b) ≠ Lt)
         (training_examples data).
Proof.
  intros data.
  pose proof (λ e, exported_examples self threshold now_iso e) as Hin.
  destruct (fetchall_spec (db self) threshold) as [Hperm Hsorted].
  fold data in Hin. unfold data, export_training_set in *. simpl in *.
  split; [done|]. split; [done|]. split; [by rewrite Hperm|]. split; [done|].
  clear Hperm Hin. induction Hsorted as [|row rows _ IH Hhd]; simpl;
    constructor; [done|].
  destruct Hhd; simpl; by constructor.
Qed.

Section AfterLog.

Variable to_json : AudioTextRecord.t → str.

(** X16.  After a [log_text(record)] that returned, an export at a
    threshold the confidence of the record reaches lists the record, and
    lists no example of a row the record replaced (a row of the same id)
    unless another stored row gives the same example. *)
Theorem logged_record_is_exported
    (self self' : AdvancedTrainingDataLogger.t) (record : AudioTextRecord.t)
    (threshold : float) (now_iso : str) :
  log_text to_json self record = Returns self' →
  PrimFloat.leb threshold (AudioTextRecord.confidence record) = true →
  let data := export_training_set self' now_iso threshold in
  example_of record ∈ training_examples data ∧
  (∀ e, e ∈ training_examples data → e ≠ example_of record →
        ∃ i row, i ≠ AudioTextRecord.id record ∧ db self !! i = Some row ∧
                 e = example_of row).
Proof.
  intros Hlog Hc data.
  assert (self' = written to_json self record) as ->.
  { revert Hlog. unfold log_text.
    destruct (negb (bindable record)); [done|].
    destruct (negb (not_null record)); [done|]. by intros [= <-]. }
  pose proof (λ e, exported_examples (written to_json self record) threshold
                     now_iso e) as Hin.
  fold data in Hin. split.
  - apply Hin. exists (AudioTextRecord.id record), record.
    split; [|done]. apply lookup_insert_eq.
  - intros e He Hne. apply Hin in He as (i & row & Hi & _ & ->).
    exists i, row. simpl in Hi.
    destruct (decide (i = AudioTextRecord.id record)) as [->|Hi'].
    + rewrite lookup_insert_eq in Hi.
      assert (row = record) as -> by congruence. done.
    + by rewrite lookup_insert_ne in Hi.
Qed.

End AfterLog.

(** Confidences 0.5, 0.8 and 0.9 at threshold 0.8: two examples, the
    later one first. *)
Example export_three_logs :
  training_examples
    (export_training_set three_logs "2024-05-02T08:00:00" 0.8%float)
  = [example_of high_log; example_of mid_log] ∧
  total_examples
    (export_metadata
       (export_training_set three_logs "2024-05-02T08:00:00" 0.8%float))
  = 2.
Proof. by vm_compute. Qed.

Lemma logged_record_is_exported_witness :
  let data :=
    export_training_set three_logs "2024-05-02T08:00:00" 0.8%float in
  example_of high_log ∈ training_examples data ∧
  (∀ e, e ∈ training_examples data → e ≠ example_of high_log →
        ∃ i row,
          i ≠ AudioTextRecord.id high_log ∧
          db (log_each text_field_json empty_store [low_log; mid_log])
            !! i = Some row ∧
          e = example_of row).
Proof.
  apply (logged_record_is_exported text_field_json
           (log_each text_field_json empty_store [low_log; mid_log])
           three_logs high_log 0.8%float "2024-05-02T08:00:00").
  - by vm_compute.
  - by vm_compute.
Defined.

End LoggerMore.

(* ===================================================================== *)
(** * Records and dictionaries *)
(* ===================================================================== *)

Module RecordDictFacts.
Import AudioTextRecord AudioTextRecordDict.
Local Open Scope str_scope.

(** X17.  [from_dict(record.to_dict())] builds the record again; and
    without the keys language, user_id and response_time_ms it builds
    the record with their defaults, "en", "default" and 0.0. *)
Theorem from_dict_to_dict (record : AudioTextRecord.t) :
  from_dict (to_dict record) = Built record ∧
  from_dict
    (delete "language"
       (delete "user_id" (delete "response_time_ms" (to_dict record))))
  = Built (AudioTextRecord.mk (id record) (text record)
             (command_matched record) (confidence record)
             (timestamp record) (source record) "en" "default" 0.0%float).
Proof. destruct record. split; by vm_compute. Qed.

Lemma missing_required (data : gmap str value) l :
  forallb (λ k, bool_decide (is_Some (data !! k))) l = false ↔
  ∃ k, k ∈ l ∧ data !! k = None.
Proof.
  induction l as [|k l IH]; simpl.
  - split; [done|]. intros (k & Hk & _). by apply elem_of_nil in Hk.
  - rewrite andb_false_iff, IH. split.
    + intros [Hk|(k' & Hk' & Hnone)].
      * apply bool_decide_eq_false in Hk. exists k. split; [by left|].
        destruct (data !! k); [|done]. exfalso. apply Hk. by eexists.
      * exists k'. split; [by right|done].
    + intros (k' & [->|Hk']%elem_of_cons & Hnone).
      * left. apply bool_decide_eq_false. rewrite Hnone. by intros [? ?].
      * right. by exists k'.
Qed.

Lemma unknown_key (data : gmap str value) :
  ¬ dom data ⊆ (list_to_set fields : gset str) ↔
  ∃ k, is_Some (data !! k) ∧ k ∉ fields.
Proof.
  split.
  - intros Hnot.
    assert (¬ Forall (λ k, k ∈ fields) (elements (dom data))) as Hf.
    { intros Hall. apply Hnot. intros k Hk. apply elem_of_list_to_set.
      rewrite Forall_forall in Hall. apply Hall. by apply elem_of_elements. }
    apply not_Forall_Exists in Hf; [|apply _].
    apply Exists_exists in Hf as (k & Hk & Hnin).
    exists k. split; [|done]. apply elem_of_dom. by apply elem_of_elements.
  - intros (k & Hk & Hnin) Hsub. apply Hnin.
    apply elem_of_dom in Hk. apply Hsub in Hk.
    by apply elem_of_list_to_set in Hk.
Qed.

(** X18.  [from_dict] raises [TypeError] exactly when the dictionary
    has a key that is not a field of the record or lacks one of the six
    fields without default. *)
Theorem from_dict_TypeError (data : gmap str value) :
  from_dict data = Raises_TypeError ↔
  (∃ k, is_Some (data !! k) ∧ k ∉ fields) ∨
  (∃ k, k ∈ required ∧ data !! k = None).
Proof.
  rewrite <- unknown_key, <- missing_required.
  rewrite <- (bool_decide_eq_false (dom data ⊆ list_to_set fields)).
  rewrite <- andb_false_iff. unfold from_dict.
  destruct (_ && _); [|done].
  split; [|done].
  by repeat (match goal with
             | |- context [text_of ?a ?b] => destruct (text_of a b)
             | |- context [real_of ?a ?b] => destruct (real_of a b)
             end).
Qed.

End RecordDictFacts.

(* ===================================================================== *)
(** * The executor *)
(* ===================================================================== *)

Module ExecutorFacts.
Import World OptimizedPyAutoGUIExecutor.
Local Open Scope str_scope.

Lemma _record_timing_fields self elapsed :
  max_history (_record_timing self elapsed) = max_history self ∧
  execution_queue (_record_timing self elapsed) = execution_queue self.
Proof. unfold _record_timing. by destruct (_ <? _). Qed.

(** X19.  [execution_times] is a window over the timings recorded: from
    an executor with no timing yet, after any number of
    [_record_timing] calls it holds the last [max_history] of them (all
    of them while they are fewer), oldest first; for the executor
    [__init__] builds, the last 100. *)
Theorem execution_times_window
    (queue : OptimizedInputBuffer.t) (max_history : Z) (timings : list float) :
  execution_times
    (foldl _record_timing (OptimizedPyAutoGUIExecutor.mk queue [] max_history)
       timings)
  = drop (length timings - Z.to_nat max_history) timings ∧
  execution_times (foldl _record_timing init timings)
  = drop (length timings - 100) timings.
Proof.
  assert (∀ queue max_history,
    let self := foldl _record_timing
                  (OptimizedPyAutoGUIExecutor.mk queue [] max_history) timings in
    execution_times self
      = drop (length timings - Z.to_nat max_history) timings ∧
    OptimizedPyAutoGUIExecutor.max_history self = max_history) as H.
  { clear. intros queue m. cbv zeta.
    induction timings as [|t timings IH] using rev_ind; [done|].
    rewrite foldl_app. cbn [foldl]. destruct IH as [Ht Hm].
    split; [|by rewrite (proj1 (_record_timing_fields _ _))].
    set (self := foldl _record_timing _ timings) in *.
    unfold _record_timing. rewrite Hm, Ht, !length_app, length_drop.
    cbn [length].
    assert (∀ l : list float, tail l = drop 1 l) as Htail by (by intros []).
    destruct (Z.ltb_spec m
                (Z.of_nat (length timings - (length timings - Z.to_nat m) + 1)));
      simpl.
    - rewrite Htail, <- drop_app_le by lia.
      rewrite drop_drop. f_equal. lia.
    - replace (length timings - Z.to_nat m)%nat with 0%nat by lia.
      replace (length timings + 1 - Z.to_nat m)%nat with 0%nat by lia.
      done. }
  split; [apply H|]. apply (H (OptimizedInputBuffer.init 10 50) 100).
Qed.

Section Executor.

Variable perf_counter : nat → float.
Variable pyautogui_raises : nat → action → bool.

Abbreviation timed_call := (timed_call perf_counter pyautogui_raises).
Abbreviation execute_key := (execute_key perf_counter pyautogui_raises).
Abbreviation execute_text_input :=
  (execute_text_input perf_counter pyautogui_raises).
Abbreviation sequence_loop := (sequence_loop perf_counter pyautogui_raises).
Abbreviation execute_sequence :=
  (execute_sequence perf_counter pyautogui_raises).
Abbreviation none_raises := (none_raises pyautogui_raises).

(** One call: it is made, whether it raises or not. *)
Lemma timed_call_sent self w a :
  sent (timed_call self w a).2 = sent w ++ [a] ∧
  created (timed_call self w a).2 = created w ∧
  (timed_call self w a).1.1.1 = negb (pyautogui_raises (length (sent w)) a).
Proof.
  unfold OptimizedPyAutoGUIExecutor.timed_call.
  by destruct (pyautogui_raises _ _).
Qed.

(** One turn of the loop on a command of a known type: the call is made
    and its outcome becomes [success], whatever [success] was. *)
Lemma sequence_loop_known_step command self w :
  known_type command = true →
  ∃ self' w',
    sent w' = sent w ++ [command_action command] ∧
    ∀ commands success total_success,
      sequence_loop (command :: commands) success total_success self w
      = sequence_loop commands
          (Some (negb (pyautogui_raises (length (sent w))
                         (command_action command))))
          (negb (pyautogui_raises (length (sent w)) (command_action command))
           && total_success)
          self' w'.
Proof.
  destruct command as [action_type value]. unfold known_type, command_action.
  simpl. intros Hknown.
  assert (∀ a,
    ∃ self' w',
      sent w' = sent w ++ [a] ∧
      timed_call self w a
      = ((negb (pyautogui_raises (length (sent w)) a),
          (timed_call self w a).1.1.2), self', w')) as Hcall.
  { intros a. unfold OptimizedPyAutoGUIExecutor.timed_call.
    destruct (pyautogui_raises _ _); simpl; eexists _, _;
      (split; [|reflexivity]); done. }
  case_bool_decide as Hkey.
  - rewrite (bool_decide_eq_false_2 (action_type = "text")) by (by subst).
    destruct (Hcall (key_action value)) as (self' & w' & Hs & Hc).
    exists self', w'. split; [done|].
    intros commands success total_success.
    unfold OptimizedPyAutoGUIExecutor.execute_key. rewrite Hc. simpl.
    by destruct (pyautogui_raises _ _).
  - case_bool_decide as Htext.
    + destruct (Hcall (Typewrite value 0.01%float)) as (self' & w' & Hs & Hc).
      exists self', w'. split; [done|].
      intros commands success total_success.
      unfold OptimizedPyAutoGUIExecutor.execute_text_input. rewrite Hc. simpl.
      by destruct (pyautogui_raises _ _).
    + case_bool_decide as Hhot; [|done].
      destruct (Hcall (key_action value)) as (self' & w' & Hs & Hc).
      exists self', w'. split; [done|].
      intros commands success total_success.
      unfold OptimizedPyAutoGUIExecutor.execute_key. rewrite Hc. simpl.
      by destruct (pyautogui_raises _ _).
Qed.

Lemma sequence_loop_known commands success total_success self w :
  Forall (λ c, known_type c = true) commands →
  ∃ self' w',
    sequence_loop commands success total_success self w
    = (Some (total_success &&
             none_raises (length (sent w)) (map command_action commands)),
       self', w') ∧
    sent w' = sent w ++ map command_action commands.
Proof.
  intros Hknown. revert success total_success self w.
  induction Hknown as [|command commands Hc _ IH];
    intros success total_success self w.
  - exists self, w. simpl. by rewrite andb_true_r, app_nil_r.
  - destruct (sequence_loop_known_step command self w Hc)
      as (self1 & w1 & Hs1 & ->).
    destruct (IH (Some (negb (pyautogui_raises (length (sent w))
                                (command_action command))))
                (negb (pyautogui_raises (length (sent w))
                         (command_action command)) && total_success)
                self1 w1) as (self' & w' & -> & Hs').
    exists self', w'. split.
    + f_equal. f_equal. f_equal. simpl. rewrite Hs1, length_app. simpl.
      replace (length (sent w) + 1)%nat with (S (length (sent w))) by lia.
      by destruct (pyautogui_raises _ _), total_success.
    + rewrite Hs', Hs1. by rewrite <- app_assoc.
Qed.

(** X20.  On commands of the types "key", "text" and "hotkey",
    [execute_sequence] makes one call of [pyautogui] per command, in
    their order and also after a call has raised, and returns [True]
    exactly when none of the calls raised. *)
Theorem execute_sequence_runs_every_command
    (self : OptimizedPyAutoGUIExecutor.t) (w : World.t)
    (commands : list (str * str)) :
  Forall (λ c, known_type c = true) commands →
  sent (execute_sequence self w commands).2
    = sent w ++ map command_action commands ∧
  (execute_sequence self w commands).1.1.1
    = none_raises (length (sent w)) (map command_action commands).
Proof.
  intros Hknown. unfold OptimizedPyAutoGUIExecutor.execute_sequence.
  destruct (sequence_loop_known commands None true self
              (World.mk (S (reads w)) (sent w) (created w)) Hknown)
    as (self' & w' & -> & Hs).
  simpl in *. by rewrite Hs.
Qed.

(** Once [success] is assigned, a command of no known type makes no call
    and the loop tests the value [success] was left with. *)
Lemma sequence_loop_skips commands success total_success self w :
  (success = false → total_success = false) →
  sequence_loop commands (Some success) total_success self w
  = sequence_loop (filter (λ c, known_type c = true) commands)
      (Some success) total_success self w.
Proof.
  revert success total_success self w.
  induction commands as [|command commands IH];
    intros success total_success self w Hinv; [done|].
  destruct (known_type command) eqn:Hk.
  - rewrite filter_cons_True by done.
    destruct (sequence_loop_known_step command self w Hk)
      as (self1 & w1 & _ & Hstep).
    rewrite !Hstep. apply IH.
    by intros ->%negb_false_iff.
  - rewrite filter_cons_False by (by rewrite Hk).
    destruct command as [action_type value].
    unfold known_type in Hk. simpl in Hk.
    apply orb_false_iff in Hk as [Hk Hhot].
    apply orb_false_iff in Hk as [Hkey Htext].
    simpl. rewrite Hkey, Htext, Hhot.
    rewrite <- IH by done. destruct success; [done|].
    by rewrite (Hinv eq_refl).
Qed.

(** X21.  A command of another type is not refused.  At the head of the
    sequence it ends the call with [(False, 0.0)]: nothing is sent, the
    commands after it are not run and no timing is recorded.  After a
    command of a known type it is skipped, and the result is that of the
    sequence without it. *)
Theorem execute_sequence_unknown_type
    (self : OptimizedPyAutoGUIExecutor.t) (w : World.t)
    (first : str * str) (rest : list (str * str)) :
  (known_type first = false →
   execute_sequence self w (first :: rest)
   = ((false, 0.0%float), self, World.mk (S (reads w)) (sent w) (created w)))
  ∧
  (known_type first = true →
   execute_sequence self w (first :: rest)
   = execute_sequence self w
       (first :: filter (λ c, known_type c = true) rest)).
Proof.
  split; intros Hk.
  - destruct first as [action_type value].
    unfold known_type in Hk. simpl in Hk.
    apply orb_false_iff in Hk as [Hk Hhot].
    apply orb_false_iff in Hk as [Hkey Htext].
    unfold OptimizedPyAutoGUIExecutor.execute_sequence. simpl.
    by rewrite Hkey, Htext, Hhot.
  - unfold OptimizedPyAutoGUIExecutor.execute_sequence.
    destruct (sequence_loop_known_step first self
                (World.mk (S (reads w)) (sent w) (created w)) Hk)
      as (self1 & w1 & _ & Hstep).
    rewrite !Hstep. rewrite sequence_loop_skips; [done|].
    intros ->%negb_false_iff. done.
Qed.

End Executor.

(** A sequence of three commands whose second call raises: the third is
    still sent, and the sequence fails. *)
Lemma execute_sequence_runs_every_command_witness :
  Forall (λ c, known_type c = true)
    [("key", "right"); ("text", "12"); ("hotkey", "ctrl+p")] ∧
  sent (execute_sequence sample_clock second_call_raises init World.start
          [("key", "right"); ("text", "12"); ("hotkey", "ctrl+p")]).2
  = [Press "right"; Typewrite "12" 0.01%float; Hotkey ["ctrl"; "p"]] ∧
  (execute_sequence sample_clock second_call_raises init World.start
     [("key", "right"); ("text", "12"); ("hotkey", "ctrl+p")]).1.1.1 = false.
Proof.
  assert (Forall (λ c, known_type c = true)
            [("key", "right"); ("text", "12"); ("hotkey", "ctrl+p")])
    as Hknown by (repeat constructor; by vm_compute).
  split; [done|].
  destruct (execute_sequence_runs_every_command sample_clock
              second_call_raises init World.start _ Hknown)
    as [Hsent Hresult].
  split; [by rewrite Hsent | by rewrite Hresult].
Defined.

(** A sequence that opens with a command of type "click" sends nothing;
    the same command in second place is passed over. *)
Lemma execute_sequence_unknown_type_witness :
  execute_sequence sample_clock second_call_raises init World.start
    [("click", "left"); ("key", "right")]
  = ((false, 0.0%float), init, World.mk 1 [] 0) ∧
  execute_sequence sample_clock second_call_raises init World.start
    [("key", "right"); ("click", "left"); ("key", "left")]
  = execute_sequence sample_clock second_call_raises init World.start
      [("key", "right"); ("key", "left")].
Proof.
  split.
  - apply (proj1 (execute_sequence_unknown_type sample_clock
                    second_call_raises init World.start ("click", "left")
                    [("key", "right")])).
    by vm_compute.
  - apply (proj2 (execute_sequence_unknown_type sample_clock
                    second_call_raises init World.start ("key", "right")
                    [("click", "left"); ("key", "left")])).
    by vm_compute.
Defined.

End ExecutorFacts.

(* ===================================================================== *)
(** * [PowerPointControllerV53]: running a command *)
(* ===================================================================== *)

Module ControllerFacts.
Import World OptimizedPyAutoGUIExecutor ControllerRun.
Local Open Scope str_scope.

Lemma Language_of_value_value lang :
  Language_of_value (Language_value lang) = Some lang.
Proof. by destruct lang. Qed.

Lemma Language_of_value_Some value lang :
  Language_of_value value = Some lang → Language_value lang = value.
Proof.
  unfold Language_of_value. intros [_ H]%find_some.
  by apply bool_decide_eq_true in H.
Qed.

Section Run.

Variable T : re.tables.
Variable partial_ratio : str → str → Z.
Variable perf_counter : nat → float.
Variable pyautogui_raises : nat → action → bool.
Variable to_json : AudioTextRecord.t → str.
Variable isdigit : N → bool.
Variable record_id : str → str → nat → str.
Variable now_iso : nat → str.

Abbreviation execute_key := (execute_key perf_counter pyautogui_raises).
Abbreviation execute_text_input :=
  (execute_text_input perf_counter pyautogui_raises).
Abbreviation _jump_to := (_jump_to perf_counter pyautogui_raises isdigit).
Abbreviation run_command :=
  (run_command perf_counter pyautogui_raises isdigit).
Abbreviation match_command :=
  (PowerPointControllerV53.match_command T partial_ratio).

(** [execute_key]: one call, made whether it raises or not. *)
Lemma execute_key_call executor w key r executor' w' :
  execute_key executor w key = (r, executor', w') →
  sent w' = sent w ++ [key_action key] ∧ created w' = created w ∧
  r.1 = negb (pyautogui_raises (length (sent w)) (key_action key)).
Proof.
  unfold OptimizedPyAutoGUIExecutor.execute_key.
  pose proof (ExecutorFacts.timed_call_sent perf_counter pyautogui_raises
                executor w (key_action key)) as H.
  intros Heq. by rewrite Heq in H.
Qed.

Lemma execute_text_input_call executor w text interval r executor' w' :
  execute_text_input executor w text interval = (r, executor', w') →
  sent w' = sent w ++ [Typewrite text interval] ∧ created w' = created w ∧
  r.1 = negb (pyautogui_raises (length (sent w)) (Typewrite text interval)).
Proof.
  unfold OptimizedPyAutoGUIExecutor.execute_text_input.
  pose proof (ExecutorFacts.timed_call_sent perf_counter pyautogui_raises
                executor w (Typewrite text interval)) as H.
  intros Heq. by rewrite Heq in H.
Qed.

Lemma str_isdigit_truthy number :
  str_isdigit isdigit number = true → truthy (Some number) = true.
Proof. unfold str_isdigit. simpl. by intros [? _]%andb_true_iff. Qed.

(** [_jump_to] on a number. *)
Lemma _jump_to_number executor w number :
  str_isdigit isdigit number = true →
  sent (_jump_to executor w (Some number)).2
    = sent w ++ [Typewrite number 0.05%float; Press "enter"] ∧
  created (_jump_to executor w (Some number)).2 = created w ∧
  (_jump_to executor w (Some number)).1.1.1
    = negb (pyautogui_raises (S (length (sent w))) (Press "enter")).
Proof.
  intros Hd. unfold ControllerRun._jump_to.
  rewrite (str_isdigit_truthy _ Hd), Hd. simpl.
  destruct (execute_text_input executor _ number _) as [[r1 e1] w1] eqn:H1.
  destruct (execute_key e1 w1 "enter") as [[r2 e2] w2] eqn:H2.
  apply execute_text_input_call in H1 as (Hs1 & Hc1 & _).
  apply execute_key_call in H2 as (Hs2 & Hc2 & Hr2).
  simpl in *. rewrite Hs2, Hs1, <- app_assoc. split; [done|].
  split; [by rewrite Hc2, Hc1|].
  rewrite Hr2, Hs1, length_app. simpl.
  by replace (length (sent w) + 1)%nat with (S (length (sent w))) by lia.
Qed.

(** X22.  [_jump_to] types the number and presses Enter, and reports
    what the press of Enter gave: a typing that raised is not reported,
    and does not keep Enter from being pressed.  Without a number made of
    digits it returns [(False, 0.0)] and sends nothing. *)
Theorem jump_to_reports_the_enter_press
    (executor : OptimizedPyAutoGUIExecutor.t) (w : World.t)
    (slide_num : option str) :
  (truthy slide_num && from_option (str_isdigit isdigit) false slide_num
     = false →
   _jump_to executor w slide_num = ((false, 0.0%float), executor, w)) ∧
  (∀ number, slide_num = Some number → str_isdigit isdigit number = true →
     sent (_jump_to executor w slide_num).2
       = sent w ++ [Typewrite number 0.05%float; Press "enter"] ∧
     (_jump_to executor w slide_num).1.1.1
       = negb (pyautogui_raises (S (length (sent w))) (Press "enter"))).
Proof.
  split.
  - destruct slide_num as [number|]; [|done].
    unfold ControllerRun._jump_to. cbn [from_option].
    by destruct (truthy (Some number)), (str_isdigit isdigit number).
  - intros number -> Hd.
    by destruct (_jump_to_number executor w number Hd) as (? & _ & ?).
Qed.

(** What [run_command] leaves as it is. *)
Lemma run_command_frame self w cmd params :
  matcher (run_command self w cmd params).1.2 = matcher self ∧
  training_logger (run_command self w cmd params).1.2 = training_logger self ∧
  stats (run_command self w cmd params).1.2 = stats self ∧
  created (run_command self w cmd params).2 = created w ∧
  running (run_command self w cmd params).1.2
    = running self && negb (bool_decide (cmd = "exit_program")).
Proof.
  assert (∀ k,
    let res :=
      (let '(r, executor', w') := execute_key (executor self) w k in
       (r, with_executor self executor', w')) in
    matcher res.1.2 = matcher self ∧
    training_logger res.1.2 = training_logger self ∧
    stats res.1.2 = stats self ∧ created res.2 = created w ∧
    running res.1.2 = running self) as Hkey.
  { intros k. cbv zeta.
    destruct (execute_key (executor self) w k) as [[r e'] w'] eqn:Hk.
    apply execute_key_call in Hk as (_ & Hc & _). by simpl. }
  destruct (decide (cmd = "exit_program")) as [->|Hne].
  { rewrite bool_decide_eq_true_2 by done. by rewrite andb_false_r. }
  rewrite (bool_decide_eq_false_2 _ Hne), andb_true_r.
  unfold ControllerRun.run_command.
  rewrite (bool_decide_eq_false_2 _ Hne).
  repeat (case_bool_decide; [apply Hkey|]).
  case_bool_decide as Hjump; [|done].
  destruct (truthy params && _) eqn:Hp; [|done].
  destruct params as [number|]; [|done].
  apply andb_true_iff in Hp as [_ Hd]. simpl in Hd.
  destruct (_jump_to_number (executor self) w number Hd) as (_ & Hc & _).
  destruct (_jump_to (executor self) w (Some number)) as [[r e'] w'].
  by simpl in *.
Qed.


Abbreviation log_match := (log_match to_json record_id now_iso).
Abbreviation execute :=
  (execute T partial_ratio perf_counter pyautogui_raises to_json isdigit
     record_id now_iso).

(** The logging step touches neither the clock nor [pyautogui]. *)
Lemma log_match_world self w text cmd confidence source_type language rt :
  reads (log_match self w text cmd confidence source_type language rt).2
    = reads w ∧
  sent (log_match self w text cmd confidence source_type language rt).2
    = sent w.
Proof.
  unfold ControllerRun.log_match.
  destruct (training_logger self), cmd; try done.
  by destruct (_ && _).
Qed.

Abbreviation matched := (matched T partial_ratio).
Abbreviation matched_and_logged :=
  (matched_and_logged T partial_ratio perf_counter to_json record_id now_iso).

(** [execute] by its parts: the call counted, the text matched and the
    match logged, and then for a command the action map and the count of
    the success. *)
Lemma execute_parts self w text confidence source_type language :
  let result := matched self text language in
  let logged :=
    matched_and_logged self w text confidence source_type language in
  (truthy result.1.1.1 = false ∧
   execute self w text confidence source_type language = logged) ∨
  (∃ command,
     result.1.1.1 = Some command ∧ truthy (Some command) = true ∧
     let ran := run_command logged.1 logged.2 command result.1.1.2 in
     execute self w text confidence source_type language
     = (if ran.1.1.1 || bool_decide (command = "exit_program")
        then
          ControllerRun.mk (matcher ran.1.2) (running ran.1.2)
            (training_logger ran.1.2) (executor ran.1.2)
            (count_success (stats ran.1.2) result.2)
        else ran.1.2,
        ran.2)).
Proof.
  unfold ControllerRun.execute, ControllerRun.matched_and_logged,
    ControllerRun.matched.
  destruct (match_command _ _ _) as [[[cmd params] score] method].
  cbv zeta. simpl.
  destruct (log_match _ _ _ _ _ _ _ _) as [logger w1]. simpl.
  destruct cmd as [command|]; [|by left].
  destruct (truthy (Some command)) eqn:Htruthy; [|by left].
  right. exists command. split; [done|]. split; [done|].
  destruct (run_command _ _ _ _) as [[r self'] w']. simpl.
  by destruct (r.1 || _).
Qed.

Lemma matched_and_logged_fields self w text confidence source_type language :
  let logged :=
    matched_and_logged self w text confidence source_type language in
  matcher logged.1 = matcher self ∧ running logged.1 = running self ∧
  executor logged.1 = executor self ∧
  stats logged.1 = count_call (stats self) language ∧
  sent logged.2 = sent w.
Proof.
  cbv zeta. unfold ControllerRun.matched_and_logged. simpl.
  repeat split.
  by destruct (log_match_world self
                 (World.mk (S (S (reads w))) (sent w) (created w)) text
                 (matched self text language).1.1.1 confidence source_type
                 language
                 (elapsed_ms (perf_counter (reads w))
                    (perf_counter (S (reads w))))) as [_ ->].
Qed.

(** X23.  The counters of [execute]: every call is counted in [total]
    and under the language string it came with; [success] goes up by one
    or stays, and [fuzzy_rescues] goes up only with it. *)
Theorem execute_counts (self : t) (w : World.t) (text : str)
    (confidence : float) (source_type language : str) :
  let before := stats self in
  let after := stats (execute self w text confidence source_type language).1 in
  total after = total before + 1 ∧
  by_language after
    = <[language := default 0 (by_language before !! language) + 1]>
        (by_language before) ∧
  success before ≤ success after ≤ success before + 1 ∧
  0 ≤ fuzzy_rescues after - fuzzy_rescues before
    ≤ success after - success before.
Proof.
  cbv zeta.
  pose proof (matched_and_logged_fields self w text confidence source_type
                language) as (_ & _ & _ & Hcounted & _).
  destruct (execute_parts self w text confidence source_type language)
    as [[_ ->]|(command & _ & _ & ->)]; cbv zeta.
  - rewrite Hcounted. simpl. repeat split; (done || lia).
  - match goal with
    | |- context [run_command ?s ?w0 ?c ?p] =>
      pose proof (run_command_frame s w0 c p) as (_ & _ & Hstats & _);
      destruct (run_command s w0 c p) as [[r self'] w']
    end.
    cbn [fst snd] in *.
    destruct (r.1 || _); cbn [fst stats]; rewrite Hstats, Hcounted; simpl.
    + case_bool_decide; repeat split; (done || lia).
    + repeat split; (done || lia).
Qed.






(** The logger and the count of records made after [execute]: those of
    the logging step. *)
Lemma execute_logger self w text confidence source_type language :
  training_logger (execute self w text confidence source_type language).1
  = training_logger
      (matched_and_logged self w text confidence source_type language).1 ∧
  created (execute self w text confidence source_type language).2
  = created (matched_and_logged self w text confidence source_type language).2.
Proof.
  destruct (execute_parts self w text confidence source_type language)
    as [[_ ->]|(command & _ & _ & ->)]; cbv zeta in *; [done|].
  match goal with
  | |- context [run_command ?s ?w0 ?c ?p] =>
    pose proof (run_command_frame s w0 c p) as (_ & Hlogger & _ & Hcreated & _);
    destruct (run_command s w0 c p) as [[r self'] w']
  end.
  cbn [fst snd] in *. by destruct (r.1 || _).
Qed.



End Run.

(** X27.  What [execute] logs does not wait for the command to run: the
    logger, and the number of records made, are the same whatever
    [pyautogui] does with the keys, a call that raises included. *)
Theorem execute_logs_whatever_the_keys_do
    (T : re.tables) (partial_ratio : str → str → Z)
    (perf_counter : nat → float)
    (pyautogui_raises pyautogui_raises' : nat → action → bool)
    (to_json : AudioTextRecord.t → str) (isdigit : N → bool)
    (record_id : str → str → nat → str) (now_iso : nat → str)
    (self : t) (w : World.t) (text : str) (confidence : float)
    (source_type language : str) :
  training_logger
    (execute T partial_ratio perf_counter pyautogui_raises to_json isdigit
       record_id now_iso self w text confidence source_type language).1
  = training_logger
      (execute T partial_ratio perf_counter pyautogui_raises' to_json isdigit
         record_id now_iso self w text confidence source_type language).1 ∧
  created
    (execute T partial_ratio perf_counter pyautogui_raises to_json isdigit
       record_id now_iso self w text confidence source_type language).2
  = created
      (execute T partial_ratio perf_counter pyautogui_raises' to_json isdigit
         record_id now_iso self w text confidence source_type language).2.
Proof.
  destruct (execute_logger T partial_ratio perf_counter pyautogui_raises
              to_json isdigit record_id now_iso self w text confidence
              source_type language) as [-> ->].
  by destruct (execute_logger T partial_ratio perf_counter pyautogui_raises'
                 to_json isdigit record_id now_iso self w text confidence
                 source_type language) as [-> ->].
Qed.

(** Typing the number raises, Enter does not: the jump is reported as
    done.  A number with a letter in it is not typed. *)
Lemma jump_to_reports_the_enter_press_witness :
  sent (_jump_to sample_clock first_call_raises ascii_isdigit
          OptimizedPyAutoGUIExecutor.init World.start (Some "12")).2
  = [Typewrite "12" 0.05%float; Press "enter"] ∧
  (_jump_to sample_clock first_call_raises ascii_isdigit
     OptimizedPyAutoGUIExecutor.init World.start (Some "12")).1.1.1 = true ∧
  _jump_to sample_clock first_call_raises ascii_isdigit
    OptimizedPyAutoGUIExecutor.init World.start (Some "1a")
  = ((false, 0.0%float), OptimizedPyAutoGUIExecutor.init, World.start).
Proof.
  destruct (jump_to_reports_the_enter_press sample_clock first_call_raises
              ascii_isdigit OptimizedPyAutoGUIExecutor.init World.start
              (Some "12")) as [_ Hsent].
  destruct (Hsent "12" eq_refl) as [-> ->]; [by vm_compute|].
  split; [done|]. split; [done|].
  apply (jump_to_reports_the_enter_press sample_clock first_call_raises
           ascii_isdigit OptimizedPyAutoGUIExecutor.init World.start
           (Some "1a")).
  by vm_compute.
Defined.




(** A command whose key raises: logged all the same, and counted in
    [total] but not in [success]. *)
Example next_slide_that_raises :
  let after :=
    execute re.ascii_tables PowerPointControllerV53.occurs_ratio sample_clock
      first_call_raises AdvancedTrainingDataLogger.text_field_json
      ascii_isdigit sample_record_id sample_now_iso default_run World.start
      "next slide" 0.95%float "google" "en" in
  sent after.2 = [Press "right"] ∧ created after.2 = 1%nat ∧
  total (stats after.1) = 1 ∧ success (stats after.1) = 0 ∧
  (AdvancedTrainingDataLogger.get_statistics
     (default AdvancedTrainingDataLogger.empty_store
        (training_logger after.1))).(AdvancedTrainingDataLogger.total_entries)
  = 1.
Proof. by vm_compute. Qed.

End ControllerFacts.

(* ===================================================================== *)
(** * [MultiLanguageSpeechEngine] *)
(* ===================================================================== *)

Module SpeechEngineFacts.
Import MultiLanguageSpeechEngine.
Local Open Scope str_scope.

(** One more detection of a language is one more detection. *)
Lemma detections_count_language detected value :
  map_fold (λ (_ : str) (n acc : Z), n + acc) 0 (count_language detected value)
  = map_fold (λ (_ : str) (n acc : Z), n + acc) 0 detected + 1.
Proof.
  unfold count_language.
  assert (∀ (m : gmap str Z) (j1 j2 : str) (z1 z2 y : Z),
            j1 ≠ j2 → m !! j1 = Some z1 → m !! j2 = Some z2 →
            z1 + (z2 + y) = z2 + (z1 + y)) as Hcomm by (intros; lia).
  destruct (detected !! value) as [n|] eqn:Hn; simpl.
  - rewrite <- insert_delete_eq.
    rewrite (map_fold_insert_L _ _ _ _ _ (Hcomm _)) by apply lookup_delete_eq.
    rewrite (map_fold_delete_L _ _ value n detected (Hcomm _) Hn). lia.
  - rewrite (map_fold_insert_L _ _ _ _ _ (Hcomm _) Hn). lia.
Qed.

Section Engine.

Variable langdetect : str → option str.
Variable isspace : N → bool.
Variable lower : str → str.

Abbreviation recognize := (recognize langdetect isspace lower).

(** X28.  The counters of [recognize]: every call is counted in [total]
    and in one of [google_success] and [failed], and every success under
    one language; so the counters of an engine stay consistent, as they
    are at the start. *)
Theorem recognize_keeps_the_counters_consistent
    (self : MultiLanguageSpeechEngine.t) (audio : str → answer)
    (language : Language) :
  consistent (stats self) →
  consistent (stats (recognize self audio language).2) ∧
  total (stats (recognize self audio language).2) = total (stats self) + 1 ∧
  (is_Some (recognize self audio language).1.1.1.1 ↔
   google_success (stats (recognize self audio language).2)
     = google_success (stats self) + 1).
Proof.
  unfold consistent, detections. intros [Htotal Hdetected].
  unfold MultiLanguageSpeechEngine.recognize.
  destruct (audio _) as [heard| |].
  - destruct (if AUTO_DETECT_LANGUAGE (config self) then lang_detector self
              else None) as [detector|].
    + destruct (MultiLanguageDetector.detect _ _ _ _)
        as [[detected_lang confidence] detector'].
      simpl. rewrite detections_count_language.
      repeat split; try lia; by eexists.
    + simpl. rewrite detections_count_language.
      repeat split; try lia; by eexists.
  - simpl. repeat split; try lia. by intros [? ?].
  - simpl. repeat split; try lia. by intros [? ?].
Qed.

(** X29.  The language [recognize] returns is always the value of a
    member of [Language]: the language asked for, or with detection on a
    language the detector supports or its primary language.  [Language]
    reads it back, so [execute] matches what was recognized in that very
    language, whatever its primary language is.  A text comes with
    confidence 0.95 whatever the detector was sure of, and without a text
    the source is "failed". *)
Theorem recognize_returns_a_language
    (self : MultiLanguageSpeechEngine.t) (audio : str → answer)
    (language : Language) (config : Config) :
  ∃ lang,
    (recognize self audio language).1.2 = Language_value lang ∧
    ControllerRun.parse_language config (recognize self audio language).1.2
      = lang ∧
    (lang = language ∨
     ∃ detector,
       AUTO_DETECT_LANGUAGE (MultiLanguageSpeechEngine.config self) = true ∧
       lang_detector self = Some detector ∧
       (lang ∈ MultiLanguageDetector.supported_languages detector ∨
        lang = MultiLanguageDetector.primary_language detector)) ∧
    ((∃ text,
        (recognize self audio language).1.1
          = (Some (lower text), 0.95%float, "google")) ∨
     (recognize self audio language).1.1 = (None, 0.0%float, "failed")).
Proof.
  unfold ControllerRun.parse_language,
    MultiLanguageSpeechEngine.recognize.
  destruct (audio _) as [heard| |].
  - destruct (AUTO_DETECT_LANGUAGE (MultiLanguageSpeechEngine.config self))
      eqn:Hauto;
      [destruct (lang_detector self) as [detector|] eqn:Hdetector|].
    + pose proof (DetectorMore.detect_language langdetect isspace detector
                    (lower heard)) as Hlang.
      destruct (MultiLanguageDetector.detect _ _ _ _)
        as [[detected_lang confidence] detector'].
      exists detected_lang. simpl.
      rewrite ControllerFacts.Language_of_value_value.
      split; [done|]. split; [done|]. split; [|left; by exists heard].
      right. by exists detector.
    + exists language. simpl. rewrite ControllerFacts.Language_of_value_value.
      split; [done|]. split; [done|]. split; [by left|left; by exists heard].
    + exists language. simpl. rewrite ControllerFacts.Language_of_value_value.
      split; [done|]. split; [done|]. split; [by left|left; by exists heard].
  - exists language. simpl. rewrite ControllerFacts.Language_of_value_value.
    split; [done|]. split; [done|]. split; [by left|by right].
  - exists language. simpl. rewrite ControllerFacts.Language_of_value_value.
    split; [done|]. split; [done|]. split; [by left|by right].
Qed.

End Engine.

Lemma recognize_keeps_the_counters_consistent_witness :
  consistent (stats sample_engine) ∧
  consistent
    (stats (recognize MultiLanguageDetector.sample_langdetect
              MultiLanguageDetector.ascii_isspace ascii_str_lower
              sample_engine english_audio ENGLISH).2) ∧
  total
    (stats (recognize MultiLanguageDetector.sample_langdetect
              MultiLanguageDetector.ascii_isspace ascii_str_lower
              sample_engine english_audio ENGLISH).2) = 1.
Proof.
  assert (consistent (stats sample_engine)) as Hstart by (by vm_compute).
  split; [done|].
  destruct (recognize_keeps_the_counters_consistent
              MultiLanguageDetector.sample_langdetect
              MultiLanguageDetector.ascii_isspace ascii_str_lower
              sample_engine english_audio ENGLISH Hstart)
    as (Hconsistent & Htotal & _).
  split; [exact Hconsistent|exact Htotal].
Defined.

(** What is heard comes back in lower case, with the language the
    detector found; in French nothing is heard. *)
Example recognize_english_audio :
  (recognize MultiLanguageDetector.sample_langdetect
     MultiLanguageDetector.ascii_isspace ascii_str_lower sample_engine
     english_audio ENGLISH).1
  = (Some "next slide please", 0.95%float, "google", "en") ∧
  (recognize MultiLanguageDetector.sample_langdetect
     MultiLanguageDetector.ascii_isspace ascii_str_lower sample_engine
     english_audio FRENCH).1
  = (None, 0.0%float, "failed", "fr").
Proof. by vm_compute. Qed.

End SpeechEngineFacts.
